(** * medicosdoc_scraper: a shallow embedding and its verified properties

    The development follows [src/medicosdoc_scraper.py].  Python values that
    come out of [json.loads] are modelled by the inductive type [json];
    Python [str] is a list of Unicode code points; exceptions are explicit
    ([result]); HTTP requests, generator yields and stream writes are the
    operations of a small resumption monad ([prog]), so that a generator is
    a suspended program that only runs when it is iterated.  The entry
    points ([main], [run_specialties]) come after the writer, and with them
    the validation of [src/run_from_config.py].

    Library code the module imports is modelled from CPython 3.11
    ([urllib.parse], [csv], [str] methods).  What depends on large tables or
    on third-party parsers (Unicode normalisation, [ipaddress], [bs4],
    [json.loads]) is an operation of the class [Runtime], and so are the
    encoding of the standard output and the line separator of the
    platform.  A text stream encodes what it is given: a write raises
    UnicodeEncodeError on text its encoding does not take. *)

From Stdlib Require Import List ZArith NArith Lia Bool String Ascii.
From Stdlib Require Import DecimalString SpecFloat Sorted.
Import ListNotations.

Set Implicit Arguments.

(** ** Python strings *)

Definition pystr := list N.

Definition ord (a : ascii) : N := N_of_ascii a.

Definition str (s : string) : pystr := map ord (list_ascii_of_string s).
Arguments str : simpl never.

Definition str_eqb (a b : pystr) : bool :=
  if list_eq_dec N.eq_dec a b then true else false.

Definition char_in (c : N) (s : pystr) : bool := existsb (N.eqb c) s.

Fixpoint startswith (s p : pystr) : bool :=
  match p, s with
  | [], _ => true
  | c :: p', d :: s' => N.eqb c d && startswith s' p'
  | _ :: _, [] => false
  end.

(** [needle in hay] for two strings. *)
Fixpoint str_in (needle hay : pystr) : bool :=
  startswith hay needle ||
  match hay with
  | [] => false
  | _ :: hay' => str_in needle hay'
  end.

Fixpoint lstrip_by (p : N -> bool) (s : pystr) : pystr :=
  match s with
  | [] => []
  | c :: s' => if p c then lstrip_by p s' else s
  end.

Definition rstrip_by (p : N -> bool) (s : pystr) : pystr :=
  rev (lstrip_by p (rev s)).

Definition strip_by (p : N -> bool) (s : pystr) : pystr :=
  rstrip_by p (lstrip_by p s).

(** [str.isspace] on one character: the code points CPython's
    [_PyUnicode_IsWhitespace] accepts. *)
Definition isspace (c : N) : bool :=
  ((9 <=? c) && (c <=? 13) || (28 <=? c) && (c <=? 32)
   || (c =? 133) || (c =? 160) || (c =? 5760)
   || (8192 <=? c) && (c <=? 8202)
   || (c =? 8232) || (c =? 8233) || (c =? 8239) || (c =? 8287)
   || (c =? 12288))%N.

(** [s.strip()] *)
Definition strip (s : pystr) : pystr := strip_by isspace s.

Definition is_ascii (c : N) : bool := (c <? 128)%N.

(** [s.encode("ascii", "ignore").decode("ascii")] *)
Definition encode_ascii_ignore (s : pystr) : pystr := filter is_ascii s.

Definition lower_char (c : N) : N :=
  if ((65 <=? c) && (c <=? 90))%N then (c + 32)%N else c.

(** [s.lower()]; the embedding applies it to ASCII text only, where it
    changes the letters A-Z and nothing else. *)
Definition lower (s : pystr) : pystr := map lower_char s.

(** [s.find(c)] for a one-character [c]: the index, or [None] for -1. *)
Fixpoint find_char (c : N) (s : pystr) : option nat :=
  match s with
  | [] => None
  | d :: s' => if N.eqb c d then Some O
               else option_map S (find_char c s')
  end.

(** [s.replace(c, empty)]: every occurrence of [c] removed *)
Definition remove_char (c : N) (s : pystr) : pystr :=
  filter (fun d => negb (N.eqb c d)) s.

(** [s.split(c)] for a one-character separator. *)
Fixpoint split_on (c : N) (s : pystr) : list pystr :=
  match s with
  | [] => [[]]
  | d :: s' =>
      if N.eqb c d then [] :: split_on c s'
      else match split_on c s' with
           | [] => [[d]]
           | seg :: segs => (d :: seg) :: segs
           end
  end.

(** [sep.join(parts)] *)
Fixpoint join (sep : pystr) (parts : list pystr) : pystr :=
  match parts with
  | [] => []
  | [p] => p
  | p :: rest => p ++ sep ++ join sep rest
  end.

(** [s.split(c, 1)] when [c in s]: the text before and after the first [c]. *)
Definition split_once (c : N) (s : pystr) : option (pystr * pystr) :=
  match find_char c s with
  | Some i => Some (firstn i s, skipn (S i) s)
  | None => None
  end.

(** [str(n)] for an [int] *)
Definition str_of_int (n : Z) : pystr :=
  str (NilZero.string_of_int (Z.to_int n)).

(** ** Exceptions and results *)

Inductive exn : Type :=
| ValueError (msg : pystr)
| RuntimeError (msg : pystr)
| KeyError (key : pystr)
| TypeError (msg : pystr)
| AttributeError (msg : pystr)
| OverflowError (msg : pystr)
| UnicodeEncodeError (msg : pystr)      (* a ValueError, by its class *)
| LibraryError (name : pystr).   (* raised by requests, bs4 or json *)

(** [str(e)] *)
Definition message (e : exn) : pystr :=
  match e with
  | ValueError msg | RuntimeError msg | TypeError msg
  | AttributeError msg | OverflowError msg | UnicodeEncodeError msg
  | LibraryError msg => msg
  | KeyError key => str "'" ++ key ++ str "'"
  end.

Inductive result (A : Type) : Type :=
| Ok (a : A)
| Err (e : exn).
Arguments Ok {A} a.
Arguments Err {A} e.

Definition rbind {A B} (r : result A) (f : A -> result B) : result B :=
  match r with
  | Ok a => f a
  | Err e => Err e
  end.

Declare Scope result_scope.
Delimit Scope result_scope with result.
Notation "x <- e ;; k" := (rbind e (fun x => k))
  (at level 61, e at next level, right associativity) : result_scope.
Notation "' pat <- e ;; k" := (rbind e (fun x => match x with pat => k end))
  (at level 61, pat pattern, e at next level, right associativity)
  : result_scope.

(** ** JSON values, as [json.loads] builds them *)

#[local] Unset Elimination Schemes.
Inductive json : Type :=
| JNull
| JBool (b : bool)
| JInt (n : Z)
| JFloat (f : spec_float)
| JStr (s : pystr)
| JList (items : list json)
| JObj (fields : list (pystr * json)).
#[local] Set Elimination Schemes.

Definition pydict := list (pystr * json).

(** The items of a dict in insertion order; a key is bound to the first
    pair that carries it. *)
Fixpoint lookup (k : pystr) (d : pydict) : option json :=
  match d with
  | [] => None
  | (k', v) :: d' => if str_eqb k k' then Some v else lookup k d'
  end.

(** [bool(v)] *)
Definition truthy (v : json) : bool :=
  match v with
  | JNull => false
  | JBool b => b
  | JInt n => negb (n =? 0)%Z
  | JFloat (S754_zero _) => false
  | JFloat _ => true
  | JStr s => negb (Nat.eqb (List.length s) 0)
  | JList l => negb (Nat.eqb (List.length l) 0)
  | JObj d => negb (Nat.eqb (List.length d) 0)
  end.

(** [a or b] *)
Definition py_or (a b : json) : json := if truthy a then a else b.

(** [type(v).__name__] *)
Definition type_name (v : json) : pystr :=
  match v with
  | JNull => str "NoneType"
  | JBool _ => str "bool"
  | JInt _ => str "int"
  | JFloat _ => str "float"
  | JStr _ => str "str"
  | JList _ => str "list"
  | JObj _ => str "dict"
  end.

Definition no_attribute (v : json) (attr : string) : exn :=
  AttributeError (str "'" ++ type_name v ++ str "' object has no attribute '"
                  ++ str attr ++ str "'").

(** [v.get(k, default)]: only a dict has the method. *)
Definition get_default (v : json) (k : pystr) (default : json) : result json :=
  match v with
  | JObj d => Ok (match lookup k d with Some x => x | None => default end)
  | _ => Err (no_attribute v "get")
  end.

(** [v.get(k)] *)
Definition get (v : json) (k : pystr) : result json := get_default v k JNull.

(** [v[k]] for a string key: a dict answers or raises [KeyError]; a list
    or a string takes integer indices only; nothing else is subscriptable. *)
Definition getitem (v : json) (k : pystr) : result json :=
  match v with
  | JObj d => match lookup k d with
              | Some x => Ok x
              | None => Err (KeyError k)
              end
  | JList _ =>
      Err (TypeError (str "list indices must be integers or slices, not str"))
  | JStr _ =>
      Err (TypeError (str "string indices must be integers, not 'str'"))
  | _ => Err (TypeError (str "'" ++ type_name v
                         ++ str "' object is not subscriptable"))
  end.

(** [iter(v)], as a [for] loop or [yield from] consumes it. *)
Definition iterate (v : json) : result (list json) :=
  match v with
  | JList items => Ok items
  | JObj d => Ok (map (fun kv => JStr (fst kv)) d)
  | JStr s => Ok (map (fun c => JStr [c]) s)
  | _ => Err (TypeError (str "'" ++ type_name v
                         ++ str "' object is not iterable"))
  end.

(** [range(a, b)] *)
Definition py_range (a b : Z) : list Z :=
  map (fun i => (a + Z.of_nat i)%Z) (seq 0 (Z.to_nat (b - a))).

(** ** Text encodings

    A text stream encodes what is written to it; text its encoding does
    not take makes [write] raise UnicodeEncodeError. *)

(** An encoding together with its error handler: the name and the reason
    are those the error of a rejected text carries. *)
Record Codec : Type := {
  codec_name : pystr;
  codec_takes : N -> bool;
  codec_reason : pystr
}.

Definition is_surrogate (c : N) : bool := ((55296 <=? c) && (c <=? 57343))%N.

(** UTF-8 with the strict handler: every code point but the surrogates,
    which [json.loads] lets into a [str] when they come unpaired. *)
Definition utf_8 : Codec :=
  {| codec_name := str "utf-8";
     codec_takes := fun c => negb (is_surrogate c);
     codec_reason := str "surrogates not allowed" |}.

(** Whether a stream with that encoding takes the character.  The ASCII
    characters are taken whatever the encoding: the encodings a text
    stream of CPython has are ASCII-compatible. *)
Definition encodable (codec : Codec) (c : N) : bool :=
  is_ascii c || codec_takes codec c.

(** The length of the longest prefix whose characters satisfy [p]. *)
Fixpoint span (p : N -> bool) (s : pystr) : nat :=
  match s with
  | c :: s' => if p c then S (span p s') else O
  | [] => O
  end.

Definition hex_digit (d : N) : N := (if d <? 10 then 48 + d else 87 + d)%N.

(** [n] in hexadecimal, in lower case, on [digits] digits. *)
Fixpoint hex (digits : nat) (n : N) : pystr :=
  match digits with
  | O => []
  | S k => hex k (n / 16)%N ++ [hex_digit (n mod 16)%N]
  end.

(** A character as the message of a UnicodeEncodeError shows it. *)
Definition escaped (c : N) : pystr :=
  if (c <? 256)%N then [92; 120]%N ++ hex 2 c
  else if (c <? 65536)%N then [92; 117]%N ++ hex 4 c
  else [92; 85]%N ++ hex 8 c.

(** The error for the [count] characters from position [start] on, [c]
    being the first of them. *)
Definition encode_error (codec : Codec) (c : N) (start count : nat) : exn :=
  UnicodeEncodeError
    (str "'" ++ codec_name codec ++ str "' codec can't encode "
     ++ (if Nat.eqb count 1
         then str "character '" ++ escaped c ++ str "' in position "
              ++ str_of_int (Z.of_nat start)
         else str "characters in position " ++ str_of_int (Z.of_nat start)
              ++ str "-" ++ str_of_int (Z.of_nat (start + count - 1)))
     ++ str ": " ++ codec_reason codec).

(** Encoding a text whose first [pos] characters were taken: [None] when
    the rest is taken too, otherwise the error, which names the first run
    of characters the encoding does not take. *)
Fixpoint encode_from (codec : Codec) (pos : nat) (txt : pystr) : option exn :=
  match txt with
  | [] => None
  | c :: rest =>
      if encodable codec c then encode_from codec (S pos) rest
      else Some (encode_error codec c pos
                   (S (span (fun d => negb (encodable codec d)) rest)))
  end.

(** What [encoder.encode(txt)] raises, if anything. *)
Definition encode (codec : Codec) (txt : pystr) : option exn :=
  encode_from codec 0 txt.

(** ** The library operations the module relies on *)

Class Runtime : Type := {
  (** [unicodedata.normalize("NFKD", s)] and [("NFKC", s)] *)
  normalize_NFKD : pystr -> pystr;
  normalize_NFKC : pystr -> pystr;
  (** [urllib.parse._check_bracketed_host(hostname)], which consults
      [ipaddress]: [None] when it returns, otherwise the message of the
      [ValueError] it raises *)
  check_bracketed_host : pystr -> option pystr;
  (** [int(s)] for a string *)
  int_of_str : pystr -> result Z;
  (** [str(v)] for a float, a list or a dict *)
  repr_value : json -> pystr;
  (** [json.loads(s)] and [json.dumps(v, indent=2, ensure_ascii=False)] *)
  json_loads : pystr -> result json;
  json_dumps : json -> pystr;
  (** [BeautifulSoup(html, "html.parser").find("script", id="__NEXT_DATA__")]:
      [None] when there is no such tag, otherwise the tag's [.string] *)
  find_next_data : pystr -> option (option pystr);
  (** the encoding and error handler of [sys.stdout], which the
      environment chooses *)
  stdout_codec : Codec;
  (** [os.linesep], which a text file opened without [newline=] writes
      for every line feed *)
  linesep : pystr
}.

Section TextNormalizer.
Context {R : Runtime}.
Local Open Scope result_scope.

(** The string part of [_normalize_text]. *)
Definition normalize_str (s : pystr) : pystr :=
  let normalized := normalize_NFKD s in
  let ascii_only := encode_ascii_ignore normalized in
  strip (lower ascii_only).

(** [_normalize_text(value)]: [or] replaces a falsy value by the empty text;
    [unicodedata.normalize] rejects what is not a [str]. *)
Definition _normalize_text (value : json) : result pystr :=
  match py_or value (JStr []) with
  | JStr s => Ok (normalize_str s)
  | v => Err (TypeError (str "normalize() argument 2 must be str, not "
                         ++ type_name v))
  end.

(** [s.split()] without arguments: the maximal runs of non-space. *)
Fixpoint split_ws_aux (cur : pystr) (s : pystr) : list pystr :=
  match s with
  | [] => match cur with [] => [] | _ => [rev cur] end
  | c :: s' =>
      if isspace c
      then match cur with
           | [] => split_ws_aux [] s'
           | _ => rev cur :: split_ws_aux [] s'
           end
      else split_ws_aux (c :: cur) s'
  end.

Definition split_ws (s : pystr) : list pystr := split_ws_aux [] s.

(** [_slugify(value)] *)
Definition _slugify (value : json) : result pystr :=
  n <- _normalize_text value ;;
  let parts := filter (fun part => negb (Nat.eqb (List.length part) 0))
                      (split_ws n) in
  match join (str "-") parts with
  | [] => Ok (str "unknown")
  | slug => Ok slug
  end.

End TextNormalizer.

(** ** [urllib.parse] *)

Module Url.
Section Url.
Context {R : Runtime}.
Local Open Scope result_scope.

Definition uses_relative : list pystr :=
  [] :: map str ["ftp"; "http"; "gopher"; "nntp"; "imap";
           "wais"; "file"; "https"; "shttp"; "mms";
           "prospero"; "rtsp"; "rtspu"; "sftp";
           "svn"; "svn+ssh"; "ws"; "wss"]%string.

Definition uses_netloc : list pystr :=
  [] :: map str ["ftp"; "http"; "gopher"; "nntp"; "telnet";
           "imap"; "wais"; "file"; "mms"; "https"; "shttp";
           "snews"; "prospero"; "rtsp"; "rtspu"; "rsync";
           "svn"; "svn+ssh"; "sftp"; "nfs"; "git"; "git+ssh";
           "ws"; "wss"]%string.

Definition uses_params : list pystr :=
  [] :: map str ["ftp"; "hdl"; "prospero"; "http"; "imap";
           "https"; "shttp"; "rtsp"; "rtspu"; "sip"; "sips";
           "mms"; "sftp"; "tel"]%string.

Definition scheme_chars : pystr :=
  str "abcdefghijklmnopqrstuvwxyzABCDEFGHIJKLMNOPQRSTUVWXYZ0123456789+-.".

(** Membership in [_WHATWG_C0_CONTROL_OR_SPACE]. *)
Definition c0_control_or_space (c : N) : bool := (c <=? 32)%N.

Definition _UNSAFE_URL_BYTES_TO_REMOVE : list N := [9; 13; 10]%N.

Definition remove_unsafe (s : pystr) : pystr :=
  fold_left (fun u b => remove_char b u) _UNSAFE_URL_BYTES_TO_REMOVE s.

Definition mem (s : pystr) (l : list pystr) : bool := existsb (str_eqb s) l.

Definition nonempty (s : pystr) : bool := negb (Nat.eqb (List.length s) 0).

(** [c.isascii() and c.isalpha()] *)
Definition ascii_alpha (c : N) : bool :=
  ((65 <=? c) && (c <=? 90) || (97 <=? c) && (c <=? 122))%N.

(** [s.find(c, start)] *)
Definition find_from (c : N) (start : nat) (s : pystr) : option nat :=
  option_map (Nat.add start) (find_char c (skipn start s)).

(** [s.rfind(c)] *)
Definition rfind_char (c : N) (s : pystr) : option nat :=
  option_map (fun i => (List.length s - 1 - i)%nat) (find_char c (rev s)).

(** [s[a:b]] for [0 <= a] and [0 <= b] *)
Definition slice (s : pystr) (a b : nat) : pystr := firstn (b - a) (skipn a s).

(** [s.partition(c)]: before, whether the separator was found, after. *)
Definition partition (c : N) (s : pystr) : pystr * bool * pystr :=
  match find_char c s with
  | Some i => (firstn i s, true, skipn (S i) s)
  | None => (s, false, [])
  end.

(** [s.rpartition(c)[2]] *)
Definition rpartition_tail (c : N) (s : pystr) : pystr :=
  match rfind_char c s with
  | Some i => skipn (S i) s
  | None => s
  end.

Record SplitResult : Type := {
  s_scheme : pystr; s_netloc : pystr; s_path : pystr;
  s_query : pystr; s_fragment : pystr
}.

Record ParseResult : Type := {
  scheme : pystr; netloc : pystr; path : pystr;
  params : pystr; query : pystr; fragment : pystr
}.

Definition _splitnetloc (url : pystr) (start : nat) : pystr * pystr :=
  let delim :=
    fold_left (fun delim c =>
                 match find_from c start url with
                 | Some wdelim => Nat.min delim wdelim
                 | None => delim
                 end)
              (str "/?#") (List.length url) in
  (slice url start delim, skipn delim url).

Definition _checknetloc (netloc : pystr) : result unit :=
  if negb (nonempty netloc) || forallb is_ascii netloc then Ok tt
  else
    let n := remove_char (ord "@") netloc in
    let n := remove_char (ord ":") n in
    let n := remove_char (ord "#") n in
    let n := remove_char (ord "?") n in
    let netloc2 := normalize_NFKC n in
    if str_eqb n netloc2 then Ok tt
    else if existsb (fun c => char_in c netloc2) (str "/?#@:")
         then Err (ValueError
                     (str "netloc '" ++ netloc ++
                      str "' contains invalid characters under NFKC normalization"))
         else Ok tt.

Definition _check_bracketed_host (hostname : pystr) : result unit :=
  match check_bracketed_host hostname with
  | None => Ok tt
  | Some msg => Err (ValueError msg)
  end.

Definition _check_bracketed_netloc (netloc : pystr) : result unit :=
  let hostname_and_port := rpartition_tail (ord "@") netloc in
  let '(before_bracket, have_open_br, bracketed) :=
    partition (ord "[") hostname_and_port in
  if have_open_br then
    if nonempty before_bracket then Err (ValueError (str "Invalid IPv6 URL"))
    else
      let '(hostname, _, port) := partition (ord "]") bracketed in
      if nonempty port && negb (startswith port (str ":"))
      then Err (ValueError (str "Invalid IPv6 URL"))
      else _check_bracketed_host hostname
  else
    let '(hostname, _, port) := partition (ord ":") hostname_and_port in
    _check_bracketed_host hostname.

(** The scheme block of [urlsplit]: the text before the first colon is
    the scheme when it starts with an ASCII letter and holds scheme
    characters only. *)
Definition split_scheme (url scheme : pystr) : pystr * pystr :=
  match find_char (ord ":") url, url with
  | Some (S i'), c0 :: _ =>
      let i := S i' in
      if ascii_alpha c0
         && forallb (fun c => char_in c scheme_chars) (firstn i url)
      then (lower (firstn i url), skipn (S i) url)
      else (scheme, url)
  | _, _ => (scheme, url)
  end.

(** The two bracket tests [urlsplit] makes on a netloc. *)
Definition check_brackets (netloc : pystr) : result unit :=
  let has_open := char_in (ord "[") netloc in
  let has_close := char_in (ord "]") netloc in
  if has_open && negb has_close || has_close && negb has_open
  then Err (ValueError (str "Invalid IPv6 URL"))
  else if has_open && has_close then _check_bracketed_netloc netloc
       else Ok tt.

(** The netloc block of [urlsplit]. *)
Definition split_authority (url : pystr) : result (pystr * pystr) :=
  (if str_eqb (firstn 2 url) (str "//") then
     let '(netloc, url) := _splitnetloc url 2 in
     _ <- check_brackets netloc ;;
     Ok (netloc, url)
   else Ok ([], url))%result.

(** [url.split(c, 1)] when [c in url], the pair of [url] and the empty
    string otherwise. *)
Definition split_at (c : N) (url : pystr) : pystr * pystr :=
  match split_once c url with
  | Some (before, after) => (before, after)
  | None => (url, [])
  end.

(** [urlsplit(url, scheme)], with [allow_fragments] left at [True]. *)
Definition urlsplit (url scheme : pystr) : result SplitResult :=
  let url := lstrip_by c0_control_or_space url in
  let scheme := strip_by c0_control_or_space scheme in
  let url := remove_unsafe url in
  let scheme := remove_unsafe scheme in
  let '(scheme, url) := split_scheme url scheme in
  '(netloc, url) <- split_authority url ;;
  let '(url, fragment) := split_at (ord "#") url in
  let '(url, query) := split_at (ord "?") url in
  _ <- _checknetloc netloc ;;
  Ok {| s_scheme := scheme; s_netloc := netloc; s_path := url;
        s_query := query; s_fragment := fragment |}.

Definition _splitparams (url : pystr) : pystr * pystr :=
  let i :=
    if char_in (ord "/") url then
      match rfind_char (ord "/") url with
      | Some r => find_from (ord ";") r url
      | None => None
      end
    else find_char (ord ";") url in
  match i with
  | Some i => (firstn i url, skipn (S i) url)
  | None => (url, [])
  end.

Definition urlparse (url scheme : pystr) : result ParseResult :=
  sr <- urlsplit url scheme ;;
  let '(url, params) :=
    if mem (s_scheme sr) uses_params && char_in (ord ";") (s_path sr)
    then _splitparams (s_path sr)
    else (s_path sr, []) in
  Ok {| scheme := s_scheme sr; netloc := s_netloc sr; path := url;
        params := params; query := s_query sr; fragment := s_fragment sr |}.

Definition urlunsplit (scheme netloc url query fragment : pystr) : pystr :=
  let url :=
    if nonempty netloc
       || (nonempty scheme && mem scheme uses_netloc
           && negb (str_eqb (firstn 2 url) (str "//")))
    then
      let url := if nonempty url && negb (str_eqb (firstn 1 url) (str "/"))
                 then str "/" ++ url else url in
      str "//" ++ netloc ++ url
    else url in
  let url := if nonempty scheme then scheme ++ str ":" ++ url else url in
  let url := if nonempty query then url ++ str "?" ++ query else url in
  if nonempty fragment then url ++ str "#" ++ fragment else url.

Definition urlunparse (scheme netloc url params query fragment : pystr)
  : pystr :=
  let url := if nonempty params then url ++ str ";" ++ params else url in
  urlunsplit scheme netloc url query fragment.

(** [segments[1:-1] = filter(None, segments[1:-1])] *)
Definition filter_middle (segments : list pystr) : list pystr :=
  match segments with
  | first :: (_ :: _) as rest =>
      first :: filter nonempty (removelast rest) ++ [last rest []]
  | _ => segments
  end.

Definition resolve_segments (segments : list pystr) : list pystr :=
  fold_left (fun resolved_path seg =>
               if str_eqb seg (str "..") then removelast resolved_path
               else if str_eqb seg (str ".") then resolved_path
               else resolved_path ++ [seg])
            segments [].

(** [urljoin(base, url)] for two strings. *)
Definition urljoin (base url : pystr) : result pystr :=
  if negb (nonempty base) then Ok url
  else if negb (nonempty url) then Ok base
  else
    b <- urlparse base [] ;;
    u <- urlparse url (scheme b) ;;
    if negb (str_eqb (scheme u) (scheme b)) || negb (mem (scheme u) uses_relative)
    then Ok url
    else if mem (scheme u) uses_netloc && nonempty (netloc u)
    then Ok (urlunparse (scheme u) (netloc u) (path u)
                        (params u) (query u) (fragment u))
    else
      let netloc := if mem (scheme u) uses_netloc then netloc b else netloc u in
      if negb (nonempty (path u)) && negb (nonempty (params u)) then
        let query := if negb (nonempty (query u)) then query b else query u in
        Ok (urlunparse (scheme u) netloc (path b) (params b) query (fragment u))
      else
        let base_parts := split_on (ord "/") (path b) in
        let base_parts :=
          if nonempty (last base_parts []) then removelast base_parts
          else base_parts in
        let segments :=
          if str_eqb (firstn 1 (path u)) (str "/")
          then split_on (ord "/") (path u)
          else filter_middle (base_parts ++ split_on (ord "/") (path u)) in
        let resolved_path := resolve_segments segments in
        let resolved_path :=
          if str_eqb (last segments []) (str ".")
             || str_eqb (last segments []) (str "..")
          then resolved_path ++ [[]] else resolved_path in
        let joined := join (str "/") resolved_path in
        let joined := if nonempty joined then joined else str "/" in
        Ok (urlunparse (scheme u) netloc joined (params u) (query u)
                       (fragment u)).

End Url.
End Url.

(** ** Effects: HTTP, generator yields, stream writes *)

(** [session.get(url, params={"page": page}, timeout=...)] *)
Record Request : Type := {
  req_url : pystr;
  req_page : option Z;
  req_timeout : Z
}.

(** The part of a [requests.Response] the module looks at. *)
Record Response : Type := {
  status_error : option exn;     (* what [raise_for_status()] raises *)
  text : pystr;                  (* [response.text] *)
  json_result : result json      (* outcome of [response.json()] *)
}.

(** The origin server together with the network: either [session.get]
    raises, or it returns a response. *)
Definition world := Request -> result Response.

Inductive event : Type :=
| EvGet (rq : Request)                          (* recorded by [run] *)
| EvYield (v : json)
| EvOpen (path : pystr)
| EvWrite (dest : option pystr) (txt : pystr)    (* [None] is sys.stdout *)
| EvClose (path : pystr).

Inductive prog (A : Type) : Type :=
| Ret (a : A)
| Raise (e : exn)
| Out (ev : event) (k : prog A)
| Http (rq : Request) (k : Response -> prog A).
Arguments Ret {A} a.
Arguments Raise {A} e.
Arguments Out {A} ev k.
Arguments Http {A} rq k.

Fixpoint bind {A B} (p : prog A) (f : A -> prog B) : prog B :=
  match p with
  | Ret a => f a
  | Raise e => Raise e
  | Out ev k => Out ev (bind k f)
  | Http rq k => Http rq (fun resp => bind (k resp) f)
  end.

Definition lift {A} (r : result A) : prog A :=
  match r with
  | Ok a => Ret a
  | Err e => Raise e
  end.

Declare Scope prog_scope.
Delimit Scope prog_scope with prog.
Notation "x <- e ;; k" := (bind e (fun x => k))
  (at level 61, e at next level, right associativity) : prog_scope.
Notation "' pat <- e ;; k" := (bind e (fun x => match x with pat => k end))
  (at level 61, pat pattern, e at next level, right associativity)
  : prog_scope.
Notation "e ;;; k" := (bind e (fun _ => k))
  (at level 61, right associativity) : prog_scope.

Definition yield (v : json) : prog unit := Out (EvYield v) (Ret tt).

Section TextStreams.
Context {R : Runtime}.

(** The encoding of a stream: a file is opened with [encoding="utf-8"],
    [sys.stdout] has the encoding of the environment. *)
Definition codec_of (dest : option pystr) : Codec :=
  match dest with
  | Some _ => utf_8
  | None => stdout_codec
  end.

(** [stream.write(txt)]: the text is encoded whole, so that nothing of a
    text the encoding does not take reaches the stream.  The device is
    taken to accept what was encoded. *)
Definition write (dest : option pystr) (txt : pystr) : prog unit :=
  match encode (codec_of dest) txt with
  | Some e => Raise e
  | None => Out (EvWrite dest txt) (Ret tt)
  end.

(** The text a file opened without [newline=] encodes for [txt]: every
    line feed has become [os.linesep]. *)
Definition translated (txt : pystr) : pystr :=
  flat_map (fun c => if N.eqb c 10 then linesep else [c]) txt.

End TextStreams.

(** [for x in xs: body(x)] *)
Fixpoint for_each {X} (xs : list X) (body : X -> prog unit) : prog unit :=
  match xs with
  | [] => Ret tt
  | x :: xs' => bind (body x) (fun _ => for_each xs' body)
  end.

(** Running a program to its end against a world: what happened, in order,
    and how it ended. *)
Fixpoint run {A} (w : world) (p : prog A) : list event * result A :=
  match p with
  | Ret a => ([], Ok a)
  | Raise e => ([], Err e)
  | Out ev k => let '(t, r) := run w k in (ev :: t, r)
  | Http rq k =>
      match w rq with
      | Ok resp => let '(t, r) := run w (k resp) in (EvGet rq :: t, r)
      | Err e => ([EvGet rq], Err e)
      end
  end.

(** A generator object is its suspended body. *)
Definition generator := prog unit.

Inductive step : Type :=
| Yielded (v : json) (rest : generator)
| StopIteration
| Raised (e : exn).

(** [next(g)]: the body runs up to its next [yield]. *)
Fixpoint next (w : world) (g : generator) : list event * step :=
  match g with
  | Ret _ => ([], StopIteration)
  | Raise e => ([], Raised e)
  | Out (EvYield v) k => ([], Yielded v k)
  | Out ev k => let '(t, s) := next w k in (ev :: t, s)
  | Http rq k =>
      match w rq with
      | Ok resp => let '(t, s) := next w (k resp) in (EvGet rq :: t, s)
      | Err e => ([EvGet rq], Raised e)
      end
  end.

Definition yields (t : list event) : list json :=
  flat_map (fun ev => match ev with EvYield v => [v] | _ => [] end) t.

Definition requests (t : list event) : list Request :=
  flat_map (fun ev => match ev with EvGet rq => [rq] | _ => [] end) t.

(** [list(g)] *)
Definition py_list (w : world) (g : generator) : result (list json) :=
  let '(t, r) := run w g in
  match r with
  | Ok _ => Ok (yields t)
  | Err e => Err e
  end.

(** ** Built-in conversions *)

Section Builtins.
Context {R : Runtime}.

(** [int(f)] for a float: truncation toward zero. *)
Definition int_of_float (f : spec_float) : result Z :=
  match f with
  | S754_zero _ => Ok 0%Z
  | S754_infinity _ =>
      Err (OverflowError (str "cannot convert float infinity to integer"))
  | S754_nan => Err (ValueError (str "cannot convert float NaN to integer"))
  | S754_finite s m e =>
      let magnitude := Z.shiftl (Zpos m) e in
      Ok (if s then (- magnitude)%Z else magnitude)
  end.

(** [int(v)] *)
Definition py_int (v : json) : result Z :=
  match v with
  | JInt n => Ok n
  | JBool b => Ok (if b then 1 else 0)%Z
  | JFloat f => int_of_float f
  | JStr s => int_of_str s
  | JNull | JList _ | JObj _ =>
      Err (TypeError
             (str "int() argument must be a string, a bytes-like object or a real number, not '"
              ++ type_name v ++ str "'"))
  end.

(** [str(v)], which is also what an f-string field and the csv writer use. *)
Definition py_str (v : json) : pystr :=
  match v with
  | JStr s => s
  | JNull => str "None"
  | JBool true => str "True"
  | JBool false => str "False"
  | JInt n => str_of_int n
  | JFloat _ | JList _ | JObj _ => repr_value v
  end.

End Builtins.

(** ** [class MedicosDocScraper] *)

Module MedicosDocScraper.
Section Scraper.
Context {R : Runtime}.
Import Url.

Definition empty_dict : json := JObj [].
Definition empty_str : json := JStr [].

(** [_base_root(directory_url)] *)
Definition _base_root (directory_url : pystr) : result pystr :=
  (parsed <- urlparse directory_url [] ;;
   Ok (urlunparse (scheme parsed) (netloc parsed) (str "/") [] [] []))%result.

(** [_data_path(directory_url)] *)
Definition _data_path (directory_url : pystr) : result pystr :=
  (parsed <- urlparse directory_url [] ;;
   let path := lstrip_by (N.eqb (ord "/")) (path parsed) in
   let path := if N.eqb (last path 0%N) (ord "/") then removelast path
               else path in
   Ok (if nonempty path then path else str "index"))%result.

(** [_doctor_specialty(doctor)] *)
Definition _doctor_specialty (doctor : json) : result json :=
  (sub <- get doctor (str "SubSpecialties") ;;
   spec <- get (py_or sub empty_dict) (str "Specialty") ;;
   let specialty_data := py_or spec empty_dict in
   english <- get specialty_data (str "SpecialityNameEnglish") ;;
   if truthy english then Ok english
   else get specialty_data (str "SpecialityName"))%result.

(** [(v or empty).strip()]: only a [str] has the method. *)
Definition or_empty_strip (v : json) : result pystr :=
  match py_or v empty_str with
  | JStr s => Ok (strip s)
  | v => Err (no_attribute v "strip")
  end.

(** [_build_name(doctor)] *)
Definition _build_name (doctor : json) : result pystr :=
  (n <- get doctor (str "Name") ;;
   first <- or_empty_strip n ;;
   l <- get doctor (str "LastName") ;;
   last <- or_empty_strip l ;;
   Ok (strip (first ++ str " " ++ last)))%result.

(** [urljoin(base_root, photos or empty)]: a non-empty argument that is not a
    [str] cannot be mixed with the [str] base. *)
Definition join_photo (base_root : pystr) (photos : json) : result pystr :=
  match py_or photos empty_str with
  | JStr s => urljoin base_root s
  | _ => Err (TypeError (str "Cannot mix str and non-str arguments"))
  end.

(** [to_record(doctor, directory_url)]; the result is the dict literal, its
    thirteen items in the order they are written. *)
Definition to_record (doctor : json) (directory_url : pystr) : result pydict :=
  (hq <- get doctor (str "Headquarters") ;;
   let head := py_or hq empty_dict in
   sub <- get doctor (str "SubSpecialties") ;;
   spec <- get (py_or sub empty_dict) (str "Specialty") ;;
   let specialty_data := py_or spec empty_dict in
   english <- get specialty_data (str "SpecialityNameEnglish") ;;
   specialty <-
     (if truthy english then Ok english
      else localized <- get specialty_data (str "SpecialityName") ;;
           Ok (py_or localized empty_str)) ;;
   base_root <- _base_root directory_url ;;
   short_id <- get doctor (str "ShortId") ;;
   id <- (if truthy short_id then Ok short_id else get doctor (str "_id")) ;;
   name <- _build_name doctor ;;
   city_id <- get head (str "CityId") ;;
   city <- get (py_or city_id empty_dict) (str "Name") ;;
   address <- get head (str "Address") ;;
   medical_center <- get head (str "MedicalCenter") ;;
   office <- get head (str "Office") ;;
   services_english <- get doctor (str "HighlightedServicesEnglish") ;;
   highlighted_services <-
     (if truthy services_english then Ok services_english
      else get doctor (str "HighlightedServices")) ;;
   consult_value <- get doctor (str "ConsultValue") ;;
   premium <- get doctor (str "Premium") ;;
   ratings <- get doctor (str "RatingsSummary") ;;
   rating_average <- get (py_or ratings empty_dict) (str "averageRating") ;;
   ratings' <- get doctor (str "RatingsSummary") ;;
   rating_count <- get (py_or ratings' empty_dict) (str "numberOfRatings") ;;
   photos <- get doctor (str "Photos") ;;
   photo_url <- join_photo base_root photos ;;
   Ok [ (str "id", id);
        (str "name", JStr name);
        (str "specialty", specialty);
        (str "city", city);
        (str "address", address);
        (str "medical_center", medical_center);
        (str "office", office);
        (str "highlighted_services", highlighted_services);
        (str "consult_value", consult_value);
        (str "premium", JBool (truthy premium));
        (str "rating_average", rating_average);
        (str "rating_count", rating_count);
        (str "photo_url", JStr photo_url) ])%result.

(** The loop of [filter_by_specialty], [matches] being the list built so
    far. *)
Fixpoint filter_loop (target : pystr) (doctors matches : list json)
  : result (list json) :=
  match doctors with
  | [] => Ok matches
  | doctor :: rest =>
      (specialty_name <- _doctor_specialty doctor ;;
       if negb (truthy specialty_name) then filter_loop target rest matches
       else
         normalized <- _normalize_text specialty_name ;;
         if str_in target normalized
         then filter_loop target rest (matches ++ [doctor])
         else filter_loop target rest matches)%result
  end.

(** [filter_by_specialty(doctors, specialty)] *)
Definition filter_by_specialty (doctors : list json) (specialty : pystr)
  : prog (list json) :=
  (target <- lift (_normalize_text (JStr specialty)) ;;
   write None (str "Total doctors: "
               ++ str_of_int (Z.of_nat (List.length doctors))
               ++ [10%N]) ;;;
   lift (filter_loop target doctors []))%prog.

Definition timeout : Z := 30.

(** [_get_html(url)] *)
Definition _get_html (url : pystr) : prog pystr :=
  Http {| req_url := url; req_page := None; req_timeout := timeout |}
       (fun response =>
          match status_error response with
          | Some e => Raise e
          | None => Ret (text response)
          end).

(** [_parse_initial_payload(directory_url, html)] *)
Definition _parse_initial_payload (directory_url html : pystr)
  : result (json * pystr * json) :=
  (data <-
     match find_next_data html with
     | Some (Some data) =>
         if nonempty data then Ok data
         else Err (RuntimeError
                     (str "Could not locate __NEXT_DATA__ on the page."))
     | _ => Err (RuntimeError
                   (str "Could not locate __NEXT_DATA__ on the page."))
     end ;;
   next_payload <- json_loads data ;;
   build_id <- get next_payload (str "buildId") ;;
   if negb (truthy build_id)
   then Err (RuntimeError
               (str "Could not find buildId; site layout may have changed."))
   else
     path_part <- _data_path directory_url ;;
     props <- get_default next_payload (str "props") empty_dict ;;
     page_props <- get_default props (str "pageProps") empty_dict ;;
     directory_data <-
       get_default page_props (str "directoryDoctors") empty_dict ;;
     if negb (truthy directory_data)
     then Err (RuntimeError
                 (str "Directory data missing from initial payload."))
     else Ok (build_id, path_part, directory_data))%result.

(** The data-endpoint request of [_fetch_page]. *)
Definition page_request (parsed : ParseResult) (build_id : json)
  (path_part : pystr) (page : Z) : Request :=
  let data_path := str "/_next/data/" ++ py_str build_id ++ str "/"
                   ++ path_part ++ str ".json" in
  {| req_url := urlunparse (scheme parsed) (netloc parsed) data_path [] [] [];
     req_page := Some page;
     req_timeout := timeout |}.

(** [payload["pageProps"]["directoryDoctors"]["data"]] under
    [try ... except KeyError]. *)
Definition page_entries (payload : json) (page : Z) : result json :=
  match (page_props <- getitem payload (str "pageProps") ;;
         directory <- getitem page_props (str "directoryDoctors") ;;
         getitem directory (str "data"))%result with
  | Err (KeyError _) =>
      Err (RuntimeError (str "Unexpected response shape for page "
                         ++ str_of_int page))
  | r => r
  end.

(** [_fetch_page(directory_url, build_id, path_part, page)] *)
Definition _fetch_page (directory_url : pystr) (build_id : json)
  (path_part : pystr) (page : Z) : prog json :=
  (parsed <- lift (urlparse directory_url []) ;;
   Http (page_request parsed build_id path_part page)
        (fun response =>
           match status_error response with
           | Some e => Raise e
           | None => payload <- lift (json_result response) ;;
                     lift (page_entries payload page)
           end))%prog.

(** [yield from v] and the body of [for doctor in v: yield doctor] *)
Definition yield_from (v : json) : prog unit :=
  (items <- lift (iterate v) ;; for_each items yield)%prog.

(** [fetch_doctors(directory_url, max_pages)]: calling it builds the
    generator; nothing of the body has run yet. *)
Definition fetch_doctors (directory_url : pystr) (max_pages : option Z)
  : generator :=
  (if match max_pages with Some m => (m <? 1)%Z | None => false end
   then Raise (ValueError (str "max_pages must be at least 1"))
   else
     initial_html <- _get_html directory_url ;;
     '(build_id, path_part, first_page) <-
        lift (_parse_initial_payload directory_url initial_html) ;;
     total <- lift (get_default first_page (str "totalPages") (JInt 1)) ;;
     total_pages <- lift (py_int total) ;;
     data <- lift (get_default first_page (str "data") (JList [])) ;;
     yield_from data ;;;
     let pages_to_fetch :=
       match max_pages with
       | None => total_pages
       | Some m => Z.min total_pages m
       end in
     for_each (py_range 2 (pages_to_fetch + 1))
              (fun page =>
                 doctors <- _fetch_page directory_url build_id path_part page ;;
                 yield_from doctors))%prog.

End Scraper.
End MedicosDocScraper.

(** ** [csv.DictWriter] with the default (excel) dialect *)

Module Csv.
Section Csv.
Context {R : Runtime}.

(** The text of one cell: [None] is written as the empty string, a string
    as it is, anything else through [str]. *)
Definition cell_text (v : json) : pystr :=
  match v with
  | JNull => []
  | JStr s => s
  | _ => py_str v
  end.

(** The excel dialect: comma, double quote, CR LF. *)
Definition delimiter : N := 44.
Definition quotechar : N := 34.
Definition lineterminator : pystr := [13; 10]%N.

(** [QUOTE_MINIMAL]: a field is quoted when it holds the delimiter, the
    quote character or a character of the line terminator. *)
Definition needs_quotes (s : pystr) : bool :=
  existsb (fun c => N.eqb c delimiter || N.eqb c quotechar
                    || char_in c lineterminator) s.

Definition quote_field (s : pystr) : pystr :=
  if needs_quotes s
  then [quotechar]
       ++ flat_map (fun c => if N.eqb c quotechar then [c; c] else [c]) s
       ++ [quotechar]
  else s.

(** The line [writer.writerow] sends to the stream, for two cells or
    more. *)
Definition format_row (cells : list pystr) : pystr :=
  join [delimiter] (map quote_field cells) ++ lineterminator.

(** [DictWriter._dict_to_list(rowdict)] with [extrasaction="raise"] and
    the empty [restval].  The message goes on to list the offending keys
    of the row; that tail is not modelled. *)
Definition _dict_to_list (fieldnames : list pystr) (rowdict : json)
  : result (list json) :=
  match rowdict with
  | JObj d =>
      if existsb (fun k => negb (Url.mem k fieldnames)) (map fst d)
      then Err (ValueError (str "dict contains fields not in fieldnames: "))
      else Ok (map (fun key => match lookup key d with
                               | Some v => v
                               | None => JStr []
                               end) fieldnames)
  | _ => Err (no_attribute rowdict "keys")
  end.

(** The cells of the row written for [rowdict]. *)
Definition row_cells (fieldnames : list pystr) (rowdict : json)
  : result (list pystr) :=
  (values <- _dict_to_list fieldnames rowdict ;;
   Ok (map cell_text values))%result.

(** [DictWriter.writerow(rowdict)] on the stream [dest] *)
Definition writerow (dest : option pystr) (fieldnames : list pystr)
  (rowdict : json) : prog unit :=
  (cells <- lift (row_cells fieldnames rowdict) ;;
   write dest (format_row cells))%prog.

(** [DictWriter.writeheader()] *)
Definition writeheader (dest : option pystr) (fieldnames : list pystr)
  : prog unit :=
  writerow dest fieldnames (JObj (map (fun f => (f, JStr f)) fieldnames)).

(** [DictWriter.writerows(rowdicts)]: the rows are converted one at a
    time, so the rows before a bad one have been written. *)
Definition writerows (dest : option pystr) (fieldnames : list pystr)
  (rowdicts : list json) : prog unit :=
  for_each rowdicts (writerow dest fieldnames).

End Csv.
End Csv.

(** ** [write_output] *)

Section Writer.
Context {R : Runtime}.

Definition fieldnames : list pystr :=
  map str ["id"; "name"; "specialty"; "city"; "address"; "medical_center";
           "office"; "highlighted_services"; "consult_value"; "premium";
           "rating_average"; "rating_count"; "photo_url"]%string.

(** [if destination:] *)
Definition given (destination : option pystr) : option pystr :=
  match destination with
  | Some path => if Url.nonempty path then Some path else None
  | None => None
  end.

(** [write_output(records, output_format, destination)].  Opening the
    destination is taken to succeed.  The JSON branch writes its file
    inside [with], which closes it also when the write raises; the CSV
    branch closes its file after the last row, so not when a row raises. *)
Definition write_output (records : list json) (output_format : pystr)
  (destination : option pystr) : prog unit :=
  (if str_eqb output_format (str "json") then
     let output := json_dumps (JList records) in
     match given destination with
     | Some path =>
         Out (EvOpen path)
             match encode utf_8 (translated output) with
             | Some e => Out (EvClose path) (Raise e)
             | None => Out (EvWrite (Some path) output)
                           (Out (EvClose path) (Ret tt))
             end
     | None => write None (output ++ [10%N])
     end
   else
     match given destination with
     | Some path =>
         Out (EvOpen path) (Ret tt) ;;;
         Csv.writeheader (Some path) fieldnames ;;;
         Csv.writerows (Some path) fieldnames records ;;;
         Out (EvClose path) (Ret tt)
     | None =>
         Csv.writeheader None fieldnames ;;;
         Csv.writerows None fieldnames records
     end)%prog.

(** The text a run has written to [dest]. *)
Definition written (dest : option pystr) (t : list event) : pystr :=
  flat_map (fun ev =>
              match ev with
              | EvWrite d txt =>
                  match d, dest with
                  | None, None => txt
                  | Some a, Some b => if str_eqb a b then txt else []
                  | _, _ => []
                  end
              | _ => []
              end) t.

End Writer.

(** ** The entry points: [main] and [run_specialties] *)

(** [list(g)] as a step of a program: the body of the generator runs to
    its end, its requests happen, and what it yields is gathered. *)
Fixpoint collect (g : generator) : prog (list json) :=
  match g with
  | Ret _ => Ret []
  | Raise e => Raise e
  | Out (EvYield v) k => bind (collect k) (fun vs => Ret (v :: vs))
  | Out ev k => Out ev (collect k)
  | Http rq k => Http rq (fun resp => collect (k resp))
  end.

(** The list comprehension [[f(x) for x in xs]]: the first call that
    raises ends it. *)
Fixpoint comprehension {X Y} (f : X -> result Y) (xs : list X)
  : result (list Y) :=
  match xs with
  | [] => Ok []
  | x :: xs' =>
      (y <- f x ;; ys <- comprehension f xs' ;; Ok (y :: ys))%result
  end.

(** The namespace [parser.parse_args(argv)] returns. *)
Record Namespace : Type := {
  arg_url : pystr;
  arg_specialty : pystr;
  arg_output_format : pystr;
  arg_output_path : option pystr;
  arg_max_pages : option Z
}.

(** [d[k] = v] on the items of a dict: a key that is there keeps its
    place. *)
Fixpoint setitem {V} (k : pystr) (v : V) (d : list (pystr * V))
  : list (pystr * V) :=
  match d with
  | [] => [(k, v)]
  | (k', v') :: d' =>
      if str_eqb k k' then (k', v) :: d' else (k', v') :: setitem k v d'
  end.

(** What [run_specialties] asks of [pathlib]. *)
Record FileSystem : Type := {
  (** [Path(dir).mkdir(parents=True, exist_ok=True)]: [None] when it
      returns, otherwise the error it raises *)
  mkdir : pystr -> option exn;
  (** [str(Path(dir) / name)] *)
  joinpath : pystr -> pystr -> pystr
}.

(** The steps of a batch run: the events of the scraper, and the creation
    of the output directory. *)
Inductive action : Type :=
| Mkdir (dir : pystr)
| Did (ev : event).

(** A program run as part of a batch: its events become steps. *)
Definition perform {A} (w : world) (p : prog A) : list action * result A :=
  let '(t, r) := run w p in (map Did t, r).

(** Sequencing of batch steps: the second runs when the first returns. *)
Definition and_then {A B} (first : list action * result A)
  (k : A -> list action * result B) : list action * result B :=
  let '(t, r) := first in
  match r with
  | Ok a => let '(t', r') := k a in (t ++ t', r')
  | Err e => (t, Err e)
  end.

Section EntryPoints.
Context {R : Runtime}.
Import Url MedicosDocScraper.

(** [main(argv)] once [parser.parse_args(argv)] has returned [args]; the
    reading of the command line is argparse's. *)
Definition main (args : Namespace) : prog unit :=
  (doctors <- collect (fetch_doctors (arg_url args) (arg_max_pages args)) ;;
   filtered <- filter_by_specialty doctors (arg_specialty args) ;;
   records <- lift (comprehension (fun doc => to_record doc (arg_url args))
                                  filtered) ;;
   write_output (map JObj records) (arg_output_format args)
                (arg_output_path args))%prog.

(** [_slugify(urlparse(url).path.rsplit("/", 1)[-1] or "directory")] *)
Definition url_slug (url : pystr) : result pystr :=
  (parsed <- urlparse url [] ;;
   let last_part := rpartition_tail (ord "/") (path parsed) in
   _slugify (JStr (if nonempty last_part then last_part
                   else str "directory")))%result.

(** The destination of one specialty: none without an output directory. *)
Definition destination_of (fs : FileSystem) (output_path : option pystr)
  (url_slug output_format specialty : pystr) : result (option pystr) :=
  match output_path with
  | Some dir =>
      (slug <- _slugify (JStr specialty) ;;
       Ok (Some (joinpath fs dir (url_slug ++ str "-" ++ slug ++ str "."
                                  ++ output_format))))%result
  | None => Ok None
  end.

(** The loop of [run_specialties] over the specialties that are left. *)
Fixpoint specialties_loop (fs : FileSystem) (url : pystr)
  (doctors : list json) (output_path : option pystr)
  (url_slug output_format : pystr) (specialties : list pystr)
  (records_by_specialty : list (pystr * list pydict))
  : prog (list (pystr * list pydict)) :=
  match specialties with
  | [] => Ret records_by_specialty
  | specialty :: rest =>
      (filtered <- filter_by_specialty doctors specialty ;;
       records <- lift (comprehension (fun doc => to_record doc url)
                                      filtered) ;;
       let records_by_specialty :=
         setitem specialty records records_by_specialty in
       destination <- lift (destination_of fs output_path url_slug
                                           output_format specialty) ;;
       write_output (map JObj records) output_format destination ;;;
       specialties_loop fs url doctors output_path url_slug output_format
                        rest records_by_specialty)%prog
  end.

(** [run_specialties(url, specialties, output_dir, output_format,
    max_pages)] against the origin [w] and the file system [fs]: the steps
    it takes, and the mapping it returns or the error it ends with. *)
Definition run_specialties (w : world) (fs : FileSystem) (url : pystr)
  (specialties : list pystr) (output_dir : option pystr)
  (output_format : pystr) (max_pages : option Z)
  : list action * result (list (pystr * list pydict)) :=
  and_then (perform w (collect (fetch_doctors url max_pages)))
    (fun doctors =>
       let output_path := given output_dir in
       and_then
         (match output_path with
          | Some dir => ([Mkdir dir],
                         match mkdir fs dir with
                         | Some e => Err e
                         | None => Ok tt
                         end)
          | None => ([], Ok tt)
          end)
         (fun _ =>
            perform w
              (slug <- lift (url_slug url) ;;
               specialties_loop fs url doctors output_path slug
                                output_format specialties [])%prog)).

End EntryPoints.

(** ** [run_from_config._validate_directories] *)

(** [k in v] for a string [k] *)
Definition contains (v : json) (k : pystr) : result bool :=
  match v with
  | JObj d => Ok (match lookup k d with Some _ => true | None => false end)
  | JList items =>
      Ok (existsb (fun x => match x with
                            | JStr s => str_eqb s k
                            | _ => false
                            end) items)
  | JStr s => Ok (str_in k s)
  | _ => Err (TypeError (str "argument of type '" ++ type_name v
                         ++ str "' is not iterable"))
  end.

(** [isinstance(v, list)] *)
Definition is_list (v : json) : bool :=
  match v with JList _ => true | _ => false end.

(** The loop of [_validate_directories] over the entries that are left. *)
Fixpoint validate_loop (entries : list json) : result unit :=
  match entries with
  | [] => Ok tt
  | entry :: rest =>
      (has_url <- contains entry (str "url") ;;
       if negb has_url
       then Err (ValueError
                   (str "Each directory entry must include a 'url'."))
       else
         has_specialties <- contains entry (str "specialties") ;;
         no_list <-
           (if negb has_specialties then Ok true
            else specialties <- getitem entry (str "specialties") ;;
                 Ok (negb (is_list specialties))) ;;
         if no_list
         then Err (ValueError
                     (str "Each directory entry must include a 'specialties' list."))
         else validate_loop rest)%result
  end.

(** [_validate_directories(entries)] *)
Definition _validate_directories (entries : json) : result unit :=
  (items <- iterate entries ;; validate_loop items)%result.

(** ** A concrete runtime for examples

    [nfkd_sample] decomposes the accented Latin letters of its table and
    leaves every other character alone; the other operations answer for
    the documents the examples use. *)

Definition decomposition_table : list (N * pystr) :=
  [ (193, [65; 769]); (201, [69; 769]); (205, [73; 769]); (211, [79; 769]);
    (218, [85; 769]); (209, [78; 771]); (220, [85; 776]);
    (225, [97; 769]); (233, [101; 769]); (237, [105; 769]);
    (243, [111; 769]); (250, [117; 769]); (241, [110; 771]);
    (252, [117; 776]); (8482, [84; 77]) ]%N.

Definition decompose (c : N) : pystr :=
  match find (fun entry => N.eqb (fst entry) c) decomposition_table with
  | Some (_, d) => d
  | None => [c]
  end.

Definition nfkd_sample (s : pystr) : pystr := flat_map decompose s.

Definition sample_runtime (page_html : pystr) (document : json) : Runtime :=
  {| normalize_NFKD := nfkd_sample;
     normalize_NFKC := fun s => s;
     check_bracketed_host := fun _ => None;
     int_of_str := fun _ => Err (ValueError (str "invalid literal for int()"));
     repr_value := fun _ => str "?";
     json_loads := fun s => if str_eqb s page_html then Ok document
                            else Err (LibraryError (str "JSONDecodeError"));
     json_dumps := fun _ => str "[]";
     find_next_data := fun html => if str_eqb html page_html
                                   then Some (Some html) else None;
     stdout_codec := utf_8;
     linesep := [10%N] |}.

(** ** Vocabulary of the statements *)

(** What [lstrip] returns does not start with a character it strips. *)
Definition clean_head (p : N -> bool) (s : pystr) : Prop :=
  match s with
  | [] => True
  | c :: _ => p c = false
  end.

(** Sequencing of outcomes: the second part runs when the first returns. *)
Definition then_run {A B} (first : list event * result A)
  (k : A -> list event * result B) : list event * result B :=
  let '(t, r) := first in
  match r with
  | Ok a => let '(t', r') := k a in (t ++ t', r')
  | Err e => (t, Err e)
  end.

Section PagerVocabulary.
Context {R : Runtime}.
Import Url MedicosDocScraper.

(** The request [_get_html] sends for the directory page. *)
Definition initial_request (directory_url : pystr) : Request :=
  {| req_url := directory_url; req_page := None; req_timeout := timeout |}.

(** The entries on the first page, as [yield from] walks them. *)
Definition first_entries (first_page : json) : result (list json) :=
  (data <- get_default first_page (str "data") (JList []) ;;
   iterate data)%result.

(** [max_pages] passes the guard of [fetch_doctors]. *)
Definition valid_max_pages (max_pages : option Z) : Prop :=
  match max_pages with
  | Some m => (1 <= m)%Z
  | None => True
  end.

(** The last page [fetch_doctors] asks for. *)
Definition page_limit (total_pages : Z) (max_pages : option Z) : Z :=
  match max_pages with
  | None => total_pages
  | Some m => Z.min total_pages m
  end.

(** The data endpoint answers the request for [page] with a payload that
    holds the list [entries] under pageProps, directoryDoctors, data. *)
Definition page_serves (w : world) (parsed : ParseResult) (build_id : json)
  (path_part : pystr) (page : Z) (entries : list json) : Prop :=
  exists response payload page_props directory,
    w (page_request parsed build_id path_part page) = Ok response /\
    status_error response = None /\
    json_result response = Ok payload /\
    getitem payload (str "pageProps") = Ok page_props /\
    getitem page_props (str "directoryDoctors") = Ok directory /\
    getitem directory (str "data") = Ok (JList entries).

(** What fetching one page adds to the trace. *)
Definition page_events (parsed : ParseResult) (build_id : json)
  (path_part : pystr) (entries : Z -> list json) (page : Z) : list event :=
  EvGet (page_request parsed build_id path_part page)
  :: map EvYield (entries page).

(** A dict on the way to pageProps, directoryDoctors, data lacks its key. *)
Definition lacks_expected_key (payload : json) : Prop :=
  exists d,
    payload = JObj d /\
    (lookup (str "pageProps") d = None \/
     exists d1,
       lookup (str "pageProps") d = Some (JObj d1) /\
       (lookup (str "directoryDoctors") d1 = None \/
        exists d2,
          lookup (str "directoryDoctors") d1 = Some (JObj d2) /\
          lookup (str "data") d2 = None)).

(** The claim's reading of the same: the response does not hold the nested
    keys, whatever stands in their place. *)
Definition path_value (payload : json) : option json :=
  match payload with
  | JObj d =>
      match lookup (str "pageProps") d with
      | Some (JObj d1) =>
          match lookup (str "directoryDoctors") d1 with
          | Some (JObj d2) => lookup (str "data") d2
          | _ => None
          end
      | _ => None
      end
  | _ => None
  end.

End PagerVocabulary.

(** ** The entries of the data model

    A raw entry is a mapping; each optional field is absent (missing, null
    or otherwise falsy) or has the shape the data model gives it. *)

(** The field [k] of [v], null when [v] has none. *)
Definition field (v : json) (k : pystr) : json :=
  match v with
  | JObj d => match lookup k d with Some x => x | None => JNull end
  | _ => JNull
  end.

Definition is_dict (v : json) : bool :=
  match v with JObj _ => true | _ => false end.

Definition is_text (v : json) : bool :=
  match v with JStr _ => true | _ => false end.

Definition optional_dict (v : json) : bool := negb (truthy v) || is_dict v.

Definition optional_text (v : json) : bool := negb (truthy v) || is_text v.

(** A non-empty text. *)
Definition text_of (v : json) : option pystr :=
  match v with
  | JStr (c :: s) => Some (c :: s)
  | _ => None
  end.

Section FilterVocabulary.
Context {R : Runtime}.

(** The nested category descriptor of an entry. *)
Definition category_descriptor (doctor : json) : json :=
  field (field doctor (str "SubSpecialties")) (str "Specialty").

(** The shape [_doctor_specialty] relies on. *)
Definition category_shaped (doctor : json) : bool :=
  is_dict doctor
  && optional_dict (field doctor (str "SubSpecialties"))
  && optional_dict (category_descriptor doctor)
  && (let english :=
        field (category_descriptor doctor) (str "SpecialityNameEnglish") in
      optional_text english
      && (truthy english
          || optional_text (field (category_descriptor doctor)
                                  (str "SpecialityName")))).

(** The category name in the words of the specification: the English
    variant when the entry has one, else the localized one; an entry with
    neither has no category name. *)
Definition category_name (doctor : json) : option pystr :=
  match text_of (field (category_descriptor doctor)
                       (str "SpecialityNameEnglish")) with
  | Some english => Some english
  | None => text_of (field (category_descriptor doctor) (str "SpecialityName"))
  end.

(** The entry has a category name whose normal form contains the normal
    form of the target. *)
Definition matches_specialty (specialty : pystr) (doctor : json) : bool :=
  match category_name doctor with
  | Some name => str_in (normalize_str specialty) (normalize_str name)
  | None => false
  end.

(** The filter of the specification. *)
Definition matching_entries (doctors : list json) (specialty : pystr)
  : list json :=
  filter (matches_specialty specialty) doctors.

(** The diagnostic line [filter_by_specialty] prints. *)
Definition total_line (doctors : list json) : event :=
  EvWrite None (str "Total doctors: "
                ++ str_of_int (Z.of_nat (List.length doctors)) ++ [10%N]).

End FilterVocabulary.

(** ** URLs in serialised form *)

Section UrlVocabulary.
Context {R : Runtime}.
Import Url.

(** Not one of the characters [urlsplit] removes from a URL. *)
Definition safe_char (c : N) : bool :=
  negb (char_in c _UNSAFE_URL_BYTES_TO_REMOVE).

(** A scheme as [urlsplit] finds it: it starts with a letter, holds scheme
    characters only and is in lower case. *)
Definition scheme_wf (s : pystr) : Prop :=
  ascii_alpha (hd 0%N s) = true /\
  forallb (fun c => char_in c scheme_chars) s = true /\
  lower s = s.

(** A netloc as [urlsplit] accepts it: it stops before the first slash,
    question mark or hash, and it passes the checks. *)
Definition authority_ok (n : pystr) : Prop :=
  forallb (fun c => safe_char c && negb (char_in c (str "/?#"))) n = true /\
  check_brackets n = Ok tt /\
  _checknetloc n = Ok tt.

(** A character of a path that carries no query, fragment or parameters. *)
Definition path_char (c : N) : bool :=
  safe_char c && negb (char_in c (str "?#;")).

(** A path that starts with one slash and holds path characters only. *)
Definition path_ok (p : pystr) : Prop :=
  exists rest,
    p = ord "/" :: rest /\
    hd 0%N rest <> ord "/" /\
    forallb path_char rest = true.

(** A segment to be appended as it is: not empty, no slash, not a dot
    segment. *)
Definition plain_segment (seg : pystr) : Prop :=
  seg <> [] /\
  forallb (fun c => path_char c && negb (N.eqb (ord "/") c)) seg = true /\
  seg <> str "." /\ seg <> str "..".


(** The text [urlunsplit] builds from a scheme, a netloc and a path that
    starts with a single slash. *)
Definition authority_text (s n : pystr) : pystr :=
  if nonempty n || nonempty s && mem s uses_netloc then str "//" ++ n else [].

Definition serialised (s n p : pystr) : pystr :=
  (if nonempty s then s ++ str ":" else []) ++ authority_text s n ++ p.


(** *** Relative references *)














End UrlVocabulary.

(** What a scheme character is not, and its lower-case form. *)
Definition scheme_char_fact (c : N) : bool :=
  negb (Url.c0_control_or_space c) && safe_char c
  && negb (N.eqb (ord ":") c) && negb (N.eqb (ord "/") c)
  && char_in (lower_char c) Url.scheme_chars.

(** One step of the search for the end of the netloc. *)
Definition min_opt (delim : nat) (found : option nat) : nat :=
  match found with
  | Some wdelim => Nat.min delim wdelim
  | None => delim
  end.

Section MapperVocabulary.
Context {R : Runtime}.

Definition falsy (v : json) : Prop := truthy v = false.

Definition headquarters (doctor : json) : json :=
  field doctor (str "Headquarters").

Definition ratings_summary (doctor : json) : json :=
  field doctor (str "RatingsSummary").

(** The shape [to_record] relies on: the nested descriptors are absent or
    mappings, the two names absent or text. *)
Definition record_shaped (doctor : json) : bool :=
  is_dict doctor
  && optional_dict (headquarters doctor)
  && optional_dict (field (headquarters doctor) (str "CityId"))
  && optional_dict (field doctor (str "SubSpecialties"))
  && optional_dict (category_descriptor doctor)
  && optional_text (field doctor (str "Name"))
  && optional_text (field doctor (str "LastName"))
  && optional_dict (ratings_summary doctor).

Definition text_or_empty (v : json) : pystr :=
  match v with
  | JStr s => s
  | _ => []
  end.

(** The name of the record: the trimmed given name, a space, the trimmed
    family name, trimmed again. *)
Definition full_name (doctor : json) : pystr :=
  strip (strip (text_or_empty (field doctor (str "Name")))
         ++ str " "
         ++ strip (text_or_empty (field doctor (str "LastName")))).

(** The record of the specification's mapper, for a given root URL and
    resolved photo URL. *)
Definition normalized_record (doctor : json) (photo_url : pystr) : pydict :=
  let head := headquarters doctor in
  let descriptor := category_descriptor doctor in
  [ (str "id", py_or (field doctor (str "ShortId")) (field doctor (str "_id")));
    (str "name", JStr (full_name doctor));
    (str "specialty",
     py_or (field descriptor (str "SpecialityNameEnglish"))
           (py_or (field descriptor (str "SpecialityName")) (JStr [])));
    (str "city", field (field head (str "CityId")) (str "Name"));
    (str "address", field head (str "Address"));
    (str "medical_center", field head (str "MedicalCenter"));
    (str "office", field head (str "Office"));
    (str "highlighted_services",
     py_or (field doctor (str "HighlightedServicesEnglish"))
           (field doctor (str "HighlightedServices")));
    (str "consult_value", field doctor (str "ConsultValue"));
    (str "premium", JBool (truthy (field doctor (str "Premium"))));
    (str "rating_average",
     field (ratings_summary doctor) (str "averageRating"));
    (str "rating_count",
     field (ratings_summary doctor) (str "numberOfRatings"));
    (str "photo_url", JStr photo_url) ].

End MapperVocabulary.

Section WriterVocabulary.
Context {R : Runtime}.

(** A normalized record: a dict with the thirteen fields, in their order,
    whatever their values. *)
Definition is_normalized_record (record : json) : Prop :=
  exists d, record = JObj d /\ map fst d = fieldnames.

(** The cells of the row of one record. *)
Definition record_cells (record : json) : list pystr :=
  map (fun key => Csv.cell_text (field record key)) fieldnames.

(** The table the CSV output holds: the header, then one row per record. *)
Definition csv_table (records : list json) : list (list pystr) :=
  fieldnames :: map record_cells records.

(** The stream to [dest] takes the text: its encoding has every character
    of it. *)
Definition stream_takes (dest : option pystr) (txt : pystr) : bool :=
  forallb (encodable (codec_of dest)) txt.

(** It takes the text of every cell of the record's row. *)
Definition row_taken (dest : option pystr) (record : json) : bool :=
  forallb (stream_takes dest) (record_cells record).

(** The events of writing a table to [destination]. *)
Definition csv_events (destination : option pystr)
  (table : list (list pystr)) : list event :=
  match given destination with
  | Some path =>
      EvOpen path
      :: map (fun row => EvWrite (Some path) (Csv.format_row row)) table
      ++ [EvClose path]
  | None => map (fun row => EvWrite None (Csv.format_row row)) table
  end.

End WriterVocabulary.

(** *** Reading CSV text

    The reading side of the dialect (RFC 4180, as [csv.reader] applies it):
    how a consumer splits the written text back into rows and cells. *)

Module CsvReader.

Inductive mode : Type :=
| RowStart          (* nothing read of the row yet *)
| AfterCR           (* a row has just ended with a carriage return *)
| FieldStart        (* a delimiter has just been read *)
| Unquoted          (* inside a bare field *)
| Quoted            (* inside a quoted field *)
| QuoteSeen.        (* a quote inside a quoted field: its end, or a pair *)

Definition CR : N := 13.
Definition LF : N := 10.

(** [read m row cur text]: the rows of [text], read in mode [m] with the
    cells [row] of the current row and the characters [cur] of the current
    cell already taken (both latest first). *)
Fixpoint read (m : mode) (row : list pystr) (cur : pystr) (text : pystr)
  : list (list pystr) :=
  let end_cell := rev cur :: row in
  match text with
  | [] =>
      match m with
      | RowStart | AfterCR => []
      | _ => [rev end_cell]
      end
  | c :: rest =>
      match m with
      | RowStart | AfterCR | FieldStart =>
          if match m with AfterCR => N.eqb c LF | _ => false end
          then read RowStart [] [] rest
          else if N.eqb c CR then
            match m with
            | FieldStart => rev end_cell :: read AfterCR [] [] rest
            | _ => [] :: read AfterCR [] [] rest
            end
          else if N.eqb c LF then
            match m with
            | FieldStart => rev end_cell :: read RowStart [] [] rest
            | _ => [] :: read RowStart [] [] rest
            end
          else if N.eqb c Csv.quotechar then read Quoted row [] rest
          else if N.eqb c Csv.delimiter then read FieldStart end_cell [] rest
          else read Unquoted row [c] rest
      | Unquoted =>
          if N.eqb c Csv.delimiter then read FieldStart end_cell [] rest
          else if N.eqb c CR then rev end_cell :: read AfterCR [] [] rest
          else if N.eqb c LF then rev end_cell :: read RowStart [] [] rest
          else read Unquoted row (c :: cur) rest
      | Quoted =>
          if N.eqb c Csv.quotechar then read QuoteSeen row cur rest
          else read Quoted row (c :: cur) rest
      | QuoteSeen =>
          if N.eqb c Csv.quotechar then read Quoted row (c :: cur) rest
          else if N.eqb c Csv.delimiter then read FieldStart end_cell [] rest
          else if N.eqb c CR then rev end_cell :: read AfterCR [] [] rest
          else if N.eqb c LF then rev end_cell :: read RowStart [] [] rest
          else read Unquoted row (c :: cur) rest
      end
  end.

(** The body of a quoted field: every quote written twice. *)
Definition doubled (s : pystr) : pystr :=
  flat_map (fun c => if N.eqb c Csv.quotechar then [c; c] else [c]) s.

(** The rows of a CSV text. *)
Definition rows (text : pystr) : list (list pystr) := read RowStart [] [] text.

End CsvReader.

(** ** A canned origin for examples *)

Definition sample_url : pystr := str "https://example.com/en/dir".

Definition sample_html : pystr := str "<html>directory</html>".

Definition sample_doctor (name specialty : string) : json :=
  JObj [ (str "Name", JStr (str name));
         (str "SubSpecialties",
          JObj [ (str "Specialty",
                  JObj [ (str "SpecialityNameEnglish",
                          JStr (str specialty)) ]) ]) ].

Definition first_page_doctors : list json :=
  [sample_doctor "Ana" "Gynecologist"; sample_doctor "Luis" "Cardiologist"].

Definition second_page_doctors : list json :=
  [sample_doctor "Eva" "Pediatrician"].

Definition third_page_doctors : list json :=
  [sample_doctor "Juan" "Dermatologist"].

(** The embedded document; [pagination] holds the totalPages item or
    nothing. *)
Definition sample_document (pagination : pydict) : json :=
  JObj [ (str "buildId", JStr (str "B1"));
         (str "props",
          JObj [ (str "pageProps",
                  JObj [ (str "directoryDoctors",
                          JObj ((str "data", JList first_page_doctors)
                                :: pagination)) ]) ]) ].

Definition page_payload (entries : json) : json :=
  JObj [ (str "pageProps",
          JObj [ (str "directoryDoctors", JObj [ (str "data", entries) ]) ]) ].

Definition json_response (payload : json) : Response :=
  {| status_error := None; text := []; json_result := Ok payload |}.

Definition html_response (html : pystr) : Response :=
  {| status_error := None; text := html;
     json_result := Err (LibraryError (str "JSONDecodeError")) |}.

(** An origin with three pages. *)
Definition sample_world : world :=
  fun rq =>
    if str_eqb (req_url rq) sample_url then
      match req_page rq with
      | None => Ok (html_response sample_html)
      | Some _ => Err (LibraryError (str "HTTPError"))
      end
    else if str_eqb (req_url rq)
                    (str "https://example.com/_next/data/B1/en/dir.json")
    then
      match req_page rq with
      | Some 2%Z => Ok (json_response (page_payload (JList second_page_doctors)))
      | Some 3%Z => Ok (json_response (page_payload (JList third_page_doctors)))
      | _ => Err (LibraryError (str "HTTPError"))
      end
    else Err (LibraryError (str "ConnectionError")).

(** An origin that answers every request with the same JSON payload. *)
Definition constant_world (payload : json) : world :=
  fun _ => Ok (json_response payload).

Definition sample_pages (page : Z) : list json :=
  if (page =? 2)%Z then second_page_doctors
  else if (page =? 3)%Z then third_page_doctors
  else [].

(** The runtime of an origin whose directory page embeds a document that
    reports three pages, and of one whose document reports no count. *)
Definition paged_runtime : Runtime :=
  sample_runtime sample_html (sample_document [(str "totalPages", JInt 3)]).

Definition unpaged_runtime : Runtime :=
  sample_runtime sample_html (sample_document []).

Definition sample_parsed : Url.ParseResult :=
  {| Url.scheme := str "https"; Url.netloc := str "example.com";
     Url.path := str "/en/dir"; Url.params := []; Url.query := [];
     Url.fragment := [] |}.

Definition mixed_doctors : list json :=
  [ sample_doctor "Ana" "Gynecologist";
    sample_doctor "Luis" "Cardiologist";
    JObj [ (str "Name", JStr (str "Nadie")) ];
    sample_doctor "Rosa" "Obstetrician-Gynecologist" ].

(** GYNECOLOG, in capitals and with an acute accent on its first E. *)
Definition accented_target : pystr := str "GYN" ++ [201%N] ++ str "COLOG".

Definition full_doctor : json :=
  JObj [ (str "ShortId", JStr (str "d-17"));
         (str "Name", JStr (str " Ana "));
         (str "LastName", JStr (str "Mora"));
         (str "Headquarters",
          JObj [ (str "CityId", JObj [ (str "Name", JStr (str "Cali")) ]);
                 (str "Address", JStr (str "Calle 5")) ]);
         (str "Premium", JBool true);
         (str "Photos", JStr (str "/img/x.jpg")) ].

(** Another directory URL, with a port and a query. *)
Definition other_url : pystr := str "http://other.org:8080/dir/?page=2".

(** An entry with a photo path and nothing else. *)
Definition photo_doctor (photo : pystr) : json :=
  JObj [ (str "Photos", JStr photo) ].

(** An entry whose fee is an unpaired surrogate, as [json.loads] builds it
    from the six characters of its escape. *)
Definition surrogate_doctor : json :=
  JObj [ (str "ConsultValue", JStr [55296%N]) ].

(** ** Vocabulary of the further properties *)

(** A character a slug is made of: ASCII, no white space, no capital. *)
Definition slug_char (c : N) : bool :=
  is_ascii c && negb (isspace c) && N.eqb (lower_char c) c.

Section PayloadVocabulary.
Context {R : Runtime}.

(** The text of the embedded-data tag of a page, when the page has the tag
    and the tag a non-empty text. *)
Definition next_data_text (html : pystr) : option pystr :=
  match find_next_data html with
  | Some (Some data) => if Url.nonempty data then Some data else None
  | _ => None
  end.

(** The first-page data of an embedded document. *)
Definition embedded_directory (document : json) : json :=
  field (field (field document (str "props")) (str "pageProps"))
        (str "directoryDoctors").

(** On the way to props, pageProps, directoryDoctors a mapping lacks its
    key, or the value at the end is empty. *)
Definition directory_data_missing (document : json) : bool :=
  match document with
  | JObj d =>
      match lookup (str "props") d with
      | None => true
      | Some (JObj d1) =>
          match lookup (str "pageProps") d1 with
          | None => true
          | Some (JObj d2) =>
              match lookup (str "directoryDoctors") d2 with
              | None => true
              | Some v => negb (truthy v)
              end
          | Some _ => false
          end
      | Some _ => false
      end
  | _ => false
  end.

End PayloadVocabulary.

(** Every step a program can take is allowed: what it sends out, and the
    requests it makes, as [run] records them. *)
Fixpoint obeys {A} (allowed : event -> Prop) (p : prog A) : Prop :=
  match p with
  | Ret _ | Raise _ => True
  | Out ev k => allowed ev /\ obeys allowed k
  | Http rq k =>
      allowed (EvGet rq) /\ forall response, obeys allowed (k response)
  end.

Section PagerEvents.
Context {R : Runtime}.
Import Url MedicosDocScraper.

(** What the directory request gives: the text of the page, or what
    [session.get] or [raise_for_status] raises. *)
Definition directory_page (w : world) (url : pystr) : result pystr :=
  match w (initial_request url) with
  | Ok response =>
      match status_error response with
      | Some e => Err e
      | None => Ok (text response)
      end
  | Err e => Err e
  end.

(** The request does not come back, or comes back with an error status. *)
Definition page_fails (w : world) (rq : Request) (e : exn) : Prop :=
  w rq = Err e \/
  exists response, w rq = Ok response /\ status_error response = Some e.

(** The request for a page of the data endpoint at [data_url]. *)
Definition data_request (data_url : pystr) (page : Z) : Request :=
  {| req_url := data_url; req_page := Some page; req_timeout := timeout |}.

(** The resource path of a directory URL, from the path of the URL: the
    leading slashes and one trailing slash are left out, and index stands
    for an empty path. *)
Definition resource_path (p : pystr) : pystr :=
  let inner := lstrip_by (N.eqb (ord "/")) p in
  let inner := if N.eqb (last inner 0%N) (ord "/") then removelast inner
               else inner in
  if nonempty inner then inner else str "index".

(** The URL of the data endpoint of a directory: the scheme and the netloc
    of the directory URL, then /_next/data/, the build id, a slash, the
    resource path and .json. *)
Definition data_endpoint (parsed : ParseResult) (build_id : pystr) : pystr :=
  serialised (scheme parsed) (netloc parsed)
             (str "/_next/data/" ++ build_id ++ str "/"
              ++ resource_path (path parsed) ++ str ".json").

(** The origin answers the request with a payload that holds the list
    [entries] under pageProps, directoryDoctors, data. *)
Definition serves (w : world) (rq : Request) (entries : list json) : Prop :=
  exists response payload,
    w rq = Ok response /\
    status_error response = None /\
    json_result response = Ok payload /\
    path_value payload = Some (JList entries).

(** What the fetch of one page adds to the trace: the request to the data
    endpoint, then the entries of the page. *)
Definition endpoint_events (endpoint : pystr) (entries : Z -> list json)
  (page : Z) : list event :=
  EvGet (data_request endpoint page) :: map EvYield (entries page).

(** The steps of the pager: a yield, the directory request, or the request
    for a page from 2 up to the limit; every request with the time-out. *)
Definition pager_event (url : pystr) (max_pages : option Z) (ev : event)
  : Prop :=
  match ev with
  | EvYield _ => True
  | EvGet rq =>
      req_timeout rq = timeout /\
      match req_page rq with
      | None => req_url rq = url
      | Some page =>
          (2 <= page)%Z /\
          match max_pages with
          | Some m => (page <= m)%Z
          | None => True
          end
      end
  | _ => False
  end.

End PagerEvents.

(** The entry has a category name. *)
Definition has_category_name (doctor : json) : bool :=
  match category_name doctor with
  | Some _ => true
  | None => false
  end.

Section WriterFailureVocabulary.
Context {R : Runtime}.

(** The row has a key that is not a field name. *)
Definition has_unexpected_field (row : pydict) : bool :=
  existsb (fun k => negb (Url.mem k fieldnames)) (map fst row).

(** The events of a CSV table that was begun and not finished: the
    destination opened, the lines written so far. *)
Definition unfinished_csv_events (destination : option pystr)
  (table : list (list pystr)) : list event :=
  match given destination with
  | Some path =>
      EvOpen path
      :: map (fun row => EvWrite (Some path) (Csv.format_row row)) table
  | None => map (fun row => EvWrite None (Csv.format_row row)) table
  end.

End WriterFailureVocabulary.

(** A trace without its yields: what is left of the run of a generator
    once [list] has taken what it yielded. *)
Definition without_yields (t : list event) : list event :=
  filter (fun ev => match ev with EvYield _ => false | _ => true end) t.

(** The scraper's events among the steps of a batch. *)
Definition events_of (steps : list action) : list event :=
  flat_map (fun step => match step with Did ev => [ev] | Mkdir _ => [] end)
           steps.

(** An event of this machine: a stream is opened, written or closed. *)
Definition local_event (ev : event) : Prop :=
  match ev with
  | EvGet _ | EvYield _ => False
  | _ => True
  end.

(** The line [filter_by_specialty] prints for a list of that length. *)
Definition total_text (doctors : list json) : pystr :=
  str "Total doctors: " ++ str_of_int (Z.of_nat (List.length doctors))
  ++ [10%N].

Section BatchVocabulary.
Context {R : Runtime}.
Import MedicosDocScraper.

(** The item of a specialty holds the records of the entries the filter
    returns for it. *)
Definition records_for (w : world) (url : pystr) (doctors : list json)
  (item : pystr * list pydict) : Prop :=
  exists filtered,
    snd (run w (filter_by_specialty doctors (fst item))) = Ok filtered /\
    comprehension (fun doc => to_record doc url) filtered = Ok (snd item).

End BatchVocabulary.

(** A directory entry as the batch runner needs it: a mapping with a url
    and a list of specialties. *)
Definition valid_directory_entry (entry : json) : bool :=
  match entry with
  | JObj d =>
      match lookup (str "url") d, lookup (str "specialties") d with
      | Some _, Some (JList _) => true
      | _, _ => false
      end
  | _ => false
  end.

(** The complaint about a mapping that is not a valid entry. *)
Definition entry_complaint (d : pydict) : pystr :=
  match lookup (str "url") d with
  | None => str "Each directory entry must include a 'url'."
  | Some _ => str "Each directory entry must include a 'specialties' list."
  end.

(** ** Further examples *)

(** A title with an accent, capitals and stray white space. *)
Definition sample_title : pystr :=
  str "  Gyn" ++ [233%N] ++ str "cologist  Obstetra ".

(** A directory URL the canned origin does not serve. *)
Definition unserved_url : pystr := str "https://elsewhere.example/dir".

(** Runtimes of origins whose document reports a null page count, and four
    pages. *)
Definition null_count_runtime : Runtime :=
  sample_runtime sample_html (sample_document [(str "totalPages", JNull)]).

Definition four_page_runtime : Runtime :=
  sample_runtime sample_html (sample_document [(str "totalPages", JInt 4)]).

(** Runtimes of origins whose embedded document has no build id, no
    directory data, and a null where the page properties belong. *)
Definition no_build_runtime : Runtime := sample_runtime sample_html (JObj []).

Definition no_directory_runtime : Runtime :=
  sample_runtime sample_html (JObj [ (str "buildId", JStr (str "B1")) ]).

Definition null_props_runtime : Runtime :=
  sample_runtime sample_html
    (JObj [ (str "buildId", JStr (str "B1")); (str "props", JNull) ]).

(** A target without a single ASCII letter (the Chinese for gynecology). *)
Definition foreign_target : pystr := [22919; 31185]%N.

(** An entry with a given name and nothing else. *)
Definition first_name_only : json := JObj [ (str "Name", JStr (str " Ana ")) ].

(** A row with a field the writer does not know. *)
Definition stray_record : pydict :=
  [ (str "id", JInt 7); (str "phone", JStr (str "555")) ].

(** The arguments of a run against the canned origin: two pages, CSV on
    standard output. *)
Definition sample_args : Namespace :=
  {| arg_url := sample_url; arg_specialty := accented_target;
     arg_output_format := str "csv"; arg_output_path := None;
     arg_max_pages := Some 2%Z |}.

Definition unserved_args : Namespace :=
  {| arg_url := unserved_url; arg_specialty := accented_target;
     arg_output_format := str "json"; arg_output_path := None;
     arg_max_pages := None |}.

(** A file system where every directory can be made, and one where none
    can. *)
Definition sample_fs : FileSystem :=
  {| mkdir := fun _ => None;
     joinpath := fun dir name => dir ++ str "/" ++ name |}.

Definition readonly_fs : FileSystem :=
  {| mkdir := fun _ => Some (LibraryError (str "PermissionError"));
     joinpath := fun dir name => dir ++ str "/" ++ name |}.

Definition sample_specialties : list pystr :=
  [str "gynecologist"; str "cardio"; str "gynecologist"].

(** A configured directory, and one whose specialties are a string, not a
    list. *)
Definition good_entry : json :=
  JObj [ (str "url", JStr sample_url);
         (str "specialties", JList [JStr (str "Gynecologist")]) ].

Definition bad_entry : pydict :=
  [ (str "url", JStr sample_url);
    (str "specialties", JStr (str "Gynecologist")) ].

(** ** Tactics *)

(** Every step of a chain of binds that ends in [Ok] returned. *)
Ltac bind_inversion H :=
  repeat match type of H with
         | rbind ?e _ = Ok _ =>
             let E := fresh "E" in
             destruct e eqn:E; cbn beta iota delta [rbind] in H;
             [|discriminate H]
         end.

(** * Properties *)

(** ** Text normalizer *)

Section TextNormalizerProperties.
Context {R : Runtime}.

Lemma lower_char_idem c : lower_char (lower_char c) = lower_char c.
Proof.
  unfold lower_char.
  destruct ((65 <=? c) && (c <=? 90))%N eqn:E; [|now rewrite E].
  apply andb_true_iff in E as [E1 E2].
  apply N.leb_le in E1; apply N.leb_le in E2.
  assert (H : ((c + 32 <=? 90) = false)%N) by (apply N.leb_gt; lia).
  now rewrite H, andb_false_r.
Qed.

Lemma lower_char_ascii c : is_ascii c = true -> is_ascii (lower_char c) = true.
Proof.
  unfold lower_char, is_ascii.
  destruct ((65 <=? c) && (c <=? 90))%N eqn:E; auto.
  apply andb_true_iff in E as [E1 E2].
  apply N.leb_le in E2. intros _. apply N.ltb_lt. lia.
Qed.

Lemma lstrip_by_Forall (P : N -> Prop) p s :
  Forall P s -> Forall P (lstrip_by p s).
Proof.
  induction 1 as [|c s Hc Hs IH]; simpl; [constructor|].
  destruct (p c); auto.
Qed.

Lemma rstrip_by_Forall (P : N -> Prop) p s :
  Forall P s -> Forall P (rstrip_by p s).
Proof.
  intros H. unfold rstrip_by.
  apply Forall_rev, lstrip_by_Forall, Forall_rev, H.
Qed.

Lemma strip_by_Forall (P : N -> Prop) p s :
  Forall P s -> Forall P (strip_by p s).
Proof. intros H. apply rstrip_by_Forall, lstrip_by_Forall, H. Qed.

Lemma lstrip_by_clean p s : clean_head p (lstrip_by p s).
Proof.
  induction s as [|c s IH]; simpl; [exact I|].
  destruct (p c) eqn:E; [exact IH|exact E].
Qed.

Lemma lstrip_by_fixed p s : clean_head p s -> lstrip_by p s = s.
Proof. destruct s as [|c s]; simpl; [reflexivity|]. now intros ->. Qed.

Lemma lstrip_by_snoc p s c :
  p c = false -> lstrip_by p (s ++ [c]) = lstrip_by p s ++ [c].
Proof.
  intros Hc. induction s as [|d s IH]; simpl.
  - now rewrite Hc.
  - destruct (p d); [exact IH|reflexivity].
Qed.

Lemma rstrip_by_clean_head p s : clean_head p s -> clean_head p (rstrip_by p s).
Proof.
  destruct s as [|c s]; simpl; [intros _; exact I|].
  intros Hc. unfold rstrip_by. simpl rev.
  rewrite lstrip_by_snoc by exact Hc.
  rewrite rev_app_distr. simpl. exact Hc.
Qed.

Lemma rstrip_by_idem p s : rstrip_by p (rstrip_by p s) = rstrip_by p s.
Proof.
  unfold rstrip_by. rewrite rev_involutive.
  rewrite (lstrip_by_fixed p (lstrip_by p (rev s))); [reflexivity|].
  apply lstrip_by_clean.
Qed.

Lemma strip_by_idem p s : strip_by p (strip_by p s) = strip_by p s.
Proof.
  unfold strip_by.
  rewrite (lstrip_by_fixed p (rstrip_by p (lstrip_by p s))).
  - apply rstrip_by_idem.
  - apply rstrip_by_clean_head, lstrip_by_clean.
Qed.

Lemma filter_fixed (p : N -> bool) s :
  Forall (fun c => p c = true) s -> filter p s = s.
Proof.
  induction 1 as [|c s Hc Hs IH]; simpl; [reflexivity|].
  now rewrite Hc, IH.
Qed.

Lemma lower_fixed s : Forall (fun c => lower_char c = c) s -> lower s = s.
Proof.
  induction 1 as [|c s Hc Hs IH]; simpl; [reflexivity|].
  now rewrite Hc, IH.
Qed.

(** The normal form: ASCII only, no capital letter. *)
Lemma normalize_str_ascii s :
  Forall (fun c => is_ascii c = true) (normalize_str s).
Proof.
  unfold normalize_str, strip. apply strip_by_Forall.
  unfold lower. apply Forall_map.
  unfold encode_ascii_ignore.
  apply Forall_forall. intros c Hc.
  apply filter_In in Hc as [_ Hc]. now apply lower_char_ascii.
Qed.

Lemma normalize_str_lowered s :
  Forall (fun c => lower_char c = c) (normalize_str s).
Proof.
  unfold normalize_str, strip. apply strip_by_Forall.
  unfold lower. apply Forall_map.
  apply Forall_forall. intros c _. apply lower_char_idem.
Qed.

Lemma normalize_text_str s : _normalize_text (JStr s) = Ok (normalize_str s).
Proof.
  unfold _normalize_text, py_or. simpl.
  destruct s; reflexivity.
Qed.

(** C7. The text normalizer is idempotent: normalising the normal form of
    a text gives that normal form back.  NFKD is taken to leave ASCII text
    unchanged, which the Unicode standard guarantees. *)
Theorem normalize_idempotent
  (nfkd_ascii : forall s, Forall (fun c => is_ascii c = true) s ->
                          normalize_NFKD s = s)
  (x : pystr) :
  exists y, _normalize_text (JStr x) = Ok y /\ _normalize_text (JStr y) = Ok y.
Proof.
  exists (normalize_str x). split; [apply normalize_text_str|].
  rewrite normalize_text_str. f_equal.
  pose proof (normalize_str_ascii x) as Ha.
  pose proof (normalize_str_lowered x) as Hl.
  unfold normalize_str at 1.
  rewrite (nfkd_ascii _ Ha).
  unfold encode_ascii_ignore. rewrite (filter_fixed _ Ha).
  rewrite (lower_fixed Hl).
  unfold normalize_str, strip. apply strip_by_idem.
Qed.

End TextNormalizerProperties.

Lemma decompose_ascii c : is_ascii c = true -> decompose c = [c].
Proof.
  unfold is_ascii. intros Hc. apply N.ltb_lt in Hc.
  cbv [decompose decomposition_table find fst].
  repeat match goal with
         | |- context [N.eqb ?k c] =>
             destruct (N.eqb_spec k c); [lia|]
         end.
  reflexivity.
Qed.

Lemma nfkd_sample_ascii s :
  Forall (fun c => is_ascii c = true) s -> nfkd_sample s = s.
Proof.
  induction 1 as [|c s Hc Hs IH]; simpl; [reflexivity|].
  rewrite (decompose_ascii c Hc). simpl. now f_equal.
Qed.

Section NormalizerExamples.
#[local] Existing Instance paged_runtime.

Lemma normalize_idempotent_witness :
  exists y,
    _normalize_text (JStr (str "  Gyn" ++ [233%N] ++ str "cologist ")) = Ok y /\
    _normalize_text (JStr y) = Ok y.
Proof.
  apply (@normalize_idempotent paged_runtime nfkd_sample_ascii).
Defined.

End NormalizerExamples.

(** ** String facts *)


Lemma char_in_false c s : char_in c s = false <-> ~ In c s.
Proof.
  unfold char_in. split.
  - intros H Hin. assert (existsb (N.eqb c) s = true); [|congruence].
    apply existsb_exists. exists c. split; [exact Hin|apply N.eqb_refl].
  - intros H. destruct (existsb (N.eqb c) s) eqn:E; [|reflexivity].
    apply existsb_exists in E as (x & Hin & Heq).
    apply N.eqb_eq in Heq. subst. contradiction.
Qed.

Lemma find_char_absent c s : char_in c s = false -> find_char c s = None.
Proof.
  induction s as [|d s IH]; [reflexivity|]. cbn [char_in existsb find_char].
  intros H. apply orb_false_iff in H as [Hd Hs]. rewrite Hd.
  unfold char_in in IH. now rewrite IH.
Qed.

Lemma find_char_skip c a b :
  char_in c a = false ->
  find_char c (a ++ b) = option_map (Nat.add (List.length a)) (find_char c b).
Proof.
  induction a as [|d a IH]; intros H.
  - cbn. destruct (find_char c b); reflexivity.
  - cbn [char_in existsb] in H. apply orb_false_iff in H as [Hd Ha].
    cbn [app find_char List.length]. rewrite Hd.
    unfold char_in in IH. rewrite IH by exact Ha.
    destruct (find_char c b); reflexivity.
Qed.

Lemma find_char_app c a b :
  char_in c a = false -> find_char c (a ++ c :: b) = Some (List.length a).
Proof.
  intros H. rewrite find_char_skip by exact H.
  cbn [find_char]. rewrite N.eqb_refl. cbn. f_equal. lia.
Qed.

Lemma find_char_before c s k j :
  find_char c s = Some k -> (j <= k)%nat -> char_in c (firstn j s) = false.
Proof.
  revert k j. induction s as [|d s IH]; intros k j H Hj; [discriminate|].
  cbn [find_char] in H. destruct (N.eqb c d) eqn:Hd.
  - injection H as <-. replace j with O by lia. reflexivity.
  - destruct (find_char c s) as [k'|] eqn:Hk; [|discriminate].
    injection H as <-. destruct j as [|j]; [reflexivity|].
    cbn [firstn char_in existsb]. rewrite Hd. cbn.
    unfold char_in in IH. apply (IH k'); [reflexivity|lia].
Qed.

Lemma find_char_none c s : find_char c s = None -> char_in c s = false.
Proof.
  induction s as [|d s IH]; [reflexivity|].
  cbn [find_char char_in existsb]. destruct (N.eqb c d); [discriminate|].
  destruct (find_char c s); [discriminate|]. intros _. now apply IH.
Qed.

Lemma find_char_bound c s k : find_char c s = Some k -> (k < List.length s)%nat.
Proof.
  revert k. induction s as [|d s IH]; intros k; [discriminate|].
  cbn [find_char List.length]. destruct (N.eqb c d).
  - intros H. injection H as <-. lia.
  - destruct (find_char c s) as [k'|]; [|discriminate].
    intros H. injection H as <-. specialize (IH k' eq_refl). lia.
Qed.

Lemma forallb_firstn {A} (p : A -> bool) n l :
  forallb p l = true -> forallb p (firstn n l) = true.
Proof.
  revert n. induction l as [|x l IH]; intros n H; destruct n; try reflexivity.
  cbn in *. apply andb_true_iff in H as [Hx Hl]. now rewrite Hx, IH.
Qed.

Lemma forallb_skipn {A} (p : A -> bool) n l :
  forallb p l = true -> forallb p (skipn n l) = true.
Proof.
  revert n. induction l as [|x l IH]; intros n H; destruct n; try exact H.
  cbn in *. apply andb_true_iff in H as [Hx Hl]. now apply IH.
Qed.

Lemma forallb_filter_fixed (p : N -> bool) s :
  forallb p s = true -> filter p s = s.
Proof.
  induction s as [|c s IH]; [reflexivity|]. cbn.
  intros H. apply andb_true_iff in H as [Hc Hs]. now rewrite Hc, IH.
Qed.

Lemma forallb_filter (p : N -> bool) s : forallb p (filter p s) = true.
Proof.
  induction s as [|c s IH]; [reflexivity|]. cbn.
  destruct (p c) eqn:E; [cbn; now rewrite E|exact IH].
Qed.

Lemma forallb_weaken {A} (p q : A -> bool) l :
  (forall x, p x = true -> q x = true) ->
  forallb p l = true -> forallb q l = true.
Proof.
  intros Hpq. induction l as [|x l IH]; [reflexivity|]. cbn.
  intros H. apply andb_true_iff in H as [Hx Hl].
  now rewrite (Hpq x Hx), IH.
Qed.

Lemma forallb_absent (p : N -> bool) c s :
  p c = false -> forallb p s = true -> char_in c s = false.
Proof.
  intros Hc H. apply char_in_false. intros Hin.
  rewrite forallb_forall in H. specialize (H c Hin). congruence.
Qed.

Lemma lstrip_by_none p s :
  forallb (fun c => negb (p c)) s = true -> lstrip_by p s = s.
Proof.
  destruct s as [|c s]; [reflexivity|]. cbn.
  intros H. apply andb_true_iff in H as [Hc _].
  apply negb_true_iff in Hc. now rewrite Hc.
Qed.

Lemma strip_by_none p s :
  forallb (fun c => negb (p c)) s = true -> strip_by p s = s.
Proof.
  intros H. unfold strip_by, rstrip_by. rewrite (lstrip_by_none p s H).
  rewrite lstrip_by_none; [apply rev_involutive|].
  rewrite forallb_forall in *. intros c Hc. apply H. now apply in_rev.
Qed.

(** [remove_unsafe] is one filter. *)
Lemma remove_unsafe_filter s : Url.remove_unsafe s = filter safe_char s.
Proof.
  unfold Url.remove_unsafe, Url._UNSAFE_URL_BYTES_TO_REMOVE, remove_char.
  cbn [fold_left].
  induction s as [|c s IH]; [reflexivity|].
  cbn [filter]. unfold safe_char at 1, Url._UNSAFE_URL_BYTES_TO_REMOVE.
  cbn [char_in existsb].
  rewrite (N.eqb_sym c 9), (N.eqb_sym c 13), (N.eqb_sym c 10).
  destruct (N.eqb 9 c); cbn [negb filter]; [exact IH|].
  destruct (N.eqb 13 c); cbn [negb filter orb]; [exact IH|].
  destruct (N.eqb 10 c); cbn [negb filter orb]; [exact IH|].
  now rewrite IH.
Qed.

Lemma remove_unsafe_safe s : forallb safe_char (Url.remove_unsafe s) = true.
Proof. rewrite remove_unsafe_filter. apply forallb_filter. Qed.

Lemma remove_unsafe_fixed s :
  forallb safe_char s = true -> Url.remove_unsafe s = s.
Proof. rewrite remove_unsafe_filter. apply forallb_filter_fixed. Qed.

Lemma str_eqb_eq a b : str_eqb a b = true <-> a = b.
Proof. unfold str_eqb. destruct (list_eq_dec N.eq_dec a b); split; congruence. Qed.

Lemma str_eqb_neq a b : a <> b -> str_eqb a b = false.
Proof. unfold str_eqb. destruct (list_eq_dec N.eq_dec a b); congruence. Qed.

Lemma str_eqb_refl s : str_eqb s s = true.
Proof. now apply str_eqb_eq. Qed.

(** ** Running programs *)

Section RunFacts.
Variable w : world.

Lemma run_bind {A B} (p : prog A) (f : A -> prog B) :
  run w (bind p f) = then_run (run w p) (fun a => run w (f a)).
Proof.
  induction p as [a|e|ev k IH|rq k IH]; simpl.
  - destruct (run w (f a)); reflexivity.
  - reflexivity.
  - rewrite IH. destruct (run w k) as [t [a|e]]; simpl; [|reflexivity].
    destruct (run w (f a)); reflexivity.
  - destruct (w rq) as [resp|e]; [|reflexivity].
    rewrite IH. destruct (run w (k resp)) as [t [a|e]]; simpl; [|reflexivity].
    destruct (run w (f a)); reflexivity.
Qed.

Lemma run_lift {A} (r : result A) : run w (lift r) = ([], r).
Proof. destruct r; reflexivity. Qed.

Lemma run_yield_all (items : list json) :
  run w (for_each items yield) = (map EvYield items, Ok tt).
Proof.
  induction items as [|v items IH]; simpl; [reflexivity|].
  now rewrite IH.
Qed.

Lemma run_for_each {X} (body : X -> prog unit) (ev : X -> list event)
  (xs : list X) :
  (forall x, In x xs -> run w (body x) = (ev x, Ok tt)) ->
  run w (for_each xs body) = (flat_map ev xs, Ok tt).
Proof.
  induction xs as [|x xs IH]; intros H; simpl; [reflexivity|].
  rewrite run_bind, (H x) by now left. simpl.
  rewrite IH by (intros y Hy; apply H; now right).
  reflexivity.
Qed.

(** A loop stops at the first turn that raises. *)
Lemma run_for_each_stops {X} (body : X -> prog unit) (ev : X -> list event)
  (good : list X) (bad : X) (rest : list X) (t : list event) (e : exn) :
  (forall x, In x good -> run w (body x) = (ev x, Ok tt)) ->
  run w (body bad) = (t, Err e) ->
  run w (for_each (good ++ bad :: rest) body) = (flat_map ev good ++ t, Err e).
Proof.
  intros Hgood Hbad. induction good as [|x good IH]; cbn [app for_each].
  - rewrite run_bind, Hbad. reflexivity.
  - rewrite run_bind, (Hgood x) by now left. cbn [then_run].
    rewrite IH by (intros y Hy; apply Hgood; now right).
    cbn [flat_map]. now rewrite app_assoc.
Qed.

End RunFacts.

Lemma yields_app t t' : yields (t ++ t') = yields t ++ yields t'.
Proof. apply flat_map_app. Qed.

Lemma requests_app t t' : requests (t ++ t') = requests t ++ requests t'.
Proof. apply flat_map_app. Qed.

Lemma yields_yield items : yields (map EvYield items) = items.
Proof. induction items; simpl; congruence. Qed.

Lemma requests_yield items : requests (map EvYield items) = [].
Proof. induction items; simpl; congruence. Qed.

Lemma yields_get rq t : yields (EvGet rq :: t) = yields t.
Proof. reflexivity. Qed.

Lemma requests_get rq t : requests (EvGet rq :: t) = rq :: requests t.
Proof. reflexivity. Qed.

Lemma in_py_range a b p : In p (py_range a b) <-> (a <= p < b)%Z.
Proof.
  unfold py_range. rewrite in_map_iff. split.
  - intros [i [<- Hi]]. apply in_seq in Hi. lia.
  - intros H. exists (Z.to_nat (p - a)). split; [lia|].
    apply in_seq. lia.
Qed.

Lemma startswith_refl s : startswith s s = true.
Proof. induction s; simpl; [reflexivity|]. now rewrite N.eqb_refl. Qed.

Lemma str_in_app_r prefix s : str_in s (prefix ++ s) = true.
Proof.
  induction prefix as [|c prefix IH]; simpl.
  - destruct s; simpl; [reflexivity|].
    now rewrite N.eqb_refl, startswith_refl.
  - rewrite IH. apply orb_true_r.
Qed.

(** ** Text streams *)

Lemma uint_digits_ascii d :
  forallb is_ascii (str (NilEmpty.string_of_uint d)) = true.
Proof. induction d; cbn; auto. Qed.

Lemma str_of_int_ascii z : forallb is_ascii (str_of_int z) = true.
Proof.
  unfold str_of_int, NilZero.string_of_int, NilZero.string_of_uint.
  destruct (Z.to_int z) as [d|d]; destruct d;
    try reflexivity; try apply (uint_digits_ascii (_ d));
    change (str (String "-" ?s)) with (ord "-" :: str s);
    cbn [forallb]; try reflexivity; apply (uint_digits_ascii (_ d)).
Qed.

Lemma encode_from_taken codec pos txt :
  forallb (encodable codec) txt = true -> encode_from codec pos txt = None.
Proof.
  revert pos. induction txt as [|c txt IH]; intros pos; [reflexivity|].
  cbn [forallb encode_from]. intros H.
  apply andb_true_iff in H as [Hc Htxt]. rewrite Hc. now apply IH.
Qed.

Lemma encode_from_rejected codec pos txt :
  forallb (encodable codec) txt = false ->
  exists message, encode_from codec pos txt = Some (UnicodeEncodeError message).
Proof.
  revert pos. induction txt as [|c txt IH]; intros pos; [discriminate|].
  cbn [forallb encode_from]. destruct (encodable codec c).
  - cbn [andb]. apply IH.
  - intros _. eexists. reflexivity.
Qed.

Lemma ascii_encodable codec txt :
  forallb is_ascii txt = true -> forallb (encodable codec) txt = true.
Proof.
  intros H. eapply forallb_weaken; [|exact H].
  intros c Hc. unfold encodable. now rewrite Hc.
Qed.

Section StreamFacts.
Context {R : Runtime}.

(** A text the stream takes is written. *)
Lemma write_taken dest txt :
  forallb (encodable (codec_of dest)) txt = true ->
  write dest txt = Out (EvWrite dest txt) (Ret tt).
Proof. intros H. unfold write, encode. now rewrite encode_from_taken. Qed.

(** A text it does not take raises, and nothing is written. *)
Lemma write_rejected dest txt :
  forallb (encodable (codec_of dest)) txt = false ->
  exists message, write dest txt = Raise (UnicodeEncodeError message).
Proof.
  intros H. destruct (encode_from_rejected (codec_of dest) 0 _ H) as [m Hm].
  exists m. unfold write, encode. now rewrite Hm.
Qed.

Lemma write_ascii dest txt :
  forallb is_ascii txt = true -> write dest txt = Out (EvWrite dest txt) (Ret tt).
Proof. intros H. now apply write_taken, ascii_encodable. Qed.

(** The diagnostic line is ASCII, so every stream takes it. *)
Lemma write_total_line (doctors : list json) :
  write None (str "Total doctors: "
              ++ str_of_int (Z.of_nat (List.length doctors)) ++ [10%N])
  = Out (total_line doctors) (Ret tt).
Proof.
  apply write_ascii. rewrite !forallb_app, str_of_int_ascii. reflexivity.
Qed.

End StreamFacts.

(** ** Pager *)

Section PagerProperties.
Context {R : Runtime}.
Import Url MedicosDocScraper.
Variable w : world.

Lemma run_get_html url response :
  w (initial_request url) = Ok response ->
  status_error response = None ->
  run w (_get_html url) = ([EvGet (initial_request url)], Ok (text response)).
Proof.
  intros Hw Hs. unfold _get_html. simpl.
  change {| req_url := url; req_page := None; req_timeout := timeout |}
    with (initial_request url).
  now rewrite Hw, Hs.
Qed.

Lemma run_fetch_page url parsed build_id path_part page response payload :
  urlparse url [] = Ok parsed ->
  w (page_request parsed build_id path_part page) = Ok response ->
  status_error response = None ->
  json_result response = Ok payload ->
  run w (_fetch_page url build_id path_part page)
  = ([EvGet (page_request parsed build_id path_part page)],
     page_entries payload page).
Proof.
  intros Hu Hw Hs Hj. unfold _fetch_page. rewrite Hu. simpl.
  rewrite Hw, Hs, Hj. simpl.
  destruct (page_entries payload page); reflexivity.
Qed.

Lemma page_entries_found payload page page_props directory v :
  getitem payload (str "pageProps") = Ok page_props ->
  getitem page_props (str "directoryDoctors") = Ok directory ->
  getitem directory (str "data") = Ok v ->
  page_entries payload page = Ok v.
Proof.
  intros H1 H2 H3. unfold page_entries. now rewrite H1; simpl; rewrite H2; simpl; rewrite H3.
Qed.

Lemma run_fetch_page_serves url parsed build_id path_part page entries :
  urlparse url [] = Ok parsed ->
  page_serves w parsed build_id path_part page entries ->
  run w (_fetch_page url build_id path_part page)
  = ([EvGet (page_request parsed build_id path_part page)],
     Ok (JList entries)).
Proof.
  intros Hu (response & payload & pp & dd & Hw & Hs & Hj & H1 & H2 & H3).
  erewrite run_fetch_page by eassumption.
  now erewrite page_entries_found by eassumption.
Qed.

End PagerProperties.

Section PagerTheorems.
Context {R : Runtime}.
Import Url MedicosDocScraper.
Variable w : world.

(** C9. With [max_pages] below 1 the generator raises
    ValueError("max_pages must be at least 1") the first time it is
    iterated, and the origin has seen no request by then.  Calling
    [fetch_doctors] only builds the generator: the function itself returns,
    and it is [next] (or [list]) that meets the error. *)
Theorem fetch_doctors_rejects_small_max_pages (url : pystr) (m : Z) :
  (m < 1)%Z ->
  next w (fetch_doctors url (Some m))
  = ([], Raised (ValueError (str "max_pages must be at least 1"))) /\
  run w (fetch_doctors url (Some m))
  = ([], Err (ValueError (str "max_pages must be at least 1"))).
Proof.
  intros Hm. unfold fetch_doctors.
  apply Z.ltb_lt in Hm. rewrite Hm. split; reflexivity.
Qed.

(** The cases the handler of [_fetch_page] covers.  When a dict on the way
    to pageProps, directoryDoctors, data lacks its key, [_fetch_page]
    raises RuntimeError("Unexpected response shape for page n"), whose
    message includes the page number; when the three keys are present it
    returns what is stored under data.  In both cases it has sent the one
    request for page n. *)
Theorem fetch_page_shape (url : pystr) (parsed : ParseResult)
  (build_id : json) (path_part : pystr) (n : Z)
  (response : Response) (payload : json) :
  urlparse url [] = Ok parsed ->
  w (page_request parsed build_id path_part n) = Ok response ->
  status_error response = None ->
  json_result response = Ok payload ->
  (lacks_expected_key payload ->
   run w (_fetch_page url build_id path_part n)
   = ([EvGet (page_request parsed build_id path_part n)],
      Err (RuntimeError (str "Unexpected response shape for page "
                         ++ str_of_int n))) /\
   str_in (str_of_int n)
          (message (RuntimeError (str "Unexpected response shape for page "
                                  ++ str_of_int n))) = true) /\
  (forall entries,
      path_value payload = Some entries ->
      run w (_fetch_page url build_id path_part n)
      = ([EvGet (page_request parsed build_id path_part n)], Ok entries)).
Proof.
  intros Hu Hw Hs Hj.
  rewrite (run_fetch_page w url build_id path_part n Hu Hw Hs Hj).
  split.
  - intros (d & -> & H). split; [|apply str_in_app_r].
    f_equal. unfold page_entries. simpl.
    destruct H as [H|(d1 & H1 & H)]; rewrite ?H; [reflexivity|].
    rewrite H1. simpl.
    destruct H as [H|(d2 & H2 & H)]; rewrite ?H; [reflexivity|].
    rewrite H2. simpl. now rewrite H.
  - intros entries H. f_equal. unfold page_entries.
    destruct payload as [| | | | |?|d]; try discriminate. simpl in *.
    destruct (lookup (str "pageProps") d) as [[| | | | |?|d1]|];
      try discriminate. simpl in *.
    destruct (lookup (str "directoryDoctors") d1) as [[| | | | |?|d2]|];
      try discriminate. simpl in *.
    now rewrite H.
Qed.

End PagerTheorems.

Section FetchDoctors.
Context {R : Runtime}.
Import Url MedicosDocScraper.
Variable w : world.
Variables (url : pystr) (response : Response) (parsed : ParseResult).
Variables (build_id : json) (path_part : pystr) (first_page : pydict).
Variable first : list json.

Hypothesis directory_answers : w (initial_request url) = Ok response.
Hypothesis directory_status : status_error response = None.
Hypothesis directory_payload :
  _parse_initial_payload url (text response)
  = Ok (build_id, path_part, JObj first_page).
Hypothesis directory_url_parses : urlparse url [] = Ok parsed.
Hypothesis first_page_data : first_entries (JObj first_page) = Ok first.

(** The run of [fetch_doctors] once the page count is known. *)
Lemma run_fetch_doctors (max_pages : option Z) (total_pages : Z)
  (entries : Z -> list json) :
  valid_max_pages max_pages ->
  (total <- get_default (JObj first_page) (str "totalPages") (JInt 1) ;;
   py_int total)%result = Ok total_pages ->
  (forall p, (2 <= p <= page_limit total_pages max_pages)%Z ->
             page_serves w parsed build_id path_part p (entries p)) ->
  run w (fetch_doctors url max_pages)
  = (EvGet (initial_request url) :: map EvYield first
       ++ flat_map (page_events parsed build_id path_part entries)
                   (py_range 2 (page_limit total_pages max_pages + 1)),
     Ok tt).
Proof.
  intros Hvalid Htotal Hpages. unfold fetch_doctors.
  replace (match max_pages with Some m => (m <? 1)%Z | None => false end)
    with false
    by (destruct max_pages; simpl in *;
        [symmetry; apply Z.ltb_ge; lia|reflexivity]).
  rewrite run_bind, (run_get_html w url directory_answers directory_status).
  simpl then_run.
  rewrite run_bind, run_lift, directory_payload. simpl then_run.
  simpl in Htotal.
  rewrite run_bind, run_lift, Htotal. simpl then_run.
  unfold first_entries in first_page_data. simpl in first_page_data.
  rewrite run_bind. unfold yield_from at 1.
  rewrite run_bind, run_lift, first_page_data. simpl then_run.
  rewrite run_yield_all. simpl then_run.
  fold (page_limit total_pages max_pages).
  rewrite (run_for_each w _ (page_events parsed build_id path_part entries)).
  - reflexivity.
  - intros p Hp. apply in_py_range in Hp.
    rewrite run_bind.
    erewrite run_fetch_page_serves;
      [|exact directory_url_parses|apply Hpages; lia].
    simpl then_run. unfold yield_from.
    rewrite run_bind, run_lift. simpl then_run.
    rewrite run_yield_all. reflexivity.
Qed.

Lemma yields_pages (entries : Z -> list json) pages :
  yields (flat_map (page_events parsed build_id path_part entries) pages)
  = flat_map entries pages.
Proof.
  induction pages as [|p ps IH]; [reflexivity|].
  cbn [flat_map]. rewrite yields_app, IH. unfold page_events.
  now rewrite yields_get, yields_yield.
Qed.

Lemma requests_pages (entries : Z -> list json) pages :
  requests (flat_map (page_events parsed build_id path_part entries) pages)
  = map (page_request parsed build_id path_part) pages.
Proof.
  induction pages as [|p ps IH]; [reflexivity|].
  cbn [flat_map map]. rewrite requests_app, IH. unfold page_events.
  now rewrite requests_get, requests_yield.
Qed.

Lemma py_range_empty a b : (b <= a)%Z -> py_range a b = [].
Proof.
  intros H. unfold py_range.
  replace (Z.to_nat (b - a)) with O by lia. reflexivity.
Qed.

(** C10. When the first-page payload has no totalPages field the page
    count is taken to be 1: whatever [max_pages] is, no request goes to the
    data endpoint, and for every [max_pages] that passes the guard the
    generator yields the first page's entries and nothing else. *)
Theorem fetch_doctors_without_total_pages (max_pages : option Z) :
  lookup (str "totalPages") first_page = None ->
  (forall rq, In rq (requests (fst (run w (fetch_doctors url max_pages)))) ->
              rq = initial_request url) /\
  (valid_max_pages max_pages ->
   run w (fetch_doctors url max_pages)
   = (EvGet (initial_request url) :: map EvYield first, Ok tt) /\
   py_list w (fetch_doctors url max_pages) = Ok first).
Proof.
  intros Ht.
  assert (Hrun : valid_max_pages max_pages ->
                 run w (fetch_doctors url max_pages)
                 = (EvGet (initial_request url) :: map EvYield first, Ok tt)).
  { intros Hvalid.
    rewrite (@run_fetch_doctors max_pages 1%Z (fun _ => []) Hvalid).
    - rewrite py_range_empty; [simpl; now rewrite app_nil_r|].
      destruct max_pages; simpl in *; lia.
    - simpl. now rewrite Ht.
    - intros p Hp. destruct max_pages; simpl in *; lia. }
  split.
  - destruct max_pages as [m|].
    + destruct (Z.ltb_spec m 1) as [Hm|Hm].
      * unfold fetch_doctors. apply Z.ltb_lt in Hm. rewrite Hm.
        simpl. intros rq [].
      * rewrite Hrun by exact Hm. simpl. rewrite requests_yield.
        intros rq [<-|[]]. reflexivity.
    + rewrite Hrun by exact I. simpl. rewrite requests_yield.
      intros rq [<-|[]]. reflexivity.
  - intros Hvalid. split; [now apply Hrun|].
    unfold py_list. rewrite Hrun by exact Hvalid. simpl.
    now rewrite yields_yield.
Qed.

End FetchDoctors.

(** ** The pager on the canned origin *)

Section PagedOrigin.
#[local] Existing Instance paged_runtime.
Import Url MedicosDocScraper.

Lemma fetch_doctors_rejects_small_max_pages_witness :
  next sample_world (fetch_doctors sample_url (Some 0%Z))
  = ([], Raised (ValueError (str "max_pages must be at least 1"))) /\
  run sample_world (fetch_doctors sample_url (Some 0%Z))
  = ([], Err (ValueError (str "max_pages must be at least 1"))).
Proof.
  apply (@fetch_doctors_rejects_small_max_pages paged_runtime sample_world
           sample_url 0%Z).
  reflexivity.
Defined.

Lemma sample_world_serves (p : Z) :
  (2 <= p <= 3)%Z ->
  page_serves sample_world sample_parsed (JStr (str "B1")) (str "en/dir") p
              (sample_pages p).
Proof.
  intros Hp.
  assert (H : p = 2%Z \/ p = 3%Z) by lia.
  destruct H as [-> | ->].
  - exists (json_response (page_payload (JList second_page_doctors))),
           (page_payload (JList second_page_doctors)),
           (JObj [(str "directoryDoctors",
                   JObj [(str "data", JList second_page_doctors)])]),
           (JObj [(str "data", JList second_page_doctors)]).
    repeat split; reflexivity.
  - exists (json_response (page_payload (JList third_page_doctors))),
           (page_payload (JList third_page_doctors)),
           (JObj [(str "directoryDoctors",
                   JObj [(str "data", JList third_page_doctors)])]),
           (JObj [(str "data", JList third_page_doctors)]).
    repeat split; reflexivity.
Defined.

(** The first [next] sends the directory request and hands out the first
    entry of the embedded payload; the data endpoint has not been asked. *)
Example first_entry_before_paging :
  exists rest,
    next sample_world (fetch_doctors sample_url (Some 2%Z))
    = ([EvGet (initial_request sample_url)],
       Yielded (sample_doctor "Ana" "Gynecologist") rest).
Proof. eexists. reflexivity. Qed.

Lemma fetch_page_shape_witness :
  let payload := JObj [(str "pageProps", JObj [])] in
  let request :=
    page_request sample_parsed (JStr (str "B1")) (str "en/dir") 2 in
  let raised :=
    RuntimeError (str "Unexpected response shape for page " ++ str_of_int 2) in
  (lacks_expected_key payload ->
   run (constant_world payload)
       (_fetch_page sample_url (JStr (str "B1")) (str "en/dir") 2)
   = ([EvGet request], Err raised) /\
   str_in (str_of_int 2) (message raised) = true) /\
  (forall entries,
      path_value payload = Some entries ->
      run (constant_world payload)
          (_fetch_page sample_url (JStr (str "B1")) (str "en/dir") 2)
      = ([EvGet request], Ok entries)).
Proof.
  apply (@fetch_page_shape paged_runtime
           (constant_world (JObj [(str "pageProps", JObj [])]))
           sample_url sample_parsed (JStr (str "B1")) (str "en/dir") 2%Z
           (json_response (JObj [(str "pageProps", JObj [])]))
           (JObj [(str "pageProps", JObj [])])
           eq_refl eq_refl eq_refl eq_refl).
Defined.

(** C4 fails in the code where a value on the way is not a dict.  The
    data endpoint answers the request for page 2 with the JSON text of
    {"pageProps": null}: the response lacks the nested keys, yet what
    comes out is the TypeError of the subscript, which the handler, written
    for KeyError, lets through, and which does not name the page.  With
    {"pageProps": {}} in its place the error is the one of the claim. *)
Lemma fetch_page_null_page_props :
  let request :=
    {| req_url := str "https://example.com/_next/data/B1/en/dir.json";
       req_page := Some 2%Z; req_timeout := 30 |} in
  let fetch_page payload :=
    run (constant_world payload)
        (_fetch_page sample_url (JStr (str "B1")) (str "en/dir") 2) in
  let raised := TypeError (str "'NoneType' object is not subscriptable") in
  path_value (JObj [(str "pageProps", JNull)]) = None /\
  fetch_page (JObj [(str "pageProps", JNull)])
  = ([EvGet request], Err raised) /\
  str_in (str_of_int 2) (message raised) = false /\
  fetch_page (JObj [(str "pageProps", JObj [])])
  = ([EvGet request],
     Err (RuntimeError (str "Unexpected response shape for page 2"))).
Proof. repeat split; reflexivity. Qed.

End PagedOrigin.

Section UnpagedOrigin.
#[local] Existing Instance unpaged_runtime.
Import Url MedicosDocScraper.

Lemma fetch_doctors_without_total_pages_witness :
  (forall rq,
      In rq (requests
               (fst (run sample_world
                         (fetch_doctors sample_url (Some 5%Z))))) ->
      rq = initial_request sample_url) /\
  (valid_max_pages (Some 5%Z) ->
   run sample_world (fetch_doctors sample_url (Some 5%Z))
   = (EvGet (initial_request sample_url) :: map EvYield first_page_doctors,
      Ok tt) /\
   py_list sample_world (fetch_doctors sample_url (Some 5%Z))
   = Ok first_page_doctors).
Proof.
  apply (@fetch_doctors_without_total_pages unpaged_runtime sample_world
           sample_url (html_response sample_html) sample_parsed
           (JStr (str "B1")) (str "en/dir")
           [(str "data", JList first_page_doctors)]
           first_page_doctors
           eq_refl eq_refl eq_refl eq_refl eq_refl (Some 5%Z)).
  reflexivity.
Defined.

End UnpagedOrigin.

(** ** The pages of a directory *)

Lemma py_range_sorted a b : StronglySorted Z.lt (py_range a b).
Proof.
  unfold py_range. generalize 0%nat as start.
  induction (Z.to_nat (b - a)) as [|n IH]; intros start; cbn [seq map];
    constructor; [apply IH|].
  apply Forall_forall. intros x Hx.
  apply in_map_iff in Hx as (i & <- & Hi). apply in_seq in Hi. lia.
Qed.

Section PagedDirectory.
Context {R : Runtime}.
Import Url MedicosDocScraper.
Variable w : world.

(** A page with an embedded document that has a build id and directory
    data is read. *)
Lemma parse_initial_payload_found url html parsed data document first_page :
  urlparse url [] = Ok parsed ->
  next_data_text html = Some data ->
  json_loads data = Ok document ->
  truthy (field document (str "buildId")) = true ->
  embedded_directory document = JObj first_page ->
  first_page <> [] ->
  _parse_initial_payload url html
  = Ok (field document (str "buildId"), resource_path (path parsed),
        JObj first_page).
Proof.
  intros Hparsed Hdata Hdoc Hbuild Hdir Hne.
  unfold next_data_text in Hdata.
  destruct (find_next_data html) as [[d|]|] eqn:Hfind; try discriminate.
  destruct (nonempty d) eqn:Hd; [|discriminate]. injection Hdata as ->.
  unfold _parse_initial_payload. rewrite Hfind, Hd. cbn [rbind].
  rewrite Hdoc. cbn [rbind].
  destruct document as [| | | | | |fields]; try discriminate.
  cbn [get get_default rbind]. fold (field (JObj fields) (str "buildId")).
  rewrite Hbuild. cbn [negb].
  unfold _data_path. rewrite Hparsed. cbn [rbind]. fold (resource_path (path parsed)).
  unfold embedded_directory in Hdir. cbn [field get_default] in *.
  destruct (lookup (str "props") fields) as [[| | | | | |d1]|];
    try discriminate.
  cbn [rbind field get_default] in *.
  destruct (lookup (str "pageProps") d1) as [[| | | | | |d2]|];
    try discriminate.
  cbn [rbind field get_default] in *.
  destruct (lookup (str "directoryDoctors") d2) as [v|]; [|discriminate].
  subst v. cbn [rbind].
  destruct first_page; [contradiction|]. reflexivity.
Qed.

(** The request [_fetch_page] sends is the one for that page of the data
    endpoint. *)
Lemma page_request_endpoint parsed build_id page :
  page_request parsed build_id (resource_path (path parsed)) page
  = data_request (data_endpoint parsed (py_str build_id)) page.
Proof.
  unfold page_request, data_request, data_endpoint. f_equal.
  unfold urlunparse, urlunsplit, serialised, authority_text.
  change (nonempty []) with false. cbv iota.
  change (str "/_next/data/" ++ ?x) with (ord "/" :: ord "_" :: str "next/data/" ++ x).
  cbn [app firstn].
  change (str_eqb [ord "/"; ord "_"] (str "//")) with false.
  change (str_eqb [ord "/"] (str "/")) with true.
  cbn [negb andb]. rewrite !andb_true_r, andb_false_r.
  destruct (nonempty (scheme parsed));
    destruct (nonempty (netloc parsed) || _);
    rewrite <- ?app_assoc; reflexivity.
Qed.

Lemma serves_page parsed build_id page entries :
  serves w (data_request (data_endpoint parsed (py_str build_id)) page) entries ->
  page_serves w parsed build_id (resource_path (path parsed)) page entries.
Proof.
  intros (response & payload & Hw & Hs & Hj & Hv).
  rewrite <- page_request_endpoint in Hw.
  unfold path_value in Hv.
  destruct payload as [| | | | | |d]; try discriminate.
  destruct (lookup (str "pageProps") d) as [[| | | | | |d1]|] eqn:H1;
    try discriminate.
  destruct (lookup (str "directoryDoctors") d1) as [[| | | | | |d2]|] eqn:H2;
    try discriminate.
  exists response, (JObj d), (JObj d1), (JObj d2).
  repeat split; try assumption; cbn [getitem]; rewrite ?H1, ?H2, ?Hv;
    reflexivity.
Qed.

(** C1.  A directory page answers with an embedded document that has a
    build id and, under props, pageProps, directoryDoctors, first-page data
    reporting [t] total pages; [max_pages] passes the guard; and the data
    endpoint serves pages 2 to min(t, max_pages).  Then [fetch_doctors]
    yields the entries of the first page, taken from the embedded
    document, and after them the entries of pages 2 to min(t, max_pages)
    in increasing page order, each page fetched by one request to the data
    endpoint that carries its number.  These and the directory request are
    all the requests: none is sent for a page beyond min(t, max_pages), so
    with t = 3 and max_pages = 2 page 3 is never asked for. *)
Theorem fetch_doctors_stops_at_max_pages
  (url : pystr) (response : Response) (parsed : ParseResult)
  (data : pystr) (document : json) (first_page : pydict)
  (first : list json) (t : Z) (max_pages : option Z)
  (entries : Z -> list json) :
  w (initial_request url) = Ok response ->
  status_error response = None ->
  urlparse url [] = Ok parsed ->
  next_data_text (text response) = Some data ->
  json_loads data = Ok document ->
  truthy (field document (str "buildId")) = true ->
  embedded_directory document = JObj first_page ->
  lookup (str "totalPages") first_page = Some (JInt t) ->
  first_entries (JObj first_page) = Ok first ->
  valid_max_pages max_pages ->
  let endpoint :=
    data_endpoint parsed (py_str (field document (str "buildId"))) in
  let last_page := page_limit t max_pages in
  (forall p, (2 <= p <= last_page)%Z ->
             serves w (data_request endpoint p) (entries p)) ->
  let pages := py_range 2 (last_page + 1) in
  let trace := fst (run w (fetch_doctors url max_pages)) in
  run w (fetch_doctors url max_pages)
  = (EvGet (initial_request url) :: map EvYield first
       ++ flat_map (endpoint_events endpoint entries) pages,
     Ok tt) /\
  py_list w (fetch_doctors url max_pages)
  = Ok (first ++ flat_map entries pages) /\
  requests trace = initial_request url :: map (data_request endpoint) pages /\
  (forall p, In p pages <-> (2 <= p <= last_page)%Z) /\
  StronglySorted Z.lt pages /\
  (forall rq p,
      In rq (requests trace) -> req_page rq = Some p ->
      (2 <= p <= last_page)%Z).
Proof.
  intros Hw Hstatus Hparsed Hdata Hdoc Hbuild Hdir Ht Hfirst Hvalid
         endpoint last_page Hpages pages trace.
  assert (Hne : first_page <> []) by (intros ->; discriminate).
  pose proof (@parse_initial_payload_found url (text response) parsed data
                document first_page Hparsed Hdata Hdoc Hbuild Hdir Hne)
    as Hpayload.
  assert (Hrun : run w (fetch_doctors url max_pages)
                 = (EvGet (initial_request url) :: map EvYield first
                      ++ flat_map (endpoint_events endpoint entries) pages,
                    Ok tt)).
  { rewrite (@run_fetch_doctors _ w url response parsed
               (field document (str "buildId"))
               (resource_path (path parsed)) first_page first
               Hw Hstatus Hpayload Hparsed Hfirst max_pages t entries Hvalid).
    - do 3 f_equal. apply flat_map_ext. intros p.
      unfold page_events, endpoint_events.
      now rewrite page_request_endpoint.
    - simpl. now rewrite Ht.
    - intros p Hp. apply serves_page. now apply Hpages. }
  assert (Hrequests : requests trace
                      = initial_request url :: map (data_request endpoint) pages).
  { unfold trace. rewrite Hrun. cbn [fst].
    rewrite requests_get, requests_app, requests_yield. cbn [app]. f_equal.
    clear. induction pages as [|p ps IH]; [reflexivity|].
    cbn [flat_map map]. rewrite requests_app, IH. unfold endpoint_events.
    now rewrite requests_get, requests_yield. }
  assert (Hin : forall p, In p pages <-> (2 <= p <= last_page)%Z).
  { intros p. unfold pages. rewrite in_py_range. lia. }
  split; [exact Hrun|]. split; [|split; [exact Hrequests|]].
  - unfold py_list. rewrite Hrun. f_equal.
    rewrite yields_get, yields_app, yields_yield. f_equal.
    clear. induction pages as [|p ps IH]; [reflexivity|].
    cbn [flat_map]. rewrite yields_app, IH. unfold endpoint_events.
    now rewrite yields_get, yields_yield.
  - split; [exact Hin|]. split; [apply py_range_sorted|].
    intros rq p Hrq Hp. rewrite Hrequests in Hrq.
    destruct Hrq as [<-|Hrq]; [discriminate|].
    apply in_map_iff in Hrq as (q & <- & Hq).
    cbn in Hp. injection Hp as <-. now apply Hin.
Qed.

End PagedDirectory.

Section PagedScenario.
#[local] Existing Instance paged_runtime.
Import Url MedicosDocScraper.

(** The scenario of the specification: three pages reported, at most two
    wanted.  Page 1 comes from the embedded payload, page 2 from the data
    endpoint, and the only requests are those two. *)
Lemma fetch_doctors_stops_at_max_pages_witness :
  py_list sample_world (fetch_doctors sample_url (Some 2%Z))
  = Ok (first_page_doctors ++ second_page_doctors) /\
  requests (fst (run sample_world (fetch_doctors sample_url (Some 2%Z))))
  = [ {| req_url := sample_url; req_page := None; req_timeout := 30 |};
      {| req_url := str "https://example.com/_next/data/B1/en/dir.json";
         req_page := Some 2%Z; req_timeout := 30 |} ].
Proof.
  destruct (@fetch_doctors_stops_at_max_pages paged_runtime sample_world
              sample_url (html_response sample_html) sample_parsed
              sample_html (sample_document [(str "totalPages", JInt 3)])
              [(str "data", JList first_page_doctors);
               (str "totalPages", JInt 3)]
              first_page_doctors 3%Z (Some 2%Z) sample_pages
              eq_refl eq_refl eq_refl eq_refl eq_refl eq_refl eq_refl
              eq_refl eq_refl)
    as (_ & Hlist & Hrequests & _).
  - simpl. lia.
  - intros p Hp. simpl in Hp.
    assert (Hp2 : p = 2%Z) by lia. subst p.
    exists (json_response (page_payload (JList second_page_doctors))),
           (page_payload (JList second_page_doctors)).
    repeat split; reflexivity.
  - split; [exact Hlist|exact Hrequests].
Defined.

End PagedScenario.

(** ** Filter *)

Section FilterProperties.
Context {R : Runtime}.
Import MedicosDocScraper.

Lemma get_field_dict d k : get (JObj d) k = Ok (field (JObj d) k).
Proof. reflexivity. Qed.

Lemma get_is_dict v k : is_dict v = true -> get v k = Ok (field v k).
Proof. destruct v; try discriminate. reflexivity. Qed.

(** [(v or {}).get(k)] on an optional dict. *)
Lemma get_optional_dict v k :
  optional_dict v = true -> get (py_or v empty_dict) k = Ok (field v k).
Proof.
  unfold optional_dict, py_or.
  destruct (truthy v) eqn:Ht; simpl.
  - intros Hd. now apply get_is_dict.
  - intros _. destruct v as [| | | | | |[|kv d]]; try reflexivity.
    discriminate.
Qed.

Lemma optional_text_cases v :
  optional_text v = true ->
  (truthy v = false /\ text_of v = None) \/
  (exists c s, v = JStr (c :: s)).
Proof.
  unfold optional_text.
  destruct v as [| | | |[|c s]| |]; simpl;
    try (destruct (truthy _) eqn:E; simpl; try discriminate);
    intros H; try discriminate; try (left; split; reflexivity).
  - left. destruct b; [discriminate|split; reflexivity].
  - left. split; [|reflexivity].
    destruct (n =? 0)%Z; [reflexivity|discriminate].
  - left. destruct f; try discriminate. split; reflexivity.
  - right. eauto.
  - left. destruct items; [split; reflexivity|discriminate].
  - left. destruct fields; [split; reflexivity|discriminate].
Qed.

(** What [_doctor_specialty] returns on a shaped entry: a falsy value when
    the entry has no category name, the name otherwise. *)
Lemma doctor_specialty_shaped doctor :
  category_shaped doctor = true ->
  exists v,
    _doctor_specialty doctor = Ok v /\
    match category_name doctor with
    | Some name => v = JStr name /\ truthy v = true
    | None => truthy v = false
    end.
Proof.
  unfold category_shaped, category_name.
  intros H.
  apply andb_true_iff in H as [H H4].
  apply andb_true_iff in H as [H H3].
  apply andb_true_iff in H as [H1 H2].
  apply andb_true_iff in H4 as [He Hl].
  unfold _doctor_specialty.
  rewrite (get_is_dict _ _ H1). simpl rbind.
  rewrite (get_optional_dict _ _ H2). simpl rbind.
  fold (category_descriptor doctor).
  rewrite (get_optional_dict _ _ H3). simpl rbind.
  set (english := field (category_descriptor doctor)
                        (str "SpecialityNameEnglish")) in *.
  destruct (optional_text_cases _ He) as [[Hf Hn]|(c & s & Heq)].
  - rewrite Hf, Hn. rewrite Hf in Hl. simpl in Hl.
    rewrite (get_optional_dict _ _ H3).
    eexists. split; [reflexivity|].
    destruct (optional_text_cases _ Hl) as [[Hf' Hn']|(c & s & Heq)].
    + now rewrite Hn'.
    + rewrite Heq. simpl. split; reflexivity.
  - rewrite Heq. simpl. eexists. split; [reflexivity|].
    split; reflexivity.
Qed.

Lemma filter_loop_shaped (specialty : pystr) doctors matches :
  Forall (fun doctor => category_shaped doctor = true) doctors ->
  filter_loop (normalize_str specialty) doctors matches
  = Ok (matches ++ matching_entries doctors specialty).
Proof.
  intros H. revert matches.
  induction H as [|doctor doctors Hd Hds IH]; intros matches; simpl.
  - now rewrite app_nil_r.
  - destruct (doctor_specialty_shaped _ Hd) as (v & -> & Hv). simpl.
    unfold matching_entries in *. simpl.
    unfold matches_specialty at 1.
    destruct (category_name doctor) as [name|].
    + destruct Hv as [-> Ht]. rewrite Ht. simpl negb. cbv iota.
      rewrite normalize_text_str. simpl rbind.
      destruct (str_in _ _).
      * rewrite IH. now rewrite <- app_assoc.
      * apply IH.
    + rewrite Hv. simpl. apply IH.
Qed.

(** C2. On entries of the data model's shape, [filter_by_specialty]
    returns exactly the entries that have a category name (the English
    variant when there is one, else the localized one) whose normal form
    contains the normal form of the target as a substring.  They come in
    their original order, an entry without a category name never among
    them; the only other effect is the diagnostic line. *)
Theorem filter_by_specialty_selects (w : world) (doctors : list json)
  (specialty : pystr) :
  Forall (fun doctor => category_shaped doctor = true) doctors ->
  run w (filter_by_specialty doctors specialty)
  = ([total_line doctors], Ok (matching_entries doctors specialty)) /\
  (forall doctor,
      In doctor (matching_entries doctors specialty) <->
      In doctor doctors /\
      exists name,
        category_name doctor = Some name /\
        str_in (normalize_str specialty) (normalize_str name) = true).
Proof.
  intros H. split.
  - unfold filter_by_specialty.
    rewrite normalize_text_str. cbn [lift bind].
    rewrite write_total_line. simpl.
    rewrite (filter_loop_shaped specialty [] H). reflexivity.
  - intros doctor. unfold matching_entries. rewrite filter_In.
    unfold matches_specialty.
    destruct (category_name doctor) as [name|].
    + split.
      * intros [Hin Hm]. split; [exact Hin|]. now exists name.
      * intros [Hin (n & Hn & Hm)]. injection Hn as <-. now split.
    + split.
      * intros [_ Hm]. discriminate.
      * intros [_ (n & Hn & _)]. discriminate.
Qed.

End FilterProperties.

Section FilterExamples.
#[local] Existing Instance paged_runtime.
Import MedicosDocScraper.

(** An upper-case, accented target finds the two gynecologists, in their
    order; the entry without a category is not among them. *)
Lemma filter_by_specialty_selects_witness :
  run sample_world (filter_by_specialty mixed_doctors accented_target)
  = ([total_line mixed_doctors],
     Ok [ sample_doctor "Ana" "Gynecologist";
          sample_doctor "Rosa" "Obstetrician-Gynecologist" ]).
Proof.
  destruct (@filter_by_specialty_selects paged_runtime sample_world
              mixed_doctors accented_target) as [Hrun _].
  - repeat constructor.
  - exact Hrun.
Defined.

End FilterExamples.

(** ** URLs *)

Section UrlFacts.
Context {R : Runtime}.
Import Url MedicosDocScraper.

Lemma scheme_chars_facts : forallb scheme_char_fact scheme_chars = true.
Proof. reflexivity. Qed.

Lemma scheme_char_in c :
  char_in c scheme_chars = true -> scheme_char_fact c = true.
Proof.
  intros H. apply existsb_exists in H as (x & Hin & Heq).
  apply N.eqb_eq in Heq. subst x.
  pose proof scheme_chars_facts as Hall. rewrite forallb_forall in Hall.
  now apply Hall.
Qed.

Lemma ascii_alpha_lower c : ascii_alpha c = true -> ascii_alpha (lower_char c) = true.
Proof.
  unfold ascii_alpha, lower_char.
  destruct ((65 <=? c) && (c <=? 90))%N eqn:E.
  - intros _. apply andb_true_iff in E as [E1 E2].
    apply N.leb_le in E1; apply N.leb_le in E2.
    apply orb_true_iff. right. apply andb_true_iff.
    split; apply N.leb_le; lia.
  - rewrite E. auto.
Qed.

Lemma lower_idem s : lower (lower s) = lower s.
Proof.
  unfold lower. rewrite map_map. apply map_ext. intros c.
  apply lower_char_idem.
Qed.

Lemma scheme_wf_facts s : scheme_wf s -> forallb scheme_char_fact s = true.
Proof.
  intros (_ & H & _). eapply forallb_weaken; [|exact H].
  intros c. apply scheme_char_in.
Qed.

Lemma scheme_wf_nonempty s : scheme_wf s -> exists c s', s = c :: s'.
Proof. intros (H & _). destruct s as [|c s']; [discriminate|eauto]. Qed.

Lemma split_scheme_cases url d s u :
  split_scheme url d = (s, u) ->
  (s = d /\ u = url) \/ (scheme_wf s /\ exists i, u = skipn i url).
Proof.
  unfold split_scheme.
  destruct (find_char (ord ":") url) as [[|i']|];
    destruct url as [|c0 url'];
    try (intros H; injection H as <- <-; now left).
  destruct (ascii_alpha c0 && _) eqn:E;
    [|intros H; injection H as <- <-; now left].
  intros H. injection H as <- <-. right.
  apply andb_true_iff in E as [Ha Hs].
  split; [|now exists (S (S i'))].
  set (text := firstn (S i') (c0 :: url')) in *.
  refine (conj _ (conj _ (lower_idem text))).
  - unfold text. cbn. now apply ascii_alpha_lower.
  - unfold lower. rewrite forallb_forall in *. intros c Hc.
    change (In c (map lower_char (c0 :: firstn i' url'))) in Hc.
    apply in_map_iff in Hc as (x & <- & Hx).
    specialize (Hs x Hx). apply scheme_char_in in Hs.
    unfold scheme_char_fact in Hs.
    now apply andb_true_iff in Hs as [_ Hs].
Qed.

Lemma char_in_firstn c n s : char_in c s = false -> char_in c (firstn n s) = false.
Proof.
  rewrite !char_in_false. intros H Hin. apply H.
  rewrite <- (firstn_skipn n s). apply in_or_app. now left.
Qed.

Lemma char_in_skipn c n s : char_in c s = false -> char_in c (skipn n s) = false.
Proof.
  rewrite !char_in_false. intros H Hin. apply H.
  rewrite <- (firstn_skipn n s). apply in_or_app. now right.
Qed.

Lemma min_opt_le d found : (min_opt d found <= d)%nat.
Proof. destruct found; cbn; lia. Qed.

Lemma min_opt_found d found k : found = Some k -> (min_opt d found <= k)%nat.
Proof. intros ->. cbn. lia. Qed.

Lemma min_opt_stable d found :
  (forall k, found = Some k -> d <= k)%nat -> (d <= min_opt d found)%nat.
Proof.
  destruct found as [k|]; cbn; [|lia].
  intros H. specialize (H k eq_refl). lia.
Qed.

(** Before the position [_splitnetloc] settles on there is no delimiter. *)
Lemma delimiter_absent c (url : pystr) delim :
  (delim <= min_opt delim (find_from c 2 url))%nat ->
  char_in c (slice url 2 delim) = false.
Proof.
  unfold find_from, slice.
  destruct (find_char c (skipn 2 url)) as [k|] eqn:Hk; cbn [option_map min_opt].
  - intros H. apply (find_char_before _ _ Hk). lia.
  - intros _. apply char_in_firstn. now apply find_char_none.
Qed.

Lemma splitnetloc_facts url n rest :
  _splitnetloc url 2 = (n, rest) ->
  n = slice url 2 (List.length url - List.length rest) /\
  rest = skipn (List.length url - List.length rest) url /\
  forallb (fun c => negb (char_in c (str "/?#"))) n = true.
Proof.
  unfold _splitnetloc. change (str "/?#") with [47; 63; 35]%N.
  cbn [fold_left].
  fold (min_opt (List.length url) (find_from 47 2 url)).
  set (d1 := min_opt (List.length url) (find_from 47 2 url)).
  fold (min_opt d1 (find_from 63 2 url)).
  set (d2 := min_opt d1 (find_from 63 2 url)).
  fold (min_opt d2 (find_from 35 2 url)).
  set (d3 := min_opt d2 (find_from 35 2 url)).
  pose proof (min_opt_le (List.length url) (find_from 47 2 url)) as H1.
  pose proof (min_opt_le d1 (find_from 63 2 url)) as H2.
  pose proof (min_opt_le d2 (find_from 35 2 url)) as H3.
  pose proof (@min_opt_found (List.length url) (find_from 47 2 url)) as F1.
  pose proof (@min_opt_found d1 (find_from 63 2 url)) as F2.
  pose proof (@min_opt_found d2 (find_from 35 2 url)) as F3.
  fold d1 in H1, H2, F1. fold d2 in H2, H3, F2. fold d3 in H3, F3.
  intros H. injection H as <- <-.
  rewrite length_skipn.
  replace (List.length url - (List.length url - d3))%nat with d3 by lia.
  repeat split.
  assert (Ha : char_in 47 (slice url 2 d3) = false).
  { apply delimiter_absent. apply min_opt_stable.
    intros k Hk. specialize (F1 k Hk). lia. }
  assert (Hb : char_in 63 (slice url 2 d3) = false).
  { apply delimiter_absent. apply min_opt_stable.
    intros k Hk. specialize (F2 k Hk). lia. }
  assert (Hc : char_in 35 (slice url 2 d3) = false).
  { apply delimiter_absent. apply min_opt_stable.
    intros k Hk. specialize (F3 k Hk). lia. }
  apply forallb_forall. intros x Hx. apply negb_true_iff.
  cbn [char_in existsb].
  destruct (N.eqb_spec x 47) as [->|_];
    [apply char_in_false in Ha; contradiction|].
  destruct (N.eqb_spec x 63) as [->|_];
    [apply char_in_false in Hb; contradiction|].
  destruct (N.eqb_spec x 35) as [->|_];
    [apply char_in_false in Hc; contradiction|].
  reflexivity.
Qed.

Lemma firstn_length_app {A} (a b : list A) : firstn (List.length a) (a ++ b) = a.
Proof. induction a as [|x a IH]; [reflexivity|]. cbn. now rewrite IH. Qed.

Lemma skipn_length_app {A} (a b : list A) : skipn (List.length a) (a ++ b) = b.
Proof. induction a as [|x a IH]; [reflexivity|]. exact IH. Qed.

Lemma forallb_and {A} (p q : A -> bool) l :
  forallb p l = true -> forallb q l = true ->
  forallb (fun x => p x && q x) l = true.
Proof.
  intros Hp Hq. rewrite forallb_forall in *. intros x Hx.
  now rewrite (Hp x Hx), (Hq x Hx).
Qed.

Lemma min_opt_absorb d found :
  (forall k, found = Some k -> d <= k)%nat -> min_opt d found = d.
Proof.
  destruct found as [k|]; cbn; [|reflexivity].
  intros H. specialize (H k eq_refl). lia.
Qed.

(** *** What [urlsplit] returns *)

Lemma split_authority_facts u n rest :
  split_authority u = Ok (n, rest) ->
  forallb safe_char u = true ->
  forallb (fun c => safe_char c && negb (char_in c (str "/?#"))) n = true /\
  check_brackets n = Ok tt.
Proof.
  unfold split_authority. intros H Hsafe.
  destruct (str_eqb (firstn 2 u) (str "//")).
  - destruct (_splitnetloc u 2) as [n' rest'] eqn:Hsplit.
    destruct (check_brackets n') as [[]|] eqn:Hb; [|discriminate].
    cbn [rbind] in H. injection H as <- <-.
    destruct (splitnetloc_facts Hsplit) as (Hn & _ & Hdelim).
    split; [|exact Hb].
    apply forallb_and; [|exact Hdelim].
    rewrite Hn. unfold slice. now apply forallb_firstn, forallb_skipn.
  - injection H as <- <-. split; reflexivity.
Qed.

Lemma urlsplit_facts url sr :
  urlsplit url [] = Ok sr ->
  (s_scheme sr = [] \/ scheme_wf (s_scheme sr)) /\ authority_ok (s_netloc sr).
Proof.
  unfold urlsplit.
  change (remove_unsafe (strip_by c0_control_or_space [])) with (@nil N).
  set (url1 := remove_unsafe (lstrip_by c0_control_or_space url)).
  assert (Hsafe : forallb safe_char url1 = true) by apply remove_unsafe_safe.
  destruct (split_scheme url1 []) as [s u] eqn:Hscheme.
  destruct (split_authority u) as [[n rest]|] eqn:Hauth; [|discriminate].
  cbn [rbind].
  destruct (split_at (ord "#") rest) as [rest1 fragment].
  destruct (split_at (ord "?") rest1) as [rest2 query].
  destruct (_checknetloc n) as [[]|] eqn:Hcheck; [|discriminate].
  cbn [rbind]. intros H. injection H as <-. cbn [s_scheme s_netloc].
  assert (Hu : forallb safe_char u = true).
  { destruct (split_scheme_cases _ _ Hscheme) as [[_ ->]|[_ [i ->]]];
      [exact Hsafe|now apply forallb_skipn]. }
  destruct (split_authority_facts _ Hauth Hu) as [Hn Hb].
  split.
  - destruct (split_scheme_cases _ _ Hscheme) as [[-> _]|[Hwf _]]; auto.
  - repeat split; assumption.
Qed.

Lemma urlparse_facts url parsed :
  urlparse url [] = Ok parsed ->
  (scheme parsed = [] \/ scheme_wf (scheme parsed)) /\
  authority_ok (netloc parsed).
Proof.
  unfold urlparse. intros H.
  destruct (urlsplit url []) as [sr|] eqn:Hsplit; [|discriminate].
  cbn [rbind] in H.
  destruct (if _ : bool then _ else _) as [p params].
  injection H as <-. cbn [scheme netloc].
  now apply urlsplit_facts with (url := url).
Qed.

(** *** Parsing a serialised URL *)

Lemma splitnetloc_serialised n rest :
  forallb (fun c => negb (char_in c (str "/?#"))) n = true ->
  _splitnetloc (str "//" ++ n ++ ord "/" :: rest) 2 = (n, ord "/" :: rest).
Proof.
  intros Hn. set (p := ord "/" :: rest).
  assert (Hfind : forall c,
             char_in c (str "/?#") = true ->
             find_from c 2 (str "//" ++ n ++ p)
             = option_map (Nat.add (2 + List.length n)) (find_char c p)).
  { intros c Hc. unfold find_from.
    change (skipn 2 (str "//" ++ n ++ p)) with (n ++ p).
    rewrite find_char_skip.
    - destruct (find_char c p); cbn; [f_equal; lia|reflexivity].
    - apply char_in_false. intros Hin.
      rewrite forallb_forall in Hn. specialize (Hn c Hin).
      rewrite Hc in Hn. discriminate. }
  unfold _splitnetloc. change (str "/?#") with [47; 63; 35]%N.
  cbn [fold_left].
  rewrite !Hfind by reflexivity.
  fold (min_opt (List.length (str "//" ++ n ++ p))
          (option_map (Nat.add (2 + List.length n)) (find_char 47 p))).
  set (d1 := min_opt _ _).
  fold (min_opt d1 (option_map (Nat.add (2 + List.length n)) (find_char 63 p))).
  set (d2 := min_opt d1 _).
  fold (min_opt d2 (option_map (Nat.add (2 + List.length n)) (find_char 35 p))).
  set (d3 := min_opt d2 _).
  assert (E1 : d1 = (2 + List.length n)%nat).
  { unfold d1, p. cbn [find_char]. change (N.eqb 47 (ord "/")) with true.
    cbn [option_map min_opt]. rewrite !length_app. cbn [List.length str].
    change (List.length (str "//")) with 2%nat. lia. }
  assert (E2 : d2 = d1).
  { apply min_opt_absorb. intros k Hk.
    destruct (find_char 63 p); [|discriminate].
    injection Hk as <-. lia. }
  assert (E3 : d3 = d2).
  { apply min_opt_absorb. intros k Hk.
    destruct (find_char 35 p); [|discriminate].
    injection Hk as <-. lia. }
  rewrite E3, E2, E1. unfold slice.
  change (skipn 2 (str "//" ++ n ++ p)) with (n ++ p).
  replace (2 + List.length n - 2)%nat with (List.length n) by lia.
  rewrite firstn_length_app.
  change (skipn (2 + List.length n) (str "//" ++ n ++ p))
    with (skipn (List.length n) (n ++ p)).
  now rewrite skipn_length_app.
Qed.


Lemma nonempty_false s : nonempty s = false -> s = [].
Proof. destruct s; [reflexivity|discriminate]. Qed.

Lemma single_slash rest :
  hd 0%N rest <> ord "/" ->
  str_eqb (firstn 2 (ord "/" :: rest)) (str "//") = false.
Proof.
  intros H. apply str_eqb_neq. destruct rest as [|c rest]; [discriminate|].
  cbn in *. intros E. injection E as E. contradiction.
Qed.

(** [urlunparse] on a path that starts with a single slash. *)
Lemma urlunparse_path s n p :
  path_ok p -> urlunparse s n p [] [] [] = serialised s n p.
Proof.
  intros (rest & -> & Hrest & _).
  unfold urlunparse, urlunsplit, serialised, authority_text.
  change (nonempty []) with false. cbv iota.
  rewrite (single_slash _ Hrest). cbn [negb].
  change (nonempty (ord "/" :: rest)
          && negb (str_eqb (firstn 1 (ord "/" :: rest)) (str "/")))
    with false.
  cbv iota. rewrite andb_true_r.
  destruct (nonempty s); destruct (nonempty n || _);
    rewrite <- ?app_assoc; reflexivity.
Qed.

Lemma path_ok_root : path_ok (str "/").
Proof. exists []. repeat split. discriminate. Qed.

Lemma path_char_safe c : path_char c = true -> safe_char c = true.
Proof. unfold path_char. intros H. now apply andb_true_iff in H as [H _]. Qed.

Lemma path_ok_absent c p :
  path_ok p -> path_char c = false -> c <> ord "/" -> char_in c p = false.
Proof.
  intros (rest & -> & _ & Hrest) Hc Hslash.
  cbn [char_in existsb]. apply orb_false_iff. split.
  - now apply N.eqb_neq.
  - now apply forallb_absent with (p := path_char).
Qed.

Lemma split_at_absent c p : char_in c p = false -> split_at c p = (p, []).
Proof.
  intros H. unfold split_at, split_once. now rewrite (find_char_absent _ _ H).
Qed.

Lemma scheme_default_fixed d :
  d = [] \/ scheme_wf d ->
  remove_unsafe (strip_by c0_control_or_space d) = d.
Proof.
  intros [->|Hwf]; [reflexivity|].
  pose proof (scheme_wf_facts Hwf) as Hf.
  rewrite strip_by_none.
  - apply remove_unsafe_fixed. eapply forallb_weaken; [|exact Hf].
    unfold scheme_char_fact. intros c Hc.
    repeat (apply andb_true_iff in Hc as [Hc ?]). assumption.
  - eapply forallb_weaken; [|exact Hf].
    unfold scheme_char_fact. intros c Hc.
    repeat (apply andb_true_iff in Hc as [Hc ?]). assumption.
Qed.

Lemma skipn_after {A} (a : list A) x b :
  skipn (S (List.length a)) (a ++ x :: b) = b.
Proof. induction a as [|y a IH]; [reflexivity|exact IH]. Qed.

Lemma serialised_cons c0 s' n p :
  serialised (c0 :: s') n p
  = (c0 :: s') ++ ord ":" :: authority_text (c0 :: s') n ++ p.
Proof. unfold serialised. cbn [nonempty List.length Nat.eqb negb]. now rewrite <- app_assoc. Qed.

Lemma serialised_nil n p : serialised [] n p = authority_text [] n ++ p.
Proof. reflexivity. Qed.

Lemma split_authority_serialised s n p :
  authority_ok n -> path_ok p ->
  split_authority (authority_text s n ++ p) = Ok (n, p).
Proof.
  intros (Hn & Hb & _) (rest & -> & Hrest & _).
  unfold authority_text, split_authority.
  destruct (nonempty n || _) eqn:E.
  - change (firstn 2 ((str "//" ++ n) ++ ord "/" :: rest)) with (str "//").
    rewrite str_eqb_refl. rewrite <- app_assoc.
    rewrite splitnetloc_serialised.
    + now rewrite Hb.
    + eapply forallb_weaken; [|exact Hn]. cbv beta. intros c Hc.
      now apply andb_true_iff in Hc as [_ Hc].
  - apply orb_false_iff in E as [E _]. apply nonempty_false in E. subst n.
    cbn [app]. now rewrite (single_slash _ Hrest).
Qed.

Lemma split_scheme_serialised s n p d :
  scheme_wf s \/ s = [] -> path_ok p ->
  split_scheme (serialised s n p) d
  = (if nonempty s then s else d, authority_text s n ++ p).
Proof.
  intros Hs (rest & -> & _).
  destruct Hs as [Hwf| ->].
  - pose proof (scheme_wf_facts Hwf) as Hf.
    destruct (scheme_wf_nonempty Hwf) as (c0 & s' & ->).
    rewrite serialised_cons.
    set (tail := authority_text (c0 :: s') n ++ ord "/" :: rest).
    change (nonempty (c0 :: s')) with true. cbv iota.
    unfold split_scheme.
    rewrite find_char_app
      by (apply forallb_absent with (p := scheme_char_fact);
          [reflexivity|exact Hf]).
    change (List.length (c0 :: s')) with (S (List.length s')).
    cbn [app].
    destruct Hwf as (Halpha & Hchars & Hlower). cbn [hd] in Halpha.
    rewrite Halpha.
    change (c0 :: s' ++ ord ":" :: tail) with ((c0 :: s') ++ ord ":" :: tail).
    change (S (List.length s')) with (List.length (c0 :: s')).
    rewrite firstn_length_app, Hchars, Hlower. cbn [andb]. f_equal.
    apply skipn_after.
  - rewrite serialised_nil. change (nonempty []) with false. cbv iota.
    assert (H : exists tail, authority_text [] n ++ ord "/" :: rest
                             = ord "/" :: tail).
    { unfold authority_text. destruct (_ || _); [|now exists rest].
      exists (ord "/" :: n ++ ord "/" :: rest). reflexivity. }
    destruct H as (tail & ->).
    unfold split_scheme.
    destruct (find_char (ord ":") (ord "/" :: tail)) as [[|i]|]; reflexivity.
Qed.

Lemma serialised_safe s n p :
  scheme_wf s \/ s = [] -> authority_ok n -> path_ok p ->
  forallb safe_char (serialised s n p) = true /\
  clean_head c0_control_or_space (serialised s n p).
Proof.
  intros Hs (Hn & _) (rest & -> & _ & Hrest).
  assert (Hp : forallb safe_char (ord "/" :: rest) = true).
  { cbn [forallb]. change (safe_char (ord "/")) with true. cbn [andb].
    eapply forallb_weaken; [|exact Hrest]. apply path_char_safe. }
  assert (Ha : forallb safe_char (authority_text s n) = true).
  { unfold authority_text. destruct (_ || _); [|reflexivity].
    rewrite forallb_app. change (forallb safe_char (str "//")) with true.
    cbn [andb]. eapply forallb_weaken; [|exact Hn]. cbv beta.
    intros c Hc. now apply andb_true_iff in Hc as [Hc _]. }
  assert (Hh : clean_head c0_control_or_space
                          (authority_text s n ++ ord "/" :: rest)).
  { unfold authority_text. destruct (_ || _); reflexivity. }
  destruct Hs as [Hwf| ->].
  - pose proof (scheme_wf_facts Hwf) as Hf.
    destruct (scheme_wf_nonempty Hwf) as (c0 & s' & ->).
    rewrite serialised_cons. split.
    + change (ord ":" :: authority_text (c0 :: s') n ++ ord "/" :: rest)
        with ([ord ":"] ++ authority_text (c0 :: s') n ++ ord "/" :: rest).
      rewrite !forallb_app, Ha, Hp.
      change (forallb safe_char [ord ":"]) with true. cbn [andb].
      rewrite andb_true_r.
      eapply forallb_weaken; [|exact Hf].
      unfold scheme_char_fact. intros c Hc.
      repeat (apply andb_true_iff in Hc as [Hc ?]). assumption.
    + cbn [app clean_head]. cbn [forallb] in Hf.
      apply andb_true_iff in Hf as [Hf _]. unfold scheme_char_fact in Hf.
      repeat (apply andb_true_iff in Hf as [Hf ?]).
      now apply negb_true_iff.
  - rewrite serialised_nil. split.
    + now rewrite forallb_app, Ha, Hp.
    + exact Hh.
Qed.

Lemma urlsplit_serialised s n p d :
  scheme_wf s \/ s = [] -> d = [] \/ scheme_wf d ->
  authority_ok n -> path_ok p ->
  urlsplit (serialised s n p) d
  = Ok {| s_scheme := if nonempty s then s else d; s_netloc := n;
          s_path := p; s_query := []; s_fragment := [] |}.
Proof.
  intros Hs Hd Hn Hp.
  destruct (serialised_safe Hs Hn Hp) as [Hsafe Hhead].
  unfold urlsplit.
  rewrite (lstrip_by_fixed _ _ Hhead).
  rewrite (remove_unsafe_fixed _ Hsafe).
  rewrite (scheme_default_fixed Hd).
  rewrite (split_scheme_serialised n d Hs Hp).
  rewrite (split_authority_serialised s Hn Hp). cbn [rbind].
  rewrite (split_at_absent (ord "#"))
    by (apply (path_ok_absent Hp); [reflexivity|discriminate]).
  rewrite (split_at_absent (ord "?"))
    by (apply (path_ok_absent Hp); [reflexivity|discriminate]).
  destruct Hn as (_ & _ & ->). reflexivity.
Qed.

Lemma urlparse_serialised s n p d :
  scheme_wf s \/ s = [] -> d = [] \/ scheme_wf d ->
  authority_ok n -> path_ok p ->
  urlparse (serialised s n p) d
  = Ok {| scheme := if nonempty s then s else d; netloc := n; path := p;
          params := []; query := []; fragment := [] |}.
Proof.
  intros Hs Hd Hn Hp. unfold urlparse.
  rewrite (urlsplit_serialised Hs Hd Hn Hp). cbn [rbind s_scheme s_path].
  rewrite (path_ok_absent Hp (c := ord ";")) by (reflexivity || discriminate).
  now rewrite andb_false_r.
Qed.




Lemma forallb_join (p : N -> bool) sep segments :
  forallb p sep = true ->
  Forall (fun seg => forallb p seg = true) segments ->
  forallb p (join sep segments) = true.
Proof.
  intros Hsep H. induction H as [|seg segments Hseg Hsegs IH]; [reflexivity|].
  destruct segments as [|seg' segments]; [exact Hseg|].
  change (join sep (seg :: seg' :: segments))
    with (seg ++ sep ++ join sep (seg' :: segments)).
  now rewrite !forallb_app, Hseg, Hsep, IH.
Qed.

Lemma plain_segment_parts seg :
  plain_segment seg ->
  forallb path_char seg = true /\ char_in (ord "/") seg = false /\
  hd 0%N seg <> ord "/".
Proof.
  intros (Hne & Hchars & _). repeat split.
  - eapply forallb_weaken; [|exact Hchars]. cbv beta. intros c Hc.
    now apply andb_true_iff in Hc as [Hc _].
  - apply forallb_absent
      with (p := fun c => path_char c && negb (N.eqb (ord "/") c));
      [reflexivity|exact Hchars].
  - destruct seg as [|c seg]; [contradiction|].
    cbn [forallb hd] in *.
    apply andb_true_iff in Hchars as [Hc _].
    apply andb_true_iff in Hc as [_ Hc]. apply negb_true_iff in Hc.
    apply N.eqb_neq in Hc. congruence.
Qed.

Lemma join_head sep seg segments :
  seg <> [] -> hd 0%N (join sep (seg :: segments)) = hd 0%N seg.
Proof.
  intros H. destruct seg as [|c seg]; [contradiction|].
  destruct segments; reflexivity.
Qed.

(** A slash and plain segments joined by slashes make a path. *)
Lemma path_ok_segments segments :
  segments <> [] -> Forall plain_segment segments ->
  path_ok (ord "/" :: join (str "/") segments).
Proof.
  intros Hne H. exists (join (str "/") segments). split; [reflexivity|].
  split.
  - destruct segments as [|seg segments]; [contradiction|].
    inversion H as [|? ? Hseg Hsegs]; subst.
    rewrite join_head by apply Hseg.
    apply (plain_segment_parts Hseg).
  - apply forallb_join; [reflexivity|].
    eapply Forall_impl; [|exact H]. intros seg Hseg.
    apply (plain_segment_parts Hseg).
Qed.

Lemma last_in {A} (l : list A) d : l <> [] -> In (last l d) l.
Proof.
  induction l as [|x l IH]; [contradiction|]. intros _.
  destruct l as [|y l]; [now left|].
  right. apply IH. discriminate.
Qed.

End UrlFacts.

(** ** Relative references *)

Section ReferenceFacts.
Context {R : Runtime}.
Import Url MedicosDocScraper.






End ReferenceFacts.

Section ReferenceParsing.
Context {R : Runtime}.
Import Url MedicosDocScraper.













End ReferenceParsing.

Section ReferenceResolution.
Context {R : Runtime}.
Import Url MedicosDocScraper.











End ReferenceResolution.

(** ** Record mapper *)

Section MapperProperties.
Context {R : Runtime}.
Import Url MedicosDocScraper.

Lemma get_ok_field v k x : get v k = Ok x -> is_dict v = true /\ x = field v k.
Proof.
  destruct v; try discriminate.
  simpl. intros H. injection H as <-. split; reflexivity.
Qed.

Lemma falsy_field_empty v k : falsy v -> field v k = JNull.
Proof.
  unfold falsy. destruct v as [| | | | | |[|kv d]]; try reflexivity.
  discriminate.
Qed.

Lemma or_empty_strip_text v :
  optional_text v = true -> or_empty_strip v = Ok (strip (text_or_empty v)).
Proof.
  intros H. unfold or_empty_strip, py_or.
  destruct (optional_text_cases _ H) as [[Hf _]|(c & s & ->)].
  - rewrite Hf. simpl. destruct v as [| | | |[|c s]| |]; try reflexivity.
    discriminate.
  - reflexivity.
Qed.

Lemma build_name_shaped doctor :
  is_dict doctor = true ->
  optional_text (field doctor (str "Name")) = true ->
  optional_text (field doctor (str "LastName")) = true ->
  _build_name doctor = Ok (full_name doctor).
Proof.
  intros Hd Hn Hl. unfold _build_name.
  rewrite !(get_is_dict _ _ Hd). cbn [rbind].
  rewrite (or_empty_strip_text _ Hn). cbn [rbind].
  rewrite (or_empty_strip_text _ Hl). reflexivity.
Qed.

(** The serialised root: scheme, authority, and the path [/]. *)
Lemma urlunparse_root s n :
  urlunparse s n (str "/") [] [] []
  = (if nonempty s then s ++ str ":" else [])
    ++ (if nonempty n || nonempty s && mem s uses_netloc
        then str "//" ++ n else [])
    ++ str "/".
Proof.
  unfold urlunparse, urlunsplit.
  change (nonempty []) with false. cbv iota.
  change (negb (str_eqb (firstn 2 (str "/")) (str "//"))) with true.
  change (nonempty (str "/") && negb (str_eqb (firstn 1 (str "/")) (str "/")))
    with false.
  cbv iota. rewrite andb_true_r.
  destruct (nonempty s); destruct (nonempty n || _);
    rewrite <- ?app_assoc; reflexivity.
Qed.

(** The scheme+host root ends with a slash; in particular it is not
    empty. *)
Lemma base_root_slash url root :
  _base_root url = Ok root -> exists prefix, root = prefix ++ str "/".
Proof.
  unfold _base_root. intros H. bind_inversion H.
  injection H as <-. rewrite urlunparse_root.
  eexists. rewrite app_assoc. reflexivity.
Qed.

Lemma join_photo_falsy root photos :
  (exists prefix, root = prefix ++ str "/") ->
  falsy photos ->
  join_photo root photos = Ok root.
Proof.
  intros (prefix & ->) Hf. unfold join_photo, py_or. rewrite Hf.
  unfold empty_str, urljoin.
  replace (nonempty (prefix ++ str "/")) with true; [reflexivity|].
  unfold nonempty. rewrite length_app. cbn.
  now rewrite Nat.add_comm.
Qed.

(** On a shaped entry [to_record] builds the record of the
    specification. *)
Lemma to_record_shaped doctor url root photo_url :
  record_shaped doctor = true ->
  _base_root url = Ok root ->
  join_photo root (field doctor (str "Photos")) = Ok photo_url ->
  to_record doctor url = Ok (normalized_record doctor photo_url).
Proof.
  unfold record_shaped. intros H Hroot Hphoto.
  apply andb_true_iff in H as [H Hratings].
  apply andb_true_iff in H as [H Hlast].
  apply andb_true_iff in H as [H Hname].
  apply andb_true_iff in H as [H Hdescriptor].
  apply andb_true_iff in H as [H Hsub].
  apply andb_true_iff in H as [H Hcity].
  apply andb_true_iff in H as [Hdict Hhead].
  unfold to_record, headquarters, ratings_summary in *.
  rewrite !(get_is_dict _ _ Hdict). cbn [rbind].
  rewrite !(get_optional_dict _ _ Hsub). cbn [rbind].
  fold (category_descriptor doctor).
  rewrite !(get_optional_dict _ _ Hdescriptor). cbn [rbind].
  assert (Hspecialty :
            (if truthy (field (category_descriptor doctor)
                              (str "SpecialityNameEnglish"))
             then Ok (field (category_descriptor doctor)
                            (str "SpecialityNameEnglish"))
             else Ok (py_or (field (category_descriptor doctor)
                                   (str "SpecialityName")) empty_str))
            = Ok (py_or (field (category_descriptor doctor)
                               (str "SpecialityNameEnglish"))
                        (py_or (field (category_descriptor doctor)
                                      (str "SpecialityName")) (JStr [])))).
  { unfold py_or at 2. now destruct (truthy _). }
  rewrite Hspecialty. cbn [rbind]. clear Hspecialty.
  rewrite Hroot. cbn [rbind].
  assert (Hid :
            (if truthy (field doctor (str "ShortId"))
             then Ok (field doctor (str "ShortId"))
             else Ok (field doctor (str "_id")))
            = Ok (py_or (field doctor (str "ShortId"))
                        (field doctor (str "_id")))).
  { unfold py_or. now destruct (truthy _). }
  rewrite Hid. cbn [rbind]. clear Hid.
  rewrite (build_name_shaped _ Hdict Hname Hlast). cbn [rbind].
  rewrite !(get_optional_dict _ _ Hhead). cbn [rbind].
  rewrite !(get_optional_dict _ _ Hcity). cbn [rbind].
  assert (Hservices :
            (if truthy (field doctor (str "HighlightedServicesEnglish"))
             then Ok (field doctor (str "HighlightedServicesEnglish"))
             else Ok (field doctor (str "HighlightedServices")))
            = Ok (py_or (field doctor (str "HighlightedServicesEnglish"))
                        (field doctor (str "HighlightedServices")))).
  { unfold py_or. now destruct (truthy _). }
  rewrite Hservices. cbn [rbind]. clear Hservices.
  rewrite !(get_optional_dict _ _ Hratings). cbn [rbind].
  rewrite Hphoto. cbn [rbind].
  reflexivity.
Qed.

(** What [to_record] puts under photo_url, whenever it returns. *)
Lemma to_record_photo doctor url record :
  to_record doctor url = Ok record ->
  exists root photo_url,
    _base_root url = Ok root /\
    is_dict doctor = true /\
    join_photo root (field doctor (str "Photos")) = Ok photo_url /\
    lookup (str "photo_url") record = Some (JStr photo_url).
Proof.
  intros H. unfold to_record in H. bind_inversion H.
  injection H as <-.
  match goal with
  | Hg : get doctor (str "Photos") = Ok _ |- _ =>
      apply get_ok_field in Hg as [Hd ->]
  end.
  eexists _, _. repeat split; eassumption.
Qed.

(** C3, as amended.  On an entry of the data model's shape whose photo
    path resolves, [to_record] returns a record with the thirteen fields.
    An absent headquarters descriptor gives null city, address,
    medical_center and office; an absent ratings summary gives null
    rating_average and rating_count.  An absent category descriptor gives
    the empty specialty, absent names the empty name, an absent premium
    flag false, and an absent photo path the root URL. *)
Theorem to_record_total (doctor : json) (url root photo_url : pystr) :
  record_shaped doctor = true ->
  _base_root url = Ok root ->
  join_photo root (field doctor (str "Photos")) = Ok photo_url ->
  exists record,
    to_record doctor url = Ok record /\
    map fst record = fieldnames /\
    (falsy (headquarters doctor) ->
     lookup (str "city") record = Some JNull /\
     lookup (str "address") record = Some JNull /\
     lookup (str "medical_center") record = Some JNull /\
     lookup (str "office") record = Some JNull) /\
    (falsy (ratings_summary doctor) ->
     lookup (str "rating_average") record = Some JNull /\
     lookup (str "rating_count") record = Some JNull) /\
    (falsy (category_descriptor doctor) ->
     lookup (str "specialty") record = Some (JStr [])) /\
    (falsy (field doctor (str "Name")) ->
     falsy (field doctor (str "LastName")) ->
     lookup (str "name") record = Some (JStr [])) /\
    (falsy (field doctor (str "Premium")) ->
     lookup (str "premium") record = Some (JBool false)) /\
    (falsy (field doctor (str "Photos")) ->
     lookup (str "photo_url") record = Some (JStr root)).
Proof.
  intros Hshape Hroot Hphoto.
  exists (normalized_record doctor photo_url).
  split; [now apply to_record_shaped with (root := root)|].
  split; [reflexivity|].
  unfold normalized_record.
  repeat split.
  - change (lookup (str "city") _)
      with (Some (field (field (headquarters doctor) (str "CityId"))
                        (str "Name"))).
    now rewrite (falsy_field_empty (str "CityId") H).
  - change (lookup (str "address") _)
      with (Some (field (headquarters doctor) (str "Address"))).
    now rewrite (falsy_field_empty _ H).
  - change (lookup (str "medical_center") _)
      with (Some (field (headquarters doctor) (str "MedicalCenter"))).
    now rewrite (falsy_field_empty _ H).
  - change (lookup (str "office") _)
      with (Some (field (headquarters doctor) (str "Office"))).
    now rewrite (falsy_field_empty _ H).
  - change (lookup (str "rating_average") _)
      with (Some (field (ratings_summary doctor) (str "averageRating"))).
    now rewrite (falsy_field_empty _ H).
  - change (lookup (str "rating_count") _)
      with (Some (field (ratings_summary doctor) (str "numberOfRatings"))).
    now rewrite (falsy_field_empty _ H).
  - intros H.
    change (lookup (str "specialty") _)
      with (Some (py_or (field (category_descriptor doctor)
                               (str "SpecialityNameEnglish"))
                        (py_or (field (category_descriptor doctor)
                                      (str "SpecialityName")) (JStr [])))).
    now rewrite !(falsy_field_empty _ H).
  - intros Hn Hl.
    change (lookup (str "name") _) with (Some (JStr (full_name doctor))).
    unfold full_name.
    assert (He : forall v, falsy v -> strip (text_or_empty v) = []).
    { intros v Hv. destruct v as [| | | |[|c s]| |]; try reflexivity.
      discriminate. }
    now rewrite (He _ Hn), (He _ Hl).
  - intros H.
    change (lookup (str "premium") _)
      with (Some (JBool (truthy (field doctor (str "Premium"))))).
    now rewrite H.
  - intros H.
    change (lookup (str "photo_url") _) with (Some (JStr photo_url)).
    rewrite (join_photo_falsy (base_root_slash _ Hroot) H) in Hphoto.
    now injection Hphoto as <-.
Qed.

(** [_base_root] puts the scheme and the netloc of the directory URL in
    front of a slash. *)
Lemma base_root_text url parsed :
  urlparse url [] = Ok parsed ->
  _base_root url = Ok (serialised (scheme parsed) (netloc parsed) (str "/")).
Proof.
  intros H. unfold _base_root. rewrite H. cbn [rbind].
  now rewrite urlunparse_root.
Qed.

(** C8.  When the photo path is absent, empty or otherwise falsy, the
    photo_url of every record [to_record] returns is the scheme+host root
    of the directory URL, not null: the text made of the URL's scheme, its
    netloc and a slash, which for a scheme that takes a netloc (http and
    https are such) reads scheme://netloc/.  On a shaped entry [to_record]
    does return a record. *)
Theorem to_record_photo_defaults_to_root (doctor : json) (url : pystr)
  (parsed : ParseResult) :
  falsy (field doctor (str "Photos")) ->
  urlparse url [] = Ok parsed ->
  let root := serialised (scheme parsed) (netloc parsed) (str "/") in
  (nonempty (scheme parsed) = true ->
   mem (scheme parsed) uses_netloc = true ->
   root = scheme parsed ++ str "://" ++ netloc parsed ++ str "/") /\
  (forall record,
      to_record doctor url = Ok record ->
      lookup (str "photo_url") record = Some (JStr root) /\
      lookup (str "photo_url") record <> Some JNull) /\
  (record_shaped doctor = true ->
   to_record doctor url = Ok (normalized_record doctor root)).
Proof.
  intros Hphotos Hparsed root.
  pose proof (base_root_text _ Hparsed) as Hroot. fold root in Hroot.
  split; [|split].
  - intros Hs Hnet. unfold root, serialised, authority_text.
    rewrite Hs, Hnet, orb_true_r. cbn [andb].
    now rewrite <- !app_assoc.
  - intros record H.
    destruct (to_record_photo _ _ H) as (root' & p & Hr & _ & Hj & Hl).
    rewrite Hroot in Hr. injection Hr as <-.
    rewrite (join_photo_falsy (base_root_slash _ Hroot) Hphotos) in Hj.
    injection Hj as <-. split; [exact Hl|]. rewrite Hl. discriminate.
  - intros Hshape. apply to_record_shaped with (root := root); auto.
    apply join_photo_falsy; [eapply base_root_slash; eassumption|assumption].
Qed.

End MapperProperties.

Section MapperExamples.
#[local] Existing Instance paged_runtime.
Import Url MedicosDocScraper.

Lemma to_record_total_witness :
  exists record,
    to_record full_doctor sample_url = Ok record /\
    lookup (str "name") record = Some (JStr (str "Ana Mora")) /\
    lookup (str "city") record = Some (JStr (str "Cali")) /\
    lookup (str "office") record = Some JNull /\
    lookup (str "rating_count") record = Some JNull /\
    lookup (str "specialty") record = Some (JStr []) /\
    lookup (str "premium") record = Some (JBool true) /\
    lookup (str "photo_url") record
    = Some (JStr (str "https://example.com/img/x.jpg")).
Proof.
  destruct (@to_record_total paged_runtime full_doctor sample_url
              (str "https://example.com/")
              (str "https://example.com/img/x.jpg")
              eq_refl eq_refl eq_refl)
    as (record & Hrecord & _ & _ & Hratings & Hspecialty & _).
  exists record. split; [exact Hrecord|].
  assert (Heq : record = normalized_record full_doctor
                           (str "https://example.com/img/x.jpg")).
  { assert (H : to_record full_doctor sample_url
                = Ok (normalized_record full_doctor
                        (str "https://example.com/img/x.jpg")))
      by reflexivity.
    rewrite H in Hrecord. now injection Hrecord. }
  subst record. repeat split; reflexivity.
Defined.

(** C3 as stated fails on the empty entry: every optional substructure is
    absent, and the specialty, the name, the premium flag and the photo URL
    of the record are not null. *)
Lemma to_record_empty_entry :
  exists record,
    to_record (JObj []) sample_url = Ok record /\
    lookup (str "specialty") record = Some (JStr []) /\
    lookup (str "name") record = Some (JStr []) /\
    lookup (str "premium") record = Some (JBool false) /\
    lookup (str "photo_url") record = Some (JStr (str "https://example.com/")) /\
    lookup (str "specialty") record <> Some JNull.
Proof.
  eexists. split; [reflexivity|].
  repeat split; try reflexivity. discriminate.
Qed.

Lemma to_record_photo_defaults_to_root_witness :
  to_record (photo_doctor []) sample_url
  = Ok (normalized_record (photo_doctor []) (str "https://example.com/")) /\
  to_record (JObj []) other_url
  = Ok (normalized_record (JObj []) (str "http://other.org:8080/")).
Proof.
  split.
  - destruct (@to_record_photo_defaults_to_root paged_runtime
                (photo_doctor []) sample_url sample_parsed eq_refl eq_refl)
      as (_ & _ & Hshaped).
    now apply Hshaped.
  - destruct (@to_record_photo_defaults_to_root paged_runtime
                (JObj []) other_url
                {| scheme := str "http"; netloc := str "other.org:8080";
                   path := str "/dir/"; params := []; query := str "page=2";
                   fragment := [] |} eq_refl eq_refl)
      as (_ & _ & Hshaped).
    now apply Hshaped.
Defined.

End MapperExamples.

(** ** Photo URLs *)

Section PhotoUrl.
Context {R : Runtime}.
Import Url MedicosDocScraper.


Lemma root_parse s n :
  scheme_wf s \/ s = [] -> authority_ok n ->
  urlparse (serialised s n (str "/")) []
  = Ok {| scheme := s; netloc := n; path := str "/";
          params := []; query := []; fragment := [] |}.
Proof.
  intros Hs Hn.
  rewrite (urlparse_serialised (d := []) Hs (or_introl eq_refl) Hn
             path_ok_root).
  destruct Hs as [Hwf| ->]; [|reflexivity].
  destruct (scheme_wf_nonempty Hwf) as (c0 & s' & ->). reflexivity.
Qed.












End PhotoUrl.

Section PhotoExamples.
#[local] Existing Instance paged_runtime.
Import Url MedicosDocScraper.



End PhotoExamples.

(** ** Writer *)

Section CsvReaderFacts.
Import Csv CsvReader.

(** The characters that force quotes. *)
Lemma needs_quotes_cons c s :
  needs_quotes (c :: s) = false ->
  N.eqb c delimiter = false /\ N.eqb c quotechar = false /\
  N.eqb c CR = false /\ N.eqb c LF = false /\ needs_quotes s = false.
Proof.
  unfold needs_quotes. cbn [existsb char_in lineterminator].
  intros H. apply orb_false_iff in H as [H Hs].
  apply orb_false_iff in H as [H Hl].
  apply orb_false_iff in H as [Hd Hq].
  apply orb_false_iff in Hl as [Hcr Hl].
  apply orb_false_iff in Hl as [Hlf _].
  repeat split; assumption.
Qed.

Lemma read_unquoted row cur s rest :
  needs_quotes s = false ->
  read Unquoted row cur (s ++ rest) = read Unquoted row (rev s ++ cur) rest.
Proof.
  revert cur. induction s as [|c s IH]; intros cur H; [reflexivity|].
  apply needs_quotes_cons in H as (Hd & Hq & Hcr & Hlf & Hs).
  cbn [app read]. rewrite Hd, Hcr, Hlf.
  rewrite IH by exact Hs. cbn [rev]. now rewrite <- app_assoc.
Qed.

Lemma read_quoted row cur s rest :
  read Quoted row cur (doubled s ++ rest) = read Quoted row (rev s ++ cur) rest.
Proof.
  revert cur. induction s as [|c s IH]; intros cur; [reflexivity|].
  unfold doubled. cbn [flat_map]. fold (doubled s).
  destruct (N.eqb c quotechar) eqn:Hq.
  - cbn [app read]. rewrite Hq.
    rewrite IH. cbn [rev]. now rewrite <- app_assoc.
  - cbn [app read]. rewrite Hq.
    rewrite IH. cbn [rev]. now rewrite <- app_assoc.
Qed.

(** A cell followed by the delimiter, read at the start of a row or of a
    field. *)
Lemma read_cell_delimiter m row s rest :
  m = RowStart \/ m = FieldStart ->
  read m row [] (quote_field s ++ delimiter :: rest)
  = read FieldStart (s :: row) [] rest.
Proof.
  intros Hm. unfold quote_field.
  destruct (needs_quotes s) eqn:Hn.
  - fold (doubled s).
    assert (H : read m row [] ([quotechar] ++ doubled s ++ [quotechar]
                               ++ delimiter :: rest)
                = read Quoted row [] (doubled s ++ [quotechar]
                                      ++ delimiter :: rest))
      by (destruct Hm as [-> | ->]; reflexivity).
    rewrite <- !app_assoc. rewrite H, read_quoted.
    cbn. now rewrite app_nil_r, rev_involutive.
  - destruct s as [|c s].
    + destruct Hm as [-> | ->]; reflexivity.
    + apply needs_quotes_cons in Hn as (Hd & Hq & Hcr & Hlf & Hs).
      assert (H : read m row [] ((c :: s) ++ delimiter :: rest)
                  = read Unquoted row [c] (s ++ delimiter :: rest))
        by (destruct Hm as [-> | ->]; cbn [app read];
            now rewrite Hcr, Hlf, Hq, Hd).
      rewrite H, read_unquoted by exact Hs.
      cbn [read]. rewrite N.eqb_refl.
      rewrite rev_app_distr. cbn [rev app]. now rewrite rev_involutive.
Qed.

(** The last cell of a row and the line terminator. *)
Lemma read_cell_terminator row s rest :
  read FieldStart row [] (quote_field s ++ lineterminator ++ rest)
  = rev (s :: row) :: read RowStart [] [] rest.
Proof.
  unfold quote_field.
  destruct (needs_quotes s) eqn:Hn.
  - fold (doubled s). rewrite <- !app_assoc.
    change ([quotechar] ++ doubled s ++ [quotechar] ++ lineterminator ++ rest)
      with (quotechar :: (doubled s ++ [quotechar] ++ lineterminator ++ rest)).
    cbn [read]. change (N.eqb quotechar LF) with false.
    change (N.eqb quotechar CR) with false. rewrite N.eqb_refl. cbv iota.
    rewrite read_quoted.
    cbn. now rewrite app_nil_r, rev_involutive.
  - destruct s as [|c s]; [reflexivity|].
    apply needs_quotes_cons in Hn as (Hd & Hq & Hcr & Hlf & Hs).
    cbn [app read]. rewrite Hcr, Hlf, Hq, Hd.
    rewrite read_unquoted by exact Hs.
    cbn. rewrite rev_app_distr. cbn [rev app]. now rewrite rev_involutive.
Qed.

Lemma format_row_cons cell cell' cells :
  format_row (cell :: cell' :: cells)
  = quote_field cell ++ delimiter :: format_row (cell' :: cells).
Proof. unfold format_row. cbn [map join]. now rewrite <- !app_assoc. Qed.

Lemma read_row_fields row cells rest :
  cells <> [] ->
  read FieldStart row [] (format_row cells ++ rest)
  = (rev row ++ cells) :: read RowStart [] [] rest.
Proof.
  revert row. induction cells as [|cell cells IH]; intros row Hne;
    [contradiction|].
  destruct cells as [|cell' cells].
  - unfold format_row. cbn [map join]. rewrite <- app_assoc.
    rewrite read_cell_terminator. reflexivity.
  - rewrite format_row_cons. rewrite <- app_assoc, <- app_comm_cons.
    rewrite read_cell_delimiter by now right.
    rewrite IH by discriminate. cbn [rev]. now rewrite <- app_assoc.
Qed.

(** Reading back a line of two cells or more gives its cells. *)
Lemma read_row cells rest :
  (2 <= List.length cells)%nat ->
  read RowStart [] [] (format_row cells ++ rest)
  = cells :: read RowStart [] [] rest.
Proof.
  destruct cells as [|cell [|cell' cells]]; cbn [List.length]; try lia.
  intros _. rewrite format_row_cons. rewrite <- app_assoc, <- app_comm_cons.
  rewrite read_cell_delimiter by now left.
  rewrite read_row_fields by discriminate. reflexivity.
Qed.

(** Reading back the text of a table gives the table. *)
Lemma rows_of_table (table : list (list pystr)) :
  Forall (fun row => (2 <= List.length row)%nat) table ->
  rows (flat_map format_row table) = table.
Proof.
  unfold rows. induction 1 as [|row table Hrow Htable IH]; [reflexivity|].
  cbn [flat_map]. rewrite read_row by exact Hrow. now rewrite IH.
Qed.

End CsvReaderFacts.

Section WriterProperties.
Context {R : Runtime}.
Variable w : world.

Lemma row_cells_record record :
  is_normalized_record record ->
  Csv.row_cells fieldnames record = Ok (record_cells record).
Proof.
  intros (d & -> & Hkeys). unfold Csv.row_cells, Csv._dict_to_list.
  rewrite Hkeys.
  change (existsb (fun k => negb (Url.mem k fieldnames)) fieldnames)
    with false.
  cbn [rbind]. f_equal. unfold record_cells. rewrite map_map.
  apply map_ext. intros key. cbn [field].
  now destruct (lookup key d).
Qed.

(** The characters of a line: those of its cells, and the delimiter, the
    quote and the line terminator. *)
Lemma forallb_doubled (p : N -> bool) s :
  forallb p (flat_map (fun c => if N.eqb c Csv.quotechar then [c; c] else [c]) s)
  = forallb p s.
Proof.
  induction s as [|c s IH]; [reflexivity|].
  cbn [flat_map forallb].
  destruct (N.eqb c Csv.quotechar); cbn [app forallb]; rewrite IH;
    [now destruct (p c)|reflexivity].
Qed.

Lemma forallb_quote_field (p : N -> bool) s :
  p Csv.quotechar = true -> forallb p (Csv.quote_field s) = forallb p s.
Proof.
  intros Hq. unfold Csv.quote_field.
  destruct (Csv.needs_quotes s); [|reflexivity].
  rewrite !forallb_app, forallb_doubled. cbn [forallb].
  rewrite Hq. cbn [andb]. apply andb_true_r.
Qed.

Lemma forallb_join_parts (p : N -> bool) sep parts :
  forallb p sep = true ->
  forallb p (join sep parts) = forallb (forallb p) parts.
Proof.
  intros Hsep. induction parts as [|part parts IH]; [reflexivity|].
  destruct parts as [|part' parts].
  - cbn. now rewrite andb_true_r.
  - change (join sep (part :: part' :: parts))
      with (part ++ sep ++ join sep (part' :: parts)).
    rewrite !forallb_app, Hsep, IH. reflexivity.
Qed.

Lemma forallb_format_row (p : N -> bool) cells :
  p Csv.delimiter = true -> p Csv.quotechar = true ->
  forallb p Csv.lineterminator = true ->
  forallb p (Csv.format_row cells) = forallb (forallb p) cells.
Proof.
  intros Hd Hq Hl. unfold Csv.format_row.
  rewrite forallb_app, Hl, andb_true_r.
  rewrite forallb_join_parts by (cbn; now rewrite Hd).
  induction cells as [|cell cells IH]; [reflexivity|].
  cbn [map forallb]. now rewrite IH, forallb_quote_field.
Qed.

(** A stream takes a line exactly when it takes its cells. *)
Lemma stream_takes_row dest cells :
  stream_takes dest (Csv.format_row cells) = forallb (stream_takes dest) cells.
Proof. now apply forallb_format_row. Qed.

Lemma run_writerow dest record :
  is_normalized_record record ->
  row_taken dest record = true ->
  run w (Csv.writerow dest fieldnames record)
  = ([EvWrite dest (Csv.format_row (record_cells record))], Ok tt).
Proof.
  intros H Htaken. unfold Csv.writerow. rewrite (row_cells_record H).
  cbn [lift bind]. rewrite write_taken; [reflexivity|].
  fold (stream_takes dest (Csv.format_row (record_cells record))).
  now rewrite stream_takes_row.
Qed.

Lemma run_writerow_refused dest record :
  is_normalized_record record ->
  row_taken dest record = false ->
  exists message,
    run w (Csv.writerow dest fieldnames record)
    = ([], Err (UnicodeEncodeError message)).
Proof.
  intros H Hrefused. unfold Csv.writerow. rewrite (row_cells_record H).
  cbn [lift bind].
  destruct (@write_rejected _ dest (Csv.format_row (record_cells record)))
    as [message ->]; [|now exists message].
  fold (stream_takes dest (Csv.format_row (record_cells record))).
  now rewrite stream_takes_row.
Qed.

(** The header is ASCII. *)
Lemma run_writeheader dest :
  run w (Csv.writeheader dest fieldnames)
  = ([EvWrite dest (Csv.format_row fieldnames)], Ok tt).
Proof.
  unfold Csv.writeheader, Csv.writerow.
  change (Csv.row_cells fieldnames (JObj (map (fun f => (f, JStr f)) fieldnames)))
    with (Ok fieldnames).
  cbn [lift bind]. now rewrite write_ascii.
Qed.

Lemma row_events_flat dest (records : list json) :
  flat_map (fun record =>
              [EvWrite dest (Csv.format_row (record_cells record))]) records
  = map (fun row => EvWrite dest (Csv.format_row row))
        (map record_cells records).
Proof.
  induction records as [|record records IH]; [reflexivity|].
  cbn [flat_map map app]. now rewrite IH.
Qed.

Lemma run_writerows dest records :
  Forall is_normalized_record records ->
  forallb (row_taken dest) records = true ->
  run w (Csv.writerows dest fieldnames records)
  = (map (fun row => EvWrite dest (Csv.format_row row))
         (map record_cells records), Ok tt).
Proof.
  intros Hrecords Htaken. unfold Csv.writerows.
  rewrite (run_for_each w _
             (fun record => [EvWrite dest
                               (Csv.format_row (record_cells record))])).
  - now rewrite row_events_flat.
  - intros record Hin. rewrite Forall_forall in Hrecords.
    rewrite forallb_forall in Htaken.
    apply run_writerow; auto.
Qed.

(** The rows before the first one the stream does not take are written. *)
Lemma run_writerows_refused dest good bad rest :
  Forall is_normalized_record good -> is_normalized_record bad ->
  forallb (row_taken dest) good = true ->
  row_taken dest bad = false ->
  exists message,
    run w (Csv.writerows dest fieldnames (good ++ bad :: rest))
    = (map (fun row => EvWrite dest (Csv.format_row row))
           (map record_cells good),
       Err (UnicodeEncodeError message)).
Proof.
  intros Hgood Hbad Htaken Hrefused.
  destruct (run_writerow_refused dest Hbad Hrefused) as [message Hrun].
  exists message. unfold Csv.writerows.
  rewrite (run_for_each_stops w _
             (fun record => [EvWrite dest
                               (Csv.format_row (record_cells record))])
             good bad rest (t := []) (e := UnicodeEncodeError message)).
  - now rewrite app_nil_r, row_events_flat.
  - intros record Hin. rewrite Forall_forall in Hgood.
    rewrite forallb_forall in Htaken.
    apply run_writerow; auto.
  - exact Hrun.
Qed.

Lemma written_rows dest (table : list (list pystr)) :
  written dest (map (fun row => EvWrite dest (Csv.format_row row)) table)
  = flat_map Csv.format_row table.
Proof.
  induction table as [|row table IH]; [reflexivity|].
  cbn [map]. unfold written in *. cbn [flat_map]. rewrite IH. f_equal.
  destruct dest as [path|]; [|reflexivity].
  now rewrite str_eqb_refl.
Qed.

Lemma written_app dest t t' :
  written dest (t ++ t') = written dest t ++ written dest t'.
Proof. apply flat_map_app. Qed.

Lemma written_csv_events destination table :
  written (given destination) (csv_events destination table)
  = flat_map Csv.format_row table.
Proof.
  unfold csv_events.
  destruct (given destination) as [path|]; [|apply written_rows].
  change (written (Some path) (EvOpen path :: ?t)) with (written (Some path) t).
  rewrite written_app, written_rows. apply app_nil_r.
Qed.

Lemma written_unfinished destination table :
  written (given destination) (unfinished_csv_events destination table)
  = flat_map Csv.format_row table.
Proof.
  unfold unfinished_csv_events.
  destruct (given destination) as [path|]; [|apply written_rows].
  change (written (Some path) (EvOpen path :: ?t)) with (written (Some path) t).
  apply written_rows.
Qed.

Lemma record_cells_length record : List.length (record_cells record) = 13%nat.
Proof. unfold record_cells. now rewrite length_map. Qed.

Lemma csv_table_width records :
  Forall (fun row => List.length row = 13%nat) (csv_table records).
Proof.
  unfold csv_table. constructor; [reflexivity|].
  apply Forall_map, Forall_forall. intros r _. apply record_cells_length.
Qed.

Lemma rows_of_csv_table records :
  CsvReader.rows (flat_map Csv.format_row (csv_table records))
  = csv_table records.
Proof.
  apply rows_of_table.
  eapply Forall_impl; [|apply csv_table_width]. cbv beta. intros row ->. lia.
Qed.

(** The run of the CSV branch when the stream takes every row. *)
Lemma run_write_output_csv records output_format destination :
  output_format <> str "json" ->
  Forall is_normalized_record records ->
  forallb (row_taken (given destination)) records = true ->
  run w (write_output records output_format destination)
  = (csv_events destination (csv_table records), Ok tt).
Proof.
  intros Hformat Hrecords Htaken. unfold write_output.
  rewrite (str_eqb_neq Hformat).
  unfold csv_events, csv_table.
  destruct (given destination) as [path|].
  - rewrite run_bind. cbn [run then_run].
    rewrite run_bind, run_writeheader. cbn [then_run].
    rewrite run_bind, (run_writerows _ Hrecords Htaken). cbn [then_run run].
    reflexivity.
  - rewrite run_bind, run_writeheader. cbn [then_run].
    now rewrite (run_writerows _ Hrecords Htaken).
Qed.

(** Its run up to a row the stream does not take. *)
Lemma run_write_output_refused good bad rest output_format destination :
  output_format <> str "json" ->
  Forall is_normalized_record good -> is_normalized_record bad ->
  forallb (row_taken (given destination)) good = true ->
  row_taken (given destination) bad = false ->
  exists message,
    run w (write_output (good ++ bad :: rest) output_format destination)
    = (unfinished_csv_events destination (csv_table good),
       Err (UnicodeEncodeError message)).
Proof.
  intros Hformat Hgood Hbad Htaken Hrefused. unfold write_output.
  rewrite (str_eqb_neq Hformat).
  unfold unfinished_csv_events, csv_table.
  destruct (given destination) as [path|].
  - destruct (@run_writerows_refused (Some path) good bad rest
                Hgood Hbad Htaken Hrefused) as [message Hrun].
    exists message.
    rewrite run_bind. cbn [run then_run].
    rewrite run_bind, run_writeheader. cbn [then_run].
    rewrite run_bind, Hrun. reflexivity.
  - destruct (@run_writerows_refused None good bad rest
                Hgood Hbad Htaken Hrefused) as [message Hrun].
    exists message.
    rewrite run_bind, run_writeheader. cbn [then_run].
    now rewrite Hrun.
Qed.

(** C6, as amended.  For every list of normalized records, whatever their
    values, the table of the CSV output has the thirteen field names, in
    their fixed order, as its first row and then one row of thirteen cells
    per record, in input order.  When the encoding of the stream takes the
    text of every cell (for a file that is UTF-8, which takes everything
    but an unpaired surrogate), the CSV branch of [write_output] writes the
    header line and one line per record and returns; read back, the text
    is that table.  At the first record with a cell the encoding does not
    take, it raises UnicodeEncodeError: the header and the rows of the
    records before it have been written, and nothing after them. *)
Theorem write_output_csv_table (records : list json)
  (output_format : pystr) (destination : option pystr) :
  output_format <> str "json" ->
  Forall is_normalized_record records ->
  let stream := given destination in
  (hd [] (csv_table records) = fieldnames /\
   List.length fieldnames = 13%nat /\
   Forall (fun row => List.length row = 13%nat) (csv_table records) /\
   List.length (csv_table records) = S (List.length records) /\
   (forall i record,
       nth_error records i = Some record ->
       nth_error (csv_table records) (S i) = Some (record_cells record))) /\
  (forallb (row_taken stream) records = true ->
   let trace := csv_events destination (csv_table records) in
   run w (write_output records output_format destination) = (trace, Ok tt) /\
   CsvReader.rows (written stream trace) = csv_table records) /\
  (forall good bad rest,
      records = good ++ bad :: rest ->
      forallb (row_taken stream) good = true ->
      row_taken stream bad = false ->
      let trace := unfinished_csv_events destination (csv_table good) in
      (exists message,
          run w (write_output records output_format destination)
          = (trace, Err (UnicodeEncodeError message))) /\
      CsvReader.rows (written stream trace) = csv_table good).
Proof.
  intros Hformat Hrecords stream. split; [|split].
  - repeat split.
    + apply csv_table_width.
    + unfold csv_table. cbn [List.length]. now rewrite length_map.
    + intros i record Hi. unfold csv_table. cbn [nth_error].
      now rewrite nth_error_map, Hi.
  - intros Htaken trace. split.
    + now apply run_write_output_csv.
    + unfold trace, stream. rewrite written_csv_events.
      apply rows_of_csv_table.
  - intros good bad rest -> Htaken Hrefused trace. split.
    + apply Forall_app in Hrecords as [Hgood Hrest].
      inversion Hrest as [|? ? Hbad _]; subst.
      now apply run_write_output_refused.
    + unfold trace, stream. rewrite written_unfinished.
      apply rows_of_csv_table.
Qed.

End WriterProperties.

Section WriterExamples.
#[local] Existing Instance paged_runtime.

(** Two records, the second with every optional field absent: three rows
    of thirteen cells. *)
Lemma write_output_csv_table_witness :
  let records :=
    [ JObj (normalized_record full_doctor
                              (str "https://example.com/img/x.jpg"));
      JObj (normalized_record (JObj []) (str "https://example.com/")) ] in
  forallb (row_taken None) records = true /\
  CsvReader.rows
    (written None
             (fst (run sample_world (write_output records (str "csv") None))))
  = [ fieldnames;
      map str [ "d-17"; "Ana Mora"; EmptyString; "Cali"; "Calle 5";
                EmptyString; EmptyString; EmptyString; EmptyString; "True";
                EmptyString; EmptyString;
                "https://example.com/img/x.jpg" ]%string;
      map str [ EmptyString; EmptyString; EmptyString; EmptyString;
                EmptyString; EmptyString; EmptyString; EmptyString;
                EmptyString; "False"; EmptyString; EmptyString;
                "https://example.com/" ]%string ].
Proof.
  intros records. split; [reflexivity|].
  destruct (@write_output_csv_table paged_runtime sample_world records
              (str "csv") None)
    as (_ & Htaken & _).
  - discriminate.
  - repeat constructor; eexists; split; reflexivity.
  - destruct (Htaken eq_refl) as [Hrun Hrows].
    rewrite Hrun. cbn [fst]. exact Hrows.
Defined.

(** C6 as stated fails on a record whose text holds an unpaired surrogate:
    the file is opened, the header and the row of the first record are
    written, and the row of the second raises UnicodeEncodeError, so that
    the output has one row for two records. *)
Lemma write_output_lone_surrogate :
  let records :=
    [ JObj (normalized_record full_doctor
                              (str "https://example.com/img/x.jpg"));
      JObj (normalized_record surrogate_doctor
                              (str "https://example.com/")) ] in
  let path := str "out.csv" in
  let first_line :=
    str "d-17,Ana Mora,,Cali,Calle 5,,,,,True,,,https://example.com/img/x.jpg"
    ++ [13; 10]%N in
  Forall is_normalized_record records /\
  run sample_world (write_output records (str "csv") (Some path))
  = ([ EvOpen path;
       EvWrite (Some path) (Csv.format_row fieldnames);
       EvWrite (Some path) first_line ],
     Err (UnicodeEncodeError
            (str "'utf-8' codec can't encode character '\ud800' in position 8: surrogates not allowed"))) /\
  List.length
    (CsvReader.rows
       (written (Some path)
                (fst (run sample_world
                          (write_output records (str "csv") (Some path))))))
  = 2%nat.
Proof.
  intros records path first_line. split; [|split].
  - repeat constructor; eexists; split; reflexivity.
  - reflexivity.
  - reflexivity.
Qed.

End WriterExamples.

(** * Further properties *)

(** ** Normal forms and slugs *)

Section SlugProperties.
Context {R : Runtime}.

Lemma Forall_forallb {A} (p : A -> bool) l :
  Forall (fun x => p x = true) l <-> forallb p l = true.
Proof.
  rewrite forallb_forall, Forall_forall. reflexivity.
Qed.

Lemma normalize_text_cases value text :
  _normalize_text value = Ok text -> exists s, text = normalize_str s.
Proof.
  unfold _normalize_text.
  destruct (py_or value (JStr [])); try discriminate.
  intros H. injection H as <-. eauto.
Qed.

Lemma normalize_str_stripped s : strip (normalize_str s) = normalize_str s.
Proof. unfold normalize_str, strip. apply strip_by_idem. Qed.

(** X1.  Whatever [_normalize_text] returns is in normal form: ASCII
    only, no capital letter, no white space at either end.  This holds for
    every value and every Unicode table, since the filter, the lowering
    and the trimming come after the decomposition. *)
Theorem normalize_text_normal_form (value : json) (text : pystr) :
  _normalize_text value = Ok text ->
  forallb is_ascii text = true /\ lower text = text /\ strip text = text.
Proof.
  intros H. destruct (normalize_text_cases _ H) as (s & ->).
  split; [|split].
  - apply Forall_forallb, normalize_str_ascii.
  - apply lower_fixed, normalize_str_lowered.
  - apply normalize_str_stripped.
Qed.

(** The parts [split] gives have no white space and are not empty; they
    keep what holds of every character of the text. *)
Lemma split_ws_aux_parts (p : N -> bool) cur s :
  forallb p cur = true -> forallb (fun c => negb (isspace c)) cur = true ->
  forallb p s = true ->
  Forall (fun part => part <> [] /\
                      forallb (fun c => p c && negb (isspace c)) part = true)
         (split_ws_aux cur s).
Proof.
  revert cur. induction s as [|c s IH]; intros cur Hp Hs Hall.
  - cbn. destruct cur as [|d cur]; constructor; [|constructor].
    split.
    + intros E. apply (f_equal (@rev N)) in E.
      rewrite rev_involutive in E. discriminate.
    + apply forallb_forall. intros x Hx. apply in_rev in Hx.
      rewrite forallb_forall in Hp, Hs.
      now rewrite (Hp x Hx), (Hs x Hx).
  - cbn [split_ws_aux]. cbn [forallb] in Hall.
    apply andb_true_iff in Hall as [Hc Hall].
    destruct (isspace c) eqn:Esp.
    + destruct cur as [|d cur]; [now apply IH|].
      constructor; [|now apply IH].
      split.
      * intros E. apply (f_equal (@rev N)) in E.
        rewrite rev_involutive in E. discriminate.
      * apply forallb_forall. intros x Hx. apply in_rev in Hx.
        rewrite forallb_forall in Hp, Hs.
        now rewrite (Hp x Hx), (Hs x Hx).
    + apply IH; [| |exact Hall]; cbn [forallb].
      * now rewrite Hc, Hp.
      * now rewrite Esp, Hs.
Qed.

Lemma join_nonempty sep part parts :
  part <> [] -> join sep (part :: parts) <> [].
Proof.
  intros H. destruct part as [|c part]; [contradiction|].
  destruct parts; discriminate.
Qed.

Lemma filter_all {A} (p : A -> bool) l :
  Forall (fun x => p x = true) l -> filter p l = l.
Proof.
  induction 1 as [|x l Hx Hl IH]; [reflexivity|]. cbn. now rewrite Hx, IH.
Qed.

Lemma forallb_true {A} (l : list A) : forallb (fun _ => true) l = true.
Proof. induction l; [reflexivity|assumption]. Qed.

Lemma split_ws_parts (p : N -> bool) s :
  forallb p s = true ->
  Forall (fun part => part <> [] /\
                      forallb (fun c => p c && negb (isspace c)) part = true)
         (split_ws s).
Proof. intros H. now apply split_ws_aux_parts. Qed.

(** What [_slugify] returns: the words of the normal form joined by
    hyphens, or the stand-in. *)
Lemma slugify_cases value slug :
  _slugify value = Ok slug ->
  exists s,
    _normalize_text value = Ok (normalize_str s) /\
    (split_ws (normalize_str s) = [] /\ slug = str "unknown" \/
     split_ws (normalize_str s) <> [] /\
     slug = join (str "-") (split_ws (normalize_str s))).
Proof.
  unfold _slugify. intros H.
  destruct (_normalize_text value) as [n|] eqn:Hn; [|discriminate].
  cbn [rbind] in H.
  destruct (normalize_text_cases _ Hn) as (s & ->).
  exists s. split; [reflexivity|].
  pose proof (split_ws_parts (fun _ => true) (normalize_str s)
                (forallb_true _)) as Hparts.
  rewrite filter_all in H.
  - destruct (split_ws (normalize_str s)) as [|part parts] eqn:Hw.
    + injection H as <-. now left.
    + right. split; [discriminate|].
      inversion Hparts as [|? ? [Hne _] _]; subst.
      pose proof (join_nonempty (str "-") parts Hne) as Hj.
      destruct (join (str "-") (part :: parts)) eqn:Ej; [now elim Hj|].
      now injection H as <-.
  - eapply Forall_impl; [|exact Hparts].
    intros part [Hne _]. destruct part; [contradiction|reflexivity].
Qed.

Lemma slug_char_parts c :
  slug_char c = true <->
  is_ascii c = true /\ isspace c = false /\ lower_char c = c.
Proof.
  unfold slug_char. rewrite !andb_true_iff, negb_true_iff, N.eqb_eq.
  tauto.
Qed.

Lemma slugify_chars value slug :
  _slugify value = Ok slug -> slug <> [] /\ forallb slug_char slug = true.
Proof.
  intros H. destruct (slugify_cases _ H) as (s & _ & [[_ ->]|[Hne ->]]).
  - split; [discriminate|reflexivity].
  - assert (Hn : forallb (fun c => is_ascii c && N.eqb (lower_char c) c)
                         (normalize_str s) = true).
    { apply forallb_forall. intros c Hc.
      pose proof (normalize_str_ascii s) as Ha.
      pose proof (normalize_str_lowered s) as Hl.
      rewrite Forall_forall in Ha, Hl.
      rewrite (Ha c Hc). now apply N.eqb_eq, Hl. }
    pose proof (split_ws_parts _ _ Hn) as Hparts.
    destruct (split_ws (normalize_str s)) as [|part parts];
      [contradiction|].
    split.
    + apply join_nonempty. now inversion Hparts as [|? ? [Hp _] _].
    + apply forallb_join; [reflexivity|].
      eapply Forall_impl; [|exact Hparts]. cbv beta.
      intros w [_ Hw]. eapply forallb_weaken; [|exact Hw]. cbv beta.
      intros c Hc. unfold slug_char.
      apply andb_true_iff in Hc as [Hc Hsp].
      apply andb_true_iff in Hc as [Ha Hl].
      now rewrite Ha, Hsp, Hl.
Qed.

(** X2.  A slug is never empty, and it holds ASCII characters only,
    none of them white space or a capital letter. *)
Theorem slugify_shape (value : json) (slug : pystr) :
  _slugify value = Ok slug ->
  slug <> [] /\
  forallb is_ascii slug = true /\
  forallb (fun c => negb (isspace c)) slug = true /\
  lower slug = slug.
Proof.
  intros H. destruct (slugify_chars _ H) as [Hne Hchars].
  split; [exact Hne|].
  rewrite forallb_forall in Hchars.
  repeat split.
  - apply forallb_forall. intros c Hc.
    now apply slug_char_parts, Hchars.
  - apply forallb_forall. intros c Hc. apply negb_true_iff.
    now apply slug_char_parts, Hchars.
  - apply lower_fixed, Forall_forall. intros c Hc.
    now apply slug_char_parts, Hchars.
Qed.

(** A text without white space is one word. *)
Lemma split_ws_aux_word cur s :
  forallb (fun c => negb (isspace c)) s = true ->
  split_ws_aux cur s
  = match rev cur ++ s with [] => [] | word => [word] end.
Proof.
  revert cur. induction s as [|c s IH]; intros cur H.
  - cbn [split_ws_aux]. rewrite app_nil_r.
    destruct cur as [|d cur]; [reflexivity|].
    destruct (rev (d :: cur)) eqn:E; [|reflexivity].
    apply (f_equal (@rev N)) in E. rewrite rev_involutive in E.
    discriminate.
  - cbn [forallb] in H. apply andb_true_iff in H as [Hc Hs].
    apply negb_true_iff in Hc. cbn [split_ws_aux]. rewrite Hc.
    rewrite IH by exact Hs. cbn [rev]. now rewrite <- app_assoc.
Qed.

Section Idempotence.
Hypothesis nfkd_ascii :
  forall s, Forall (fun c => is_ascii c = true) s -> normalize_NFKD s = s.

Lemma normalize_str_slug slug :
  forallb slug_char slug = true -> normalize_str slug = slug.
Proof.
  intros H. rewrite forallb_forall in H.
  assert (Ha : Forall (fun c => is_ascii c = true) slug).
  { apply Forall_forall. intros c Hc. now apply slug_char_parts, H. }
  unfold normalize_str. rewrite (nfkd_ascii Ha).
  unfold encode_ascii_ignore. rewrite (filter_fixed _ Ha).
  rewrite lower_fixed.
  - apply strip_by_none, forallb_forall. intros c Hc.
    apply negb_true_iff. now apply slug_char_parts, H.
  - apply Forall_forall. intros c Hc. now apply slug_char_parts, H.
Qed.

Lemma slugify_slug slug :
  slug <> [] -> forallb slug_char slug = true ->
  _slugify (JStr slug) = Ok slug.
Proof.
  intros Hne H. unfold _slugify.
  rewrite normalize_text_str. cbn [rbind].
  rewrite (normalize_str_slug _ H).
  unfold split_ws. rewrite split_ws_aux_word.
  - cbn [rev app]. destruct slug as [|c slug]; [contradiction|].
    reflexivity.
  - eapply forallb_weaken; [|exact H]. intros c Hc.
    apply negb_true_iff. now apply slug_char_parts.
Qed.

(** X3.  [_slugify] is idempotent: the slug of a slug is that slug.
    NFKD is taken to leave ASCII text unchanged. *)
Theorem slugify_idempotent (value : json) (slug : pystr) :
  _slugify value = Ok slug -> _slugify (JStr slug) = Ok slug.
Proof.
  intros H. destruct (slugify_chars _ H) as [Hne Hchars].
  now apply slugify_slug.
Qed.

End Idempotence.

End SlugProperties.

Section SlugExamples.
#[local] Existing Instance paged_runtime.

Lemma normalize_text_normal_form_witness :
  _normalize_text (JStr sample_title) = Ok (str "gynecologist  obstetra") /\
  forallb is_ascii (str "gynecologist  obstetra") = true /\
  lower (str "gynecologist  obstetra") = str "gynecologist  obstetra" /\
  strip (str "gynecologist  obstetra") = str "gynecologist  obstetra".
Proof.
  split; [reflexivity|].
  apply (@normalize_text_normal_form paged_runtime (JStr sample_title)).
  reflexivity.
Defined.

Lemma slugify_shape_witness :
  _slugify (JStr sample_title) = Ok (str "gynecologist-obstetra") /\
  str "gynecologist-obstetra" <> [] /\
  forallb is_ascii (str "gynecologist-obstetra") = true /\
  forallb (fun c => negb (isspace c)) (str "gynecologist-obstetra") = true /\
  lower (str "gynecologist-obstetra") = str "gynecologist-obstetra".
Proof.
  split; [reflexivity|].
  apply (@slugify_shape paged_runtime (JStr sample_title)).
  reflexivity.
Defined.

Lemma slugify_idempotent_witness :
  _slugify (JStr sample_title) = Ok (str "gynecologist-obstetra") /\
  _slugify (JStr (str "gynecologist-obstetra"))
  = Ok (str "gynecologist-obstetra").
Proof.
  split; [reflexivity|].
  apply (@slugify_idempotent paged_runtime nfkd_sample_ascii
           (JStr sample_title)).
  reflexivity.
Defined.

End SlugExamples.

(** ** The data path and the root of a directory URL *)

Section DirectoryUrl.
Context {R : Runtime}.
Import Url MedicosDocScraper.

(** X4.  The path part [_data_path] returns is never empty and does
    not start with a slash, whatever the URL. *)
Theorem data_path_shape (url p : pystr) :
  _data_path url = Ok p ->
  exists c rest, p = c :: rest /\ c <> ord "/".
Proof.
  unfold _data_path. intros H. bind_inversion H. injection H as <-.
  match goal with
  | |- context [lstrip_by ?f ?x] =>
      pose proof (lstrip_by_clean f x) as Hclean;
      destruct (lstrip_by f x) as [|c rest]
  end.
  - eexists _, _. split; [reflexivity|discriminate].
  - cbn [clean_head] in Hclean. apply N.eqb_neq in Hclean.
    destruct (N.eqb (last (c :: rest) 0%N) 47) eqn:Hlast.
    + destruct rest as [|d rest].
      * cbn in Hlast. apply N.eqb_eq in Hlast. congruence.
      * cbn [removelast nonempty List.length Nat.eqb negb].
        eexists _, _. split; [reflexivity|].
        intros Ec. apply Hclean. now rewrite Ec.
    + cbn [nonempty List.length Nat.eqb negb].
      eexists _, _. split; [reflexivity|].
        intros Ec. apply Hclean. now rewrite Ec.
Qed.

Lemma data_path_serialised s n rest :
  scheme_wf s \/ s = [] -> authority_ok n -> path_ok (ord "/" :: rest) ->
  _data_path (serialised s n (ord "/" :: rest))
  = Ok (let path := if N.eqb (last rest 0%N) (ord "/")
                    then removelast rest else rest in
        if nonempty path then path else str "index").
Proof.
  intros Hs Hn Hp. unfold _data_path.
  rewrite (urlparse_serialised (d := []) Hs (or_introl eq_refl) Hn Hp).
  cbn [rbind path].
  destruct Hp as (rest' & E & Hhd & _). injection E as <-.
  cbn [lstrip_by]. rewrite N.eqb_refl.
  rewrite lstrip_by_fixed; [reflexivity|].
  destruct rest as [|c rest]; [exact I|].
  cbn [clean_head hd] in *. apply N.eqb_neq. congruence.
Qed.

Lemma last_app_nonempty {A} (a b : list A) d :
  b <> [] -> last (a ++ b) d = last b d.
Proof.
  intros Hb. induction a as [|x a IH]; [reflexivity|].
  cbn [app]. destruct (a ++ b) eqn:E.
  - apply app_eq_nil in E as [_ ->]. contradiction.
  - exact IH.
Qed.

Lemma last_join sep segments d :
  segments <> [] -> Forall (fun seg => seg <> []) segments ->
  last (join sep segments) d = last (last segments []) d.
Proof.
  intros Hne H. induction H as [|seg segments Hseg Hsegs IH];
    [contradiction|].
  destruct segments as [|seg' segments]; [reflexivity|].
  change (join sep (seg :: seg' :: segments))
    with (seg ++ sep ++ join sep (seg' :: segments)).
  assert (Hj : join sep (seg' :: segments) <> []).
  { inversion Hsegs; subst. destruct seg'; [contradiction|].
    destruct segments; discriminate. }
  rewrite !last_app_nonempty; [|exact Hj|].
  - rewrite IH by discriminate. reflexivity.
  - intros E. apply app_eq_nil in E as [_ E]. contradiction.
Qed.

(** A path of plain segments does not end with a slash. *)
Lemma plain_path_end segments :
  segments <> [] -> Forall plain_segment segments ->
  N.eqb (last (join (str "/") segments) 0%N) (ord "/") = false /\
  nonempty (join (str "/") segments) = true.
Proof.
  intros Hne H.
  assert (Hparts : Forall (fun seg => seg <> []) segments)
    by (eapply Forall_impl; [|exact H]; now intros seg [Hseg _]).
  split.
  - rewrite (last_join _ 0%N Hne Hparts).
    assert (Hin : In (last segments []) segments) by now apply last_in.
    rewrite Forall_forall in H.
    destruct (plain_segment_parts (H _ Hin)) as (_ & Hslash & _).
    rewrite Forall_forall in Hparts. specialize (Hparts _ Hin).
    apply N.eqb_neq. intros E.
    apply char_in_false in Hslash. apply Hslash.
    rewrite <- E. apply last_in. exact Hparts.
  - destruct segments as [|seg segments]; [contradiction|].
    inversion Hparts; subst. destruct seg; [contradiction|].
    destruct segments; reflexivity.
Qed.

(** X5.  For a directory URL in serialised form whose path is made of
    plain segments, the path part is the segments joined by slashes, with
    or without a slash at the end of the URL; the path part of the root is
    index. *)
Theorem data_path_ignores_trailing_slash (s n : pystr)
  (segments : list pystr) :
  scheme_wf s \/ s = [] -> authority_ok n ->
  segments <> [] -> Forall plain_segment segments ->
  let p := join (str "/") segments in
  _data_path (serialised s n (ord "/" :: p)) = Ok p /\
  _data_path (serialised s n (ord "/" :: p ++ str "/")) = Ok p /\
  _data_path (serialised s n (str "/")) = Ok (str "index").
Proof.
  intros Hs Hn Hne Hsegs p.
  pose proof (path_ok_segments Hne Hsegs) as Hp. fold p in Hp.
  destruct (plain_path_end Hne Hsegs) as [Hlast Hnonempty].
  fold p in Hlast, Hnonempty.
  split; [|split].
  - rewrite (data_path_serialised Hs Hn Hp). cbv zeta.
    now rewrite Hlast, Hnonempty.
  - assert (Hp' : path_ok (ord "/" :: p ++ str "/")).
    { destruct Hp as (rest & E & Hhd & Hchars). injection E as <-.
      exists (p ++ str "/"). split; [reflexivity|]. split.
      - destruct p; [discriminate|exact Hhd].
      - now rewrite forallb_app, Hchars. }
    rewrite (data_path_serialised Hs Hn Hp'). cbv zeta.
    change (str "/") with [ord "/"].
    rewrite last_last, N.eqb_refl, removelast_last.
    now rewrite Hnonempty.
  - apply (data_path_serialised Hs Hn path_ok_root).
Qed.

(** X6.  The root [_base_root] returns is its own root. *)
Theorem base_root_idempotent (url root : pystr) :
  _base_root url = Ok root -> _base_root root = Ok root.
Proof.
  intros H. unfold _base_root in H. bind_inversion H. injection H as <-.
  destruct (urlparse_facts _ E) as [Hs Hn].
  rewrite (urlunparse_path _ _ path_ok_root).
  assert (Hs' : scheme_wf (scheme a) \/ scheme a = []) by tauto.
  unfold _base_root. rewrite (root_parse Hs' Hn). cbn [rbind scheme netloc].
  now rewrite (urlunparse_path _ _ path_ok_root).
Qed.

End DirectoryUrl.

Section DirectoryUrlExamples.
#[local] Existing Instance paged_runtime.
Import Url MedicosDocScraper.

Lemma data_path_shape_witness :
  exists c rest, str "en/dir" = c :: rest /\ c <> ord "/".
Proof.
  apply (@data_path_shape paged_runtime
           (str "https://example.com//en/dir/?page=3")).
  reflexivity.
Defined.

Lemma https_scheme : scheme_wf (str "https").
Proof. repeat split. Qed.

Lemma example_authority : authority_ok (str "example.com").
Proof. repeat split. Qed.

Lemma data_path_ignores_trailing_slash_witness :
  _data_path (str "https://example.com/en/dir") = Ok (str "en/dir") /\
  _data_path (str "https://example.com/en/dir/") = Ok (str "en/dir") /\
  _data_path (str "https://example.com/") = Ok (str "index").
Proof.
  apply (@data_path_ignores_trailing_slash paged_runtime
           (str "https") (str "example.com") [str "en"; str "dir"]
           (or_introl https_scheme) example_authority).
  - discriminate.
  - repeat constructor; discriminate.
Defined.

Lemma base_root_idempotent_witness :
  _base_root (str "https://example.com/") = Ok (str "https://example.com/").
Proof.
  apply (@base_root_idempotent paged_runtime sample_url). reflexivity.
Defined.

End DirectoryUrlExamples.

(** ** The embedded payload *)

Section InitialPayload.
Context {R : Runtime}.
Import Url MedicosDocScraper.

Lemma get_default_ok v k default x :
  get_default v k default = Ok x ->
  exists d, v = JObj d /\
            x = match lookup k d with Some y => y | None => default end.
Proof.
  destruct v; try discriminate. cbn. intros H. injection H as <-. eauto.
Qed.

Lemma next_data_text_found html data :
  next_data_text html = Some data ->
  find_next_data html = Some (Some data) /\ nonempty data = true.
Proof.
  unfold next_data_text.
  destruct (find_next_data html) as [[d|]|]; try discriminate.
  destruct (nonempty d) eqn:E; [|discriminate].
  intros H. injection H as <-. now split.
Qed.

(** X7.  When [_parse_initial_payload] returns, the page had an
    embedded-data tag with a non-empty text, and the text parsed; the build
    id is the document's buildId and is truthy, the path part is that of
    the directory URL, and the first-page data is what the document holds
    under props, pageProps, directoryDoctors, and is not empty. *)
Theorem parse_initial_payload_result (url html : pystr)
  (build_id : json) (path_part : pystr) (first_page : json) :
  _parse_initial_payload url html = Ok (build_id, path_part, first_page) ->
  exists data document,
    next_data_text html = Some data /\
    json_loads data = Ok document /\
    build_id = field document (str "buildId") /\
    truthy build_id = true /\
    _data_path url = Ok path_part /\
    first_page = embedded_directory document /\
    truthy first_page = true.
Proof.
  unfold _parse_initial_payload, next_data_text. intros H.
  destruct (find_next_data html) as [[data|]|]; try discriminate.
  destruct (nonempty data) eqn:Hdata; [|discriminate].
  cbn [rbind] in H.
  destruct (json_loads data) as [document|] eqn:Hdoc; [|discriminate].
  cbn [rbind] in H.
  destruct (get document (str "buildId")) as [b|] eqn:Hb; [|discriminate].
  cbn [rbind] in H.
  destruct (truthy b) eqn:Htb; [|discriminate]. cbn [negb] in H.
  destruct (_data_path url) as [p|] eqn:Hp; [|discriminate].
  cbn [rbind] in H.
  destruct (get_default document (str "props") empty_dict) as [props|] eqn:H1;
    [|discriminate].
  cbn [rbind] in H.
  destruct (get_default props (str "pageProps") empty_dict)
    as [page_props|] eqn:H2; [|discriminate].
  cbn [rbind] in H.
  destruct (get_default page_props (str "directoryDoctors") empty_dict)
    as [directory|] eqn:H3; [|discriminate].
  cbn [rbind] in H.
  destruct (truthy directory) eqn:Htd; [|discriminate]. cbn [negb] in H.
  injection H as <- <- <-.
  exists data, document. repeat split; try assumption.
  - now apply get_ok_field in Hb as [_ ->].
  - apply get_default_ok in H1 as (d & -> & ->).
    apply get_default_ok in H2 as (d1 & E1 & ->).
    apply get_default_ok in H3 as (d2 & E2 & ->).
    unfold embedded_directory. cbn [field].
    destruct (lookup (str "props") d) as [props|].
    + subst props. cbn [field].
      destruct (lookup (str "pageProps") d1) as [page_props|].
      * subst page_props. cbn [field].
        destruct (lookup (str "directoryDoctors") d2); [reflexivity|].
        discriminate.
      * injection E2 as <-. discriminate.
    + injection E1 as <-. injection E2 as <-. discriminate.
Qed.

(** X8.  The three complaints of [_parse_initial_payload], in their
    order: no embedded-data tag, or an empty one; no truthy buildId,
    whatever else the document holds; no directory data, a key being
    absent on the way to it or the data being empty.  Each is a
    RuntimeError with its own message. *)
Theorem parse_initial_payload_errors (url html : pystr) :
  (next_data_text html = None ->
   _parse_initial_payload url html
   = Err (RuntimeError (str "Could not locate __NEXT_DATA__ on the page."))) /\
  (forall data document,
      next_data_text html = Some data ->
      json_loads data = Ok document ->
      is_dict document = true ->
      (truthy (field document (str "buildId")) = false ->
       _parse_initial_payload url html
       = Err (RuntimeError
                (str "Could not find buildId; site layout may have changed."))) /\
      (forall path_part,
          truthy (field document (str "buildId")) = true ->
          _data_path url = Ok path_part ->
          directory_data_missing document = true ->
          _parse_initial_payload url html
          = Err (RuntimeError
                   (str "Directory data missing from initial payload.")))).
Proof.
  split.
  - unfold _parse_initial_payload, next_data_text.
    destruct (find_next_data html) as [[data|]|]; try reflexivity.
    destruct (nonempty data); [discriminate|reflexivity].
  - intros data document Hdata Hdoc Hdict.
    apply next_data_text_found in Hdata as [Hfind Hne].
    unfold _parse_initial_payload. rewrite Hfind, Hne. cbn [rbind].
    rewrite Hdoc. cbn [rbind].
    rewrite (get_is_dict _ _ Hdict). cbn [rbind].
    split.
    + intros ->. reflexivity.
    + intros path_part -> Hpath Hmissing. cbn [negb]. rewrite Hpath.
      cbn [rbind].
      destruct document as [| | | | | |d]; try discriminate.
      cbn [get_default directory_data_missing] in *.
      destruct (lookup (str "props") d) as [[| | | | | |d1]|];
        try discriminate; [|reflexivity].
      cbn [rbind get_default].
      destruct (lookup (str "pageProps") d1) as [[| | | | | |d2]|];
        try discriminate; [|reflexivity].
      cbn [rbind get_default].
      destruct (lookup (str "directoryDoctors") d2) as [v|];
        [|reflexivity].
      cbn [rbind]. now rewrite Hmissing.
Qed.

(** X9.  A value that is not a mapping under props or under
    pageProps (an explicit null, say) is not taken for a missing key: the
    [.get] on it raises AttributeError, not the RuntimeError about missing
    directory data. *)
Theorem parse_initial_payload_rejects_null (url html data : pystr)
  (document : pydict) (path_part : pystr) (v : json) :
  next_data_text html = Some data ->
  json_loads data = Ok (JObj document) ->
  truthy (field (JObj document) (str "buildId")) = true ->
  _data_path url = Ok path_part ->
  is_dict v = false ->
  (lookup (str "props") document = Some v ->
   _parse_initial_payload url html = Err (no_attribute v "get")) /\
  (forall props,
      lookup (str "props") document = Some (JObj props) ->
      lookup (str "pageProps") props = Some v ->
      _parse_initial_payload url html = Err (no_attribute v "get")).
Proof.
  intros Hdata Hdoc Hb Hpath Hv.
  apply next_data_text_found in Hdata as [Hfind Hne].
  unfold _parse_initial_payload. rewrite Hfind, Hne. cbn [rbind].
  rewrite Hdoc. cbn [rbind]. rewrite get_field_dict. cbn [rbind].
  rewrite Hb. cbn [negb]. rewrite Hpath. cbn [rbind].
  split.
  - intros Hprops. cbn [get_default]. rewrite Hprops. cbn [rbind].
    destruct v; try discriminate; reflexivity.
  - intros props Hprops Hpage. cbn [get_default]. rewrite Hprops.
    cbn [rbind get_default]. rewrite Hpage. cbn [rbind].
    destruct v; try discriminate; reflexivity.
Qed.

(** A page whose payload was read has a directory URL that parses. *)
Lemma parse_initial_payload_url url html build_id path_part first_page :
  _parse_initial_payload url html = Ok (build_id, path_part, first_page) ->
  exists parsed, urlparse url [] = Ok parsed.
Proof.
  unfold _parse_initial_payload. intros H. bind_inversion H.
  destruct (negb (truthy _)); [discriminate|]. bind_inversion H.
  match goal with
  | Hp : _data_path url = Ok _ |- _ =>
      unfold _data_path in Hp; bind_inversion Hp
  end.
  eauto.
Qed.

End InitialPayload.

Section InitialPayloadExamples.
#[local] Existing Instance paged_runtime.
Import Url MedicosDocScraper.

Lemma parse_initial_payload_result_witness :
  exists data document,
    next_data_text sample_html = Some data /\
    json_loads data = Ok document /\
    JStr (str "B1") = field document (str "buildId") /\
    truthy (JStr (str "B1")) = true /\
    _data_path sample_url = Ok (str "en/dir") /\
    JObj [(str "data", JList first_page_doctors); (str "totalPages", JInt 3)]
    = embedded_directory document /\
    truthy (JObj [(str "data", JList first_page_doctors);
                  (str "totalPages", JInt 3)]) = true.
Proof.
  apply (@parse_initial_payload_result paged_runtime sample_url sample_html).
  reflexivity.
Defined.

End InitialPayloadExamples.

Section InitialPayloadErrorExamples.
Import Url MedicosDocScraper.

Lemma parse_initial_payload_errors_witness :
  @_parse_initial_payload paged_runtime sample_url (str "<html></html>")
  = Err (RuntimeError (str "Could not locate __NEXT_DATA__ on the page.")) /\
  @_parse_initial_payload no_build_runtime sample_url sample_html
  = Err (RuntimeError
           (str "Could not find buildId; site layout may have changed.")) /\
  @_parse_initial_payload no_directory_runtime sample_url sample_html
  = Err (RuntimeError (str "Directory data missing from initial payload.")).
Proof.
  split; [|split].
  - now apply (@parse_initial_payload_errors paged_runtime).
  - destruct (@parse_initial_payload_errors no_build_runtime sample_url
                sample_html) as [_ H].
    destruct (H sample_html (JObj []) eq_refl eq_refl eq_refl) as [Hb _].
    now apply Hb.
  - destruct (@parse_initial_payload_errors no_directory_runtime sample_url
                sample_html) as [_ H].
    destruct (H sample_html (JObj [ (str "buildId", JStr (str "B1")) ])
                eq_refl eq_refl eq_refl) as [_ Hd].
    now apply (Hd (str "en/dir")).
Defined.

Lemma parse_initial_payload_rejects_null_witness :
  @_parse_initial_payload null_props_runtime sample_url sample_html
  = Err (AttributeError (str "'NoneType' object has no attribute 'get'")).
Proof.
  destruct (@parse_initial_payload_rejects_null null_props_runtime sample_url
              sample_html sample_html
              [ (str "buildId", JStr (str "B1")); (str "props", JNull) ]
              (str "en/dir") JNull eq_refl eq_refl eq_refl eq_refl eq_refl)
    as [Hprops _].
  now apply Hprops.
Defined.

End InitialPayloadErrorExamples.

(** ** What a program can do *)

Section Obeys.
Variable allowed : event -> Prop.

Lemma obeys_bind {A B} (p : prog A) (f : A -> prog B) :
  obeys allowed p -> (forall a, obeys allowed (f a)) ->
  obeys allowed (bind p f).
Proof.
  intros Hp Hf. induction p as [a|e|ev k IH|rq k IH]; cbn in *.
  - apply Hf.
  - exact I.
  - destruct Hp as [Hev Hk]. split; [exact Hev|now apply IH].
  - destruct Hp as [Hrq Hk]. split; [exact Hrq|].
    intros response. now apply IH.
Qed.

Lemma obeys_lift {A} (r : result A) : obeys allowed (lift r).
Proof. destruct r; exact I. Qed.

Lemma obeys_for_each {X} (xs : list X) (body : X -> prog unit) :
  (forall x, In x xs -> obeys allowed (body x)) ->
  obeys allowed (for_each xs body).
Proof.
  induction xs as [|x xs IH]; intros H; cbn [for_each]; [exact I|].
  apply obeys_bind; [apply H; now left|].
  intros _. apply IH. intros y Hy. apply H. now right.
Qed.

Lemma obeys_run {A} (w : world) (p : prog A) :
  obeys allowed p -> Forall allowed (fst (run w p)).
Proof.
  induction p as [a|e|ev k IH|rq k IH]; cbn; intros Hp.
  - constructor.
  - constructor.
  - destruct Hp as [Hev Hk]. specialize (IH Hk).
    destruct (run w k) as [t r]. now constructor.
  - destruct Hp as [Hrq Hk].
    destruct (w rq) as [response|e].
    + specialize (IH response (Hk response)).
      destruct (run w (k response)) as [t r]. now constructor.
    + now repeat constructor.
Qed.

End Obeys.

Lemma obeys_weaken {A} (P Q : event -> Prop) (p : prog A) :
  (forall ev, P ev -> Q ev) -> obeys P p -> obeys Q p.
Proof.
  intros H. induction p as [a|e|ev k IH|rq k IH]; cbn; auto.
  - intros [Hev Hk]. split; auto.
  - intros [Hrq Hk]. split; auto.
Qed.

(** ** The pager against any origin *)

Section PagerAnyOrigin.
Context {R : Runtime}.
Import Url MedicosDocScraper.
Variable w : world.

Lemma run_get_html_any url :
  run w (_get_html url) = ([EvGet (initial_request url)], directory_page w url).
Proof.
  unfold _get_html, directory_page. cbn [run].
  change {| req_url := url; req_page := None; req_timeout := timeout |}
    with (initial_request url).
  destruct (w (initial_request url)) as [response|e]; [|reflexivity].
  destruct (status_error response); reflexivity.
Qed.

Lemma obeys_yield_from allowed v :
  (forall x, allowed (EvYield x)) -> obeys allowed (yield_from v).
Proof.
  intros H. unfold yield_from. apply obeys_bind; [apply obeys_lift|].
  intros items. apply obeys_for_each. intros x _. split; [apply H|exact I].
Qed.

Lemma obeys_fetch_doctors url max_pages :
  obeys (pager_event url max_pages) (fetch_doctors url max_pages).
Proof.
  unfold fetch_doctors.
  destruct (match max_pages with Some m => (m <? 1)%Z | None => false end);
    [exact I|].
  apply obeys_bind.
  { cbn. split; [now split|]. intros response.
    destruct (status_error response); exact I. }
  intros html. apply obeys_bind; [apply obeys_lift|].
  intros [[build_id path_part] first_page].
  apply obeys_bind; [apply obeys_lift|]. intros total.
  apply obeys_bind; [apply obeys_lift|]. intros total_pages.
  apply obeys_bind; [apply obeys_lift|]. intros data.
  apply obeys_bind; [apply obeys_yield_from; intros x; exact I|].
  intros _. apply obeys_for_each. intros page Hpage.
  apply in_py_range in Hpage.
  apply obeys_bind; [|intros doctors; apply obeys_yield_from; intros x; exact I].
  unfold _fetch_page. apply obeys_bind; [apply obeys_lift|].
  intros parsed. cbn. split.
  - split; [reflexivity|]. split; [lia|].
    destruct max_pages as [m|]; [lia|exact I].
  - intros response. destruct (status_error response); [exact I|].
    apply obeys_bind; [apply obeys_lift|]. intros payload. apply obeys_lift.
Qed.

(** X10.  Against any origin, whatever it answers, [fetch_doctors]
    only requests and yields: every request carries the 30-second
    time-out and is either the one for the directory URL or one for a page
    from 2 up to max_pages, when that is given; nothing is opened or
    written. *)
Theorem fetch_doctors_requests_bounded (url : pystr) (max_pages : option Z) :
  Forall (pager_event url max_pages)
         (fst (run w (fetch_doctors url max_pages))).
Proof. apply obeys_run, obeys_fetch_doctors. Qed.

Lemma valid_max_pages_guard max_pages :
  valid_max_pages max_pages ->
  match max_pages with Some m => (m <? 1)%Z | None => false end = false.
Proof.
  destruct max_pages as [m|]; [|reflexivity].
  cbn. intros H. apply Z.ltb_ge. lia.
Qed.

(** The generator and its run up to the first entry. *)
Lemma next_get_html url (k : pystr -> generator) :
  next w (bind (_get_html url) k)
  = match directory_page w url with
    | Ok html => let '(t, s) := next w (k html) in
                 (EvGet (initial_request url) :: t, s)
    | Err e => ([EvGet (initial_request url)], Raised e)
    end.
Proof.
  unfold _get_html, directory_page. cbn [bind next].
  change {| req_url := url; req_page := None; req_timeout := timeout |}
    with (initial_request url).
  destruct (w (initial_request url)) as [response|e]; [|reflexivity].
  destruct (status_error response); reflexivity.
Qed.

(** X11.  When the directory request fails, comes back with an error
    status, or the embedded payload cannot be read, the generator raises
    that error the first time it is iterated: the directory request is the
    only one sent, and nothing has been yielded. *)
Theorem fetch_doctors_fails_before_first_entry (url : pystr)
  (max_pages : option Z) (e : exn) :
  valid_max_pages max_pages ->
  (html <- directory_page w url ;;
   _parse_initial_payload url html)%result = Err e ->
  run w (fetch_doctors url max_pages)
  = ([EvGet (initial_request url)], Err e) /\
  next w (fetch_doctors url max_pages)
  = ([EvGet (initial_request url)], Raised e).
Proof.
  intros Hvalid H. unfold fetch_doctors.
  rewrite (valid_max_pages_guard _ Hvalid).
  rewrite run_bind, run_get_html_any, next_get_html.
  destruct (directory_page w url) as [html|e']; cbn [rbind] in H.
  - cbn [then_run]. rewrite run_bind, run_lift, H. cbn [then_run app].
    split; reflexivity.
  - injection H as ->. split; reflexivity.
Qed.

(** X12.  The page count is read before the first entry is yielded:
    when totalPages holds something [int] rejects (null, a list), the
    generator raises that error the first time it is iterated, and the
    entries of the first page, though present, are not yielded. *)
Theorem fetch_doctors_needs_page_count (url : pystr) (max_pages : option Z)
  (html : pystr) (build_id : json) (path_part : pystr) (first_page : pydict)
  (v : json) (e : exn) :
  valid_max_pages max_pages ->
  directory_page w url = Ok html ->
  _parse_initial_payload url html = Ok (build_id, path_part, JObj first_page) ->
  lookup (str "totalPages") first_page = Some v ->
  py_int v = Err e ->
  run w (fetch_doctors url max_pages)
  = ([EvGet (initial_request url)], Err e) /\
  next w (fetch_doctors url max_pages)
  = ([EvGet (initial_request url)], Raised e).
Proof.
  intros Hvalid Hpage Hparse Hv He. unfold fetch_doctors.
  rewrite (valid_max_pages_guard _ Hvalid).
  rewrite run_bind, run_get_html_any, next_get_html, Hpage.
  cbn [then_run]. rewrite run_bind, run_lift, Hparse. cbn [then_run].
  cbn [lift bind get_default]. rewrite Hv. cbn [lift bind].
  rewrite He. split; reflexivity.
Qed.

(** One turn of the loop over the pages sends one request. *)
Lemma run_page_requests url parsed build_id path_part page :
  urlparse url [] = Ok parsed ->
  exists t r,
    run w (doctors <- _fetch_page url build_id path_part page ;;
           yield_from doctors)%prog = (t, r) /\
    requests t = [page_request parsed build_id path_part page].
Proof.
  intros Hparsed. rewrite run_bind. unfold _fetch_page.
  rewrite Hparsed. cbn [lift bind run].
  destruct (w (page_request parsed build_id path_part page))
    as [response|e]; [|now eexists _, _].
  destruct (status_error response) as [e|]; [now eexists _, _|].
  rewrite run_bind, run_lift.
  destruct (json_result response) as [payload|e]; cbn [then_run];
    [|now eexists _, _].
  rewrite run_lift.
  destruct (page_entries payload page) as [doctors|e]; cbn [then_run];
    [|now eexists _, _].
  unfold yield_from. rewrite run_bind, run_lift.
  destruct (iterate doctors) as [items|e]; cbn [then_run];
    [|now eexists _, _].
  rewrite run_yield_all. eexists _, _. split; [reflexivity|].
  cbn [app]. now rewrite requests_get, requests_yield.
Qed.

Lemma firstn_seq_min n start len :
  firstn n (seq start len) = seq start (Nat.min n len).
Proof.
  revert start len. induction n as [|n IH]; intros start len;
    [reflexivity|].
  destruct len as [|len]; [reflexivity|].
  cbn [seq firstn Nat.min]. now rewrite IH.
Qed.

Lemma firstn_py_range n a b :
  (a <= b)%Z ->
  firstn n (py_range a b) = py_range a (Z.min b (a + Z.of_nat n)).
Proof.
  intros H. unfold py_range. rewrite firstn_map, firstn_seq_min. do 2 f_equal.
  lia.
Qed.

End PagerAnyOrigin.

(** ** The pager as a stream *)

Lemma map_seq_from {A} (f : nat -> A) k n :
  map f (seq k n) = map (fun i => f (k + i)%nat) (seq 0 n).
Proof.
  revert f. induction k as [|k IH]; intros f; [reflexivity|].
  rewrite <- seq_shift, map_map. apply IH.
Qed.

Lemma py_range_split a q b :
  (a <= q < b)%Z -> py_range a b = py_range a q ++ q :: py_range (q + 1) b.
Proof.
  intros H. unfold py_range.
  replace (Z.to_nat (b - a))
    with (Z.to_nat (q - a) + S (Z.to_nat (b - (q + 1))))%nat by lia.
  rewrite seq_app, map_app. f_equal. cbn [seq map Nat.add]. f_equal; [lia|].
  rewrite map_seq_from. apply map_ext. intros i. lia.
Qed.

Section RunStops.
Variable w : world.

(** A loop whose turns send one request each has sent the requests of the
    turns it got to. *)
Lemma for_each_requests {X} (body : X -> prog unit) (rq : X -> Request)
  (xs : list X) :
  (forall x, exists t r, run w (body x) = (t, r) /\ requests t = [rq x]) ->
  exists n, requests (fst (run w (for_each xs body))) = map rq (firstn n xs).
Proof.
  intros Hbody. induction xs as [|x xs [n IH]]; [now exists O|].
  cbn [for_each]. rewrite run_bind.
  destruct (Hbody x) as (t & r & -> & Ht).
  destruct r as [[]|e]; cbn [then_run].
  - exists (S n). destruct (run w (for_each xs body)) as [t' r'].
    cbn [fst firstn map] in *. now rewrite requests_app, Ht, IH.
  - exists 1%nat. cbn [fst firstn map]. exact Ht.
Qed.

End RunStops.

Section PagerOrder.
Context {R : Runtime}.
Import Url MedicosDocScraper.
Variable w : world.

Lemma only_directory_request url max_pages :
  valid_max_pages max_pages ->
  exists data_url k,
    [initial_request url]
    = initial_request url :: map (data_request data_url) (py_range 2 k) /\
    match max_pages with
    | Some m => (k <= m + 1)%Z
    | None => True
    end.
Proof.
  intros Hvalid. exists [], 2%Z. split; [reflexivity|].
  destruct max_pages; cbn in *; [lia|exact I].
Qed.

(** X13.  Against any origin, the requests of a run of
    [fetch_doctors] are the directory request followed by requests for
    pages 2, 3, and so on in increasing order, each page once and all to
    one data URL; with max_pages given, none for a page beyond it. *)
Theorem fetch_doctors_pages_in_order (url : pystr) (max_pages : option Z) :
  valid_max_pages max_pages ->
  exists data_url k,
    requests (fst (run w (fetch_doctors url max_pages)))
    = initial_request url :: map (data_request data_url) (py_range 2 k) /\
    match max_pages with
    | Some m => (k <= m + 1)%Z
    | None => True
    end.
Proof.
  intros Hvalid. unfold fetch_doctors.
  rewrite (valid_max_pages_guard _ Hvalid).
  rewrite run_bind, run_get_html_any.
  destruct (directory_page w url) as [html|e]; cbn [then_run];
    [|now apply only_directory_request].
  rewrite run_bind, run_lift.
  destruct (_parse_initial_payload url html)
    as [[[build_id path_part] first_page]|e] eqn:Hparse; cbn [then_run];
    [|now apply only_directory_request].
  destruct (parse_initial_payload_url _ _ Hparse) as [parsed Hparsed].
  rewrite run_bind, run_lift.
  destruct (get_default first_page (str "totalPages") (JInt 1))
    as [total|e]; cbn [then_run]; [|now apply only_directory_request].
  rewrite run_bind, run_lift.
  destruct (py_int total) as [total_pages|e]; cbn [then_run];
    [|now apply only_directory_request].
  rewrite run_bind, run_lift.
  destruct (get_default first_page (str "data") (JList []))
    as [data|e]; cbn [then_run]; [|now apply only_directory_request].
  rewrite run_bind. unfold yield_from at 1. rewrite run_bind, run_lift.
  destruct (iterate data) as [items|e]; cbn [then_run];
    [|now apply only_directory_request].
  rewrite run_yield_all. cbn [then_run].
  fold (page_limit total_pages max_pages).
  set (limit := page_limit total_pages max_pages).
  destruct (for_each_requests w
              (fun page =>
                 (doctors <- _fetch_page url build_id path_part page ;;
                  yield_from doctors)%prog)
              (page_request parsed build_id path_part)
              (py_range 2 (limit + 1))
              (fun page => @run_page_requests _ w url parsed build_id path_part
                                               page Hparsed))
    as [n Hn].
  destruct (run w (for_each _ _)) as [t r]. cbn [fst app] in *.
  rewrite requests_get, !requests_app, requests_yield, Hn. cbn [app].
  exists (req_url (page_request parsed build_id path_part 0)).
  destruct (Z_le_gt_dec 2 (limit + 1)) as [Hle|Hgt].
  - exists (Z.min (limit + 1) (2 + Z.of_nat n)).
    rewrite firstn_py_range by exact Hle. split; [reflexivity|].
    unfold limit, page_limit. destruct max_pages; [lia|exact I].
  - exists 2%Z. rewrite py_range_empty by lia. rewrite firstn_nil.
    split; [reflexivity|].
    destruct max_pages; cbn in *; [lia|exact I].
Qed.

End PagerOrder.

Section PagerStream.
Context {R : Runtime}.
Import Url MedicosDocScraper.
Variable w : world.
Variables (url html : pystr) (parsed : ParseResult).
Variables (build_id : json) (path_part : pystr) (first_page : pydict).
Variables (first : list json) (total_pages : Z).

Hypothesis directory_answers : directory_page w url = Ok html.
Hypothesis directory_payload :
  _parse_initial_payload url html
  = Ok (build_id, path_part, JObj first_page).
Hypothesis directory_url_parses : urlparse url [] = Ok parsed.
Hypothesis first_page_data : first_entries (JObj first_page) = Ok first.
Hypothesis page_count :
  (total <- get_default (JObj first_page) (str "totalPages") (JInt 1) ;;
   py_int total)%result = Ok total_pages.

Lemma run_fetch_doctors_loop (max_pages : option Z) :
  valid_max_pages max_pages ->
  run w (fetch_doctors url max_pages)
  = then_run (EvGet (initial_request url) :: map EvYield first, Ok tt)
      (fun _ =>
         run w (for_each (py_range 2 (page_limit total_pages max_pages + 1))
                  (fun page =>
                     doctors <- _fetch_page url build_id path_part page ;;
                     yield_from doctors)%prog)).
Proof.
  intros Hvalid. unfold fetch_doctors.
  rewrite (valid_max_pages_guard _ Hvalid).
  rewrite run_bind, run_get_html_any, directory_answers. simpl then_run.
  rewrite run_bind, run_lift, directory_payload. simpl then_run.
  simpl in page_count.
  rewrite run_bind, run_lift, page_count. simpl then_run.
  unfold first_entries in first_page_data. simpl in first_page_data.
  rewrite run_bind. unfold yield_from at 1.
  rewrite run_bind, run_lift, first_page_data. simpl then_run.
  rewrite run_yield_all. simpl then_run.
  fold (page_limit total_pages max_pages).
  destruct (run w (for_each _ _)) as [t' r'].
  reflexivity.
Qed.

Lemma run_page_serves page (entries : Z -> list json) :
  page_serves w parsed build_id path_part page (entries page) ->
  run w (doctors <- _fetch_page url build_id path_part page ;;
         yield_from doctors)%prog
  = (page_events parsed build_id path_part entries page, Ok tt).
Proof.
  intros H. rewrite run_bind.
  erewrite run_fetch_page_serves; [|exact directory_url_parses|exact H].
  simpl then_run. unfold yield_from.
  rewrite run_bind, run_lift. simpl then_run.
  rewrite run_yield_all. reflexivity.
Qed.

Lemma run_page_fails page e :
  page_fails w (page_request parsed build_id path_part page) e ->
  run w (doctors <- _fetch_page url build_id path_part page ;;
         yield_from doctors)%prog
  = ([EvGet (page_request parsed build_id path_part page)], Err e).
Proof.
  intros H. rewrite run_bind. unfold _fetch_page.
  rewrite directory_url_parses. cbn [lift bind run].
  destruct H as [H|(response & H & Hs)]; rewrite H; [reflexivity|].
  rewrite Hs. reflexivity.
Qed.

(** X14.  When pages 2 to q-1 are served and the request for page q
    fails (it raises, or comes back with an error status), the run ends
    with that error after the entries of the first page and of pages 2 to
    q-1 have been yielded; no page after q is asked for, and [list] of the
    generator raises, so a caller that collects the entries gets none. *)
Theorem fetch_doctors_page_failure (max_pages : option Z)
  (entries : Z -> list json) (q : Z) (e : exn) :
  valid_max_pages max_pages ->
  (2 <= q <= page_limit total_pages max_pages)%Z ->
  (forall p, (2 <= p < q)%Z ->
             page_serves w parsed build_id path_part p (entries p)) ->
  page_fails w (page_request parsed build_id path_part q) e ->
  let served := py_range 2 q in
  run w (fetch_doctors url max_pages)
  = (EvGet (initial_request url) :: map EvYield first
       ++ flat_map (page_events parsed build_id path_part entries) served
       ++ [EvGet (page_request parsed build_id path_part q)],
     Err e) /\
  yields (fst (run w (fetch_doctors url max_pages)))
  = first ++ flat_map entries served /\
  py_list w (fetch_doctors url max_pages) = Err e.
Proof.
  intros Hvalid Hq Hserved Hfails served.
  assert (Hrun : run w (fetch_doctors url max_pages)
                 = (EvGet (initial_request url) :: map EvYield first
                      ++ flat_map (page_events parsed build_id path_part
                                               entries) served
                      ++ [EvGet (page_request parsed build_id path_part q)],
                    Err e)).
  { rewrite (run_fetch_doctors_loop max_pages Hvalid).
    rewrite (@py_range_split 2 q) by lia.
    rewrite (run_for_each_stops w _
               (page_events parsed build_id path_part entries)
               (py_range 2 q) q _ (e := e)
               (t := [EvGet (page_request parsed build_id path_part q)])).
    - reflexivity.
    - intros p Hp. apply in_py_range in Hp.
      apply run_page_serves, Hserved. lia.
    - now apply run_page_fails. }
  split; [exact Hrun|]. split.
  - rewrite Hrun. cbn [fst].
    rewrite yields_get, !yields_app, yields_yield, yields_pages.
    cbn. now rewrite app_nil_r.
  - unfold py_list. now rewrite Hrun.
Qed.

(** X15.  The generator is lazy: the first [next] sends the directory
    request and nothing else, and hands out the first entry of the embedded
    payload; the remaining entries and the pages of the data endpoint come
    when the rest of the generator is run. *)
Theorem fetch_doctors_first_entry (max_pages : option Z)
  (entry : json) (others : list json) :
  valid_max_pages max_pages ->
  first = entry :: others ->
  exists rest,
    next w (fetch_doctors url max_pages)
    = ([EvGet (initial_request url)], Yielded entry rest) /\
    forall entries,
      (forall p, (2 <= p <= page_limit total_pages max_pages)%Z ->
                 page_serves w parsed build_id path_part p (entries p)) ->
      run w rest
      = (map EvYield others
           ++ flat_map (page_events parsed build_id path_part entries)
                       (py_range 2 (page_limit total_pages max_pages + 1)),
         Ok tt).
Proof.
  intros Hvalid Hfirst. unfold fetch_doctors.
  rewrite (valid_max_pages_guard _ Hvalid).
  rewrite next_get_html, directory_answers.
  rewrite directory_payload. cbn [lift bind get_default].
  simpl in page_count. rewrite page_count. cbn [lift bind get_default].
  unfold first_entries in first_page_data. simpl in first_page_data.
  unfold yield_from at 1. rewrite first_page_data, Hfirst.
  cbn [lift bind for_each yield next].
  eexists. split; [reflexivity|].
  intros entries Hpages.
  rewrite run_bind, run_yield_all. cbn [then_run].
  fold (page_limit total_pages max_pages).
  rewrite (run_for_each w _ (page_events parsed build_id path_part entries)).
  - reflexivity.
  - intros p Hp. apply in_py_range in Hp.
    apply run_page_serves, Hpages. lia.
Qed.

End PagerStream.

Section PagerExamples.
Import Url MedicosDocScraper.

Lemma fetch_doctors_fails_before_first_entry_witness :
  run sample_world (@fetch_doctors paged_runtime unserved_url None)
  = ([EvGet (initial_request unserved_url)],
     Err (LibraryError (str "ConnectionError"))) /\
  next sample_world (@fetch_doctors paged_runtime unserved_url None)
  = ([EvGet (initial_request unserved_url)],
     Raised (LibraryError (str "ConnectionError"))).
Proof.
  apply (@fetch_doctors_fails_before_first_entry paged_runtime sample_world
           unserved_url None (LibraryError (str "ConnectionError")) I).
  reflexivity.
Defined.

Lemma fetch_doctors_needs_page_count_witness :
  let e := TypeError
             (str "int() argument must be a string, a bytes-like object or a real number, not 'NoneType'") in
  run sample_world (@fetch_doctors null_count_runtime sample_url None)
  = ([EvGet (initial_request sample_url)], Err e) /\
  next sample_world (@fetch_doctors null_count_runtime sample_url None)
  = ([EvGet (initial_request sample_url)], Raised e).
Proof.
  apply (@fetch_doctors_needs_page_count null_count_runtime sample_world
           sample_url None sample_html (JStr (str "B1")) (str "en/dir")
           [(str "data", JList first_page_doctors);
            (str "totalPages", JNull)]
           JNull _ I eq_refl eq_refl eq_refl eq_refl).
Defined.

Lemma fetch_doctors_page_failure_witness :
  yields (fst (run sample_world
                   (@fetch_doctors four_page_runtime sample_url None)))
  = first_page_doctors ++ second_page_doctors ++ third_page_doctors /\
  py_list sample_world (@fetch_doctors four_page_runtime sample_url None)
  = Err (LibraryError (str "HTTPError")).
Proof.
  destruct (@fetch_doctors_page_failure four_page_runtime sample_world
              sample_url sample_html sample_parsed (JStr (str "B1"))
              (str "en/dir")
              [(str "data", JList first_page_doctors);
               (str "totalPages", JInt 4)]
              first_page_doctors 4%Z
              eq_refl eq_refl eq_refl eq_refl eq_refl
              None sample_pages 4%Z (LibraryError (str "HTTPError")))
    as (_ & Hyields & Hlist).
  - exact I.
  - cbn. lia.
  - intros p Hp. apply sample_world_serves. lia.
  - left. reflexivity.
  - split; [exact Hyields|exact Hlist].
Defined.

Lemma fetch_doctors_first_entry_witness :
  exists rest,
    next sample_world (@fetch_doctors paged_runtime sample_url (Some 2%Z))
    = ([EvGet (initial_request sample_url)],
       Yielded (sample_doctor "Ana" "Gynecologist") rest) /\
    forall entries,
      (forall p, (2 <= p <= 2)%Z ->
                 @page_serves paged_runtime sample_world sample_parsed
                              (JStr (str "B1")) (str "en/dir") p (entries p)) ->
      run sample_world rest
      = (map EvYield [sample_doctor "Luis" "Cardiologist"]
           ++ flat_map (@page_events paged_runtime sample_parsed
                                     (JStr (str "B1")) (str "en/dir") entries)
                       (py_range 2 3),
         Ok tt).
Proof.
  apply (@fetch_doctors_first_entry paged_runtime sample_world
           sample_url sample_html sample_parsed (JStr (str "B1"))
           (str "en/dir")
           [(str "data", JList first_page_doctors);
            (str "totalPages", JInt 3)]
           first_page_doctors 3%Z
           eq_refl eq_refl eq_refl eq_refl eq_refl
           (Some 2%Z) (sample_doctor "Ana" "Gynecologist")
           [sample_doctor "Luis" "Cardiologist"]).
  - cbn. lia.
  - reflexivity.
Defined.

Lemma fetch_doctors_pages_in_order_witness :
  exists data_url k,
    requests (fst (run sample_world
                       (@fetch_doctors four_page_runtime sample_url
                                       (Some 3%Z))))
    = initial_request sample_url
      :: map (data_request data_url) (py_range 2 k) /\
    (k <= 3 + 1)%Z.
Proof.
  apply (@fetch_doctors_pages_in_order four_page_runtime sample_world
           sample_url (Some 3%Z)).
  cbn. lia.
Defined.

End PagerExamples.

(** ** The filter on any entries *)

Section FilterAnyEntries.
Context {R : Runtime}.
Import MedicosDocScraper.

Lemma str_in_empty hay : str_in [] hay = true.
Proof. destruct hay; reflexivity. Qed.

Lemma run_filter_by_specialty (w : world) doctors specialty :
  run w (filter_by_specialty doctors specialty)
  = ([total_line doctors],
     filter_loop (normalize_str specialty) doctors []).
Proof.
  unfold filter_by_specialty. rewrite normalize_text_str.
  cbn [lift bind]. rewrite write_total_line.
  cbn [bind run]. rewrite run_lift. reflexivity.
Qed.

(** X16.  A target whose normal form is empty (blank, or without a
    character that survives the ASCII filter) selects every entry that has
    a category name. *)
Theorem filter_by_specialty_blank_target (w : world) (doctors : list json)
  (specialty : pystr) :
  normalize_str specialty = [] ->
  Forall (fun doctor => category_shaped doctor = true) doctors ->
  run w (filter_by_specialty doctors specialty)
  = ([total_line doctors], Ok (filter has_category_name doctors)).
Proof.
  intros Hblank Hshaped. rewrite run_filter_by_specialty.
  rewrite (filter_loop_shaped specialty [] Hshaped). cbn [app].
  do 2 f_equal. unfold matching_entries. apply filter_ext.
  intros doctor. unfold matches_specialty, has_category_name.
  destruct (category_name doctor); [|reflexivity].
  rewrite Hblank. apply str_in_empty.
Qed.


Lemma filter_loop_keeps target doctors matches result :
  filter_loop target doctors matches = Ok result ->
  exists keep,
    result = matches ++ filter keep doctors /\
    forall doctor,
      In doctor doctors -> keep doctor = true ->
      exists name normalized,
        _doctor_specialty doctor = Ok name /\ truthy name = true /\
        _normalize_text name = Ok normalized /\
        str_in target normalized = true.
Proof.
  set (keep := fun doctor =>
         match _doctor_specialty doctor with
         | Ok name =>
             truthy name &&
             match _normalize_text name with
             | Ok normalized => str_in target normalized
             | Err _ => false
             end
         | Err _ => false
         end).
  intros H. exists keep. split.
  - revert matches H. induction doctors as [|doctor doctors IH];
      intros matches H; cbn [filter_loop filter] in *.
    + injection H as <-. now rewrite app_nil_r.
    + unfold keep at 1.
      destruct (_doctor_specialty doctor) as [name|]; [|discriminate].
      cbn [rbind] in H.
      destruct (truthy name); cbn [negb andb] in *; [|now apply IH].
      destruct (_normalize_text name) as [normalized|]; [|discriminate].
      cbn [rbind] in H.
      destruct (str_in target normalized); [|now apply IH].
      rewrite (IH _ H). now rewrite <- app_assoc.
  - intros doctor _ Hkeep. unfold keep in Hkeep.
    destruct (_doctor_specialty doctor) as [name|]; [|discriminate].
    apply andb_true_iff in Hkeep as [Hname Hin].
    destruct (_normalize_text name) as [normalized|] eqn:Hn; [|discriminate].
    exists name, normalized. repeat split; assumption.
Qed.

(** X17.  Whatever the entries look like, when [filter_by_specialty]
    returns it has printed the one diagnostic line, and its result is the
    input with entries left out, in order; each entry it kept has a truthy
    specialty name whose normal form contains the normal form of the
    target. *)
Theorem filter_by_specialty_keeps_matching (w : world)
  (doctors : list json) (specialty : pystr) (trace : list event)
  (matches : list json) :
  run w (filter_by_specialty doctors specialty) = (trace, Ok matches) ->
  trace = [total_line doctors] /\
  exists keep,
    matches = filter keep doctors /\
    forall doctor,
      In doctor matches ->
      In doctor doctors /\
      exists name normalized,
        _doctor_specialty doctor = Ok name /\ truthy name = true /\
        _normalize_text name = Ok normalized /\
        str_in (normalize_str specialty) normalized = true.
Proof.
  rewrite run_filter_by_specialty. intros H. injection H as <- H.
  split; [reflexivity|].
  destruct (filter_loop_keeps _ _ _ H) as (keep & -> & Hkeep).
  exists keep. split; [reflexivity|].
  intros doctor Hin. cbn [app] in Hin. apply filter_In in Hin as [Hin Hk].
  split; [exact Hin|]. now apply Hkeep.
Qed.

(** The loop over entries of the data model's shape, whatever follows
    them. *)
Lemma filter_loop_app_shaped specialty good others matches :
  Forall (fun doctor => category_shaped doctor = true) good ->
  filter_loop (normalize_str specialty) (good ++ others) matches
  = filter_loop (normalize_str specialty) others
                (matches ++ matching_entries good specialty).
Proof.
  intros H. revert matches.
  induction H as [|doctor good Hd Hgood IH]; intros matches.
  - cbn. now rewrite app_nil_r.
  - cbn [app filter_loop].
    destruct (doctor_specialty_shaped _ Hd) as (v & -> & Hv). cbn [rbind].
    unfold matching_entries in *. cbn [filter].
    destruct (category_name doctor) as [name|] eqn:Hc.
    + destruct Hv as [-> Ht]. rewrite Ht. cbn [negb].
      rewrite normalize_text_str. cbn [rbind].
      assert (Hm : matches_specialty specialty doctor
                   = str_in (normalize_str specialty) (normalize_str name))
        by (unfold matches_specialty; now rewrite Hc).
      rewrite Hm.
      destruct (str_in _ _); rewrite IH; [now rewrite <- app_assoc|].
      reflexivity.
    + assert (Hm : matches_specialty specialty doctor = false)
        by (unfold matches_specialty; now rewrite Hc).
      rewrite Hm, Hv. cbn [negb]. apply IH.
Qed.

(** X18.  An entry that is not a mapping makes the filter raise
    AttributeError (no attribute get) when the loop reaches it, after the
    diagnostic line has been printed; the matches found so far are
    lost. *)
Theorem filter_by_specialty_rejects_non_mapping (w : world)
  (good : list json) (bad : json) (rest : list json) (specialty : pystr) :
  Forall (fun doctor => category_shaped doctor = true) good ->
  is_dict bad = false ->
  run w (filter_by_specialty (good ++ bad :: rest) specialty)
  = ([total_line (good ++ bad :: rest)], Err (no_attribute bad "get")).
Proof.
  intros Hgood Hbad. rewrite run_filter_by_specialty. f_equal.
  rewrite (filter_loop_app_shaped specialty (bad :: rest) [] Hgood).
  cbn [filter_loop]. unfold _doctor_specialty.
  destruct bad; try discriminate; reflexivity.
Qed.

Lemma filter_filter {A} (f g : A -> bool) l :
  filter f (filter g l) = filter (fun x => g x && f x) l.
Proof.
  induction l as [|x l IH]; [reflexivity|]. cbn [filter].
  destruct (g x); cbn [filter andb]; [|exact IH].
  destruct (f x); now rewrite IH.
Qed.

Lemma Forall_filter {A} (P : A -> Prop) (f : A -> bool) l :
  Forall P l -> Forall P (filter f l).
Proof.
  intros H. apply Forall_forall. intros x Hx.
  apply filter_In in Hx as [Hx _]. rewrite Forall_forall in H. now apply H.
Qed.

(** X19.  Filtering a result again narrows it: on entries of the data
    model's shape, filtering by one target and then by another returns the
    entries that match both, and filtering again by the same target
    returns the same list. *)
Theorem filter_by_specialty_narrows (w : world) (doctors : list json)
  (first second : pystr) (trace : list event) (matches : list json) :
  Forall (fun doctor => category_shaped doctor = true) doctors ->
  run w (filter_by_specialty doctors first) = (trace, Ok matches) ->
  run w (filter_by_specialty matches second)
  = ([total_line matches],
     Ok (filter (fun doctor => matches_specialty first doctor
                               && matches_specialty second doctor)
                doctors)) /\
  run w (filter_by_specialty matches first)
  = ([total_line matches], Ok matches).
Proof.
  intros Hshaped. rewrite !run_filter_by_specialty.
  rewrite (filter_loop_shaped first [] Hshaped). cbn [app].
  intros H. injection H as _ <-.
  assert (Hm : Forall (fun doctor => category_shaped doctor = true)
                      (matching_entries doctors first))
    by now apply Forall_filter.
  rewrite !(filter_loop_shaped _ [] Hm). cbn [app].
  unfold matching_entries. rewrite !filter_filter.
  split; [reflexivity|]. do 2 f_equal.
  apply filter_ext. intros doctor. now destruct (matches_specialty first doctor).
Qed.

End FilterAnyEntries.

Section FilterAnyExamples.
#[local] Existing Instance paged_runtime.
Import MedicosDocScraper.

Lemma filter_by_specialty_blank_target_witness :
  run sample_world (filter_by_specialty mixed_doctors foreign_target)
  = ([total_line mixed_doctors],
     Ok [ sample_doctor "Ana" "Gynecologist";
          sample_doctor "Luis" "Cardiologist";
          sample_doctor "Rosa" "Obstetrician-Gynecologist" ]).
Proof.
  apply (@filter_by_specialty_blank_target paged_runtime sample_world
           mixed_doctors foreign_target eq_refl).
  repeat constructor.
Defined.

Lemma filter_by_specialty_keeps_matching_witness :
  [total_line mixed_doctors] = [total_line mixed_doctors] /\
  exists keep,
    [ sample_doctor "Ana" "Gynecologist";
      sample_doctor "Rosa" "Obstetrician-Gynecologist" ]
    = filter keep mixed_doctors /\
    forall doctor,
      In doctor [ sample_doctor "Ana" "Gynecologist";
                  sample_doctor "Rosa" "Obstetrician-Gynecologist" ] ->
      In doctor mixed_doctors /\
      exists name normalized,
        _doctor_specialty doctor = Ok name /\ truthy name = true /\
        _normalize_text name = Ok normalized /\
        str_in (normalize_str accented_target) normalized = true.
Proof.
  apply (@filter_by_specialty_keeps_matching paged_runtime sample_world
           mixed_doctors accented_target).
  reflexivity.
Defined.

Lemma filter_by_specialty_rejects_non_mapping_witness :
  run sample_world
      (filter_by_specialty
         ([sample_doctor "Ana" "Gynecologist"] ++ JNull :: mixed_doctors)
         accented_target)
  = ([total_line ([sample_doctor "Ana" "Gynecologist"]
                  ++ JNull :: mixed_doctors)],
     Err (AttributeError (str "'NoneType' object has no attribute 'get'"))).
Proof.
  apply (@filter_by_specialty_rejects_non_mapping paged_runtime sample_world
           [sample_doctor "Ana" "Gynecologist"] JNull mixed_doctors
           accented_target).
  - repeat constructor.
  - reflexivity.
Defined.

Lemma filter_by_specialty_narrows_witness :
  let matches := [ sample_doctor "Ana" "Gynecologist";
                   sample_doctor "Rosa" "Obstetrician-Gynecologist" ] in
  run sample_world (filter_by_specialty matches (str "obstetric"))
  = ([total_line matches],
     Ok (filter (fun doctor =>
                   matches_specialty accented_target doctor
                   && matches_specialty (str "obstetric") doctor)
                mixed_doctors)) /\
  run sample_world (filter_by_specialty matches accented_target)
  = ([total_line matches], Ok matches).
Proof.
  apply (@filter_by_specialty_narrows paged_runtime sample_world
           mixed_doctors accented_target (str "obstetric")
           [total_line mixed_doctors]).
  - repeat constructor.
  - reflexivity.
Defined.

End FilterAnyExamples.

(** ** The record mapper on any entry *)

Section MapperAnyEntry.
Context {R : Runtime}.
Import Url MedicosDocScraper.

Lemma build_name_stripped doctor name :
  _build_name doctor = Ok name -> strip name = name.
Proof.
  unfold _build_name. intros H. bind_inversion H. injection H as <-.
  apply strip_by_idem.
Qed.

(** X20.  Every record [to_record] returns has the thirteen field
    names as its keys, in their order; its name is a string without white
    space at either end, its premium a boolean, its photo_url a string. *)
Theorem to_record_fields (doctor : json) (url : pystr) (record : pydict) :
  to_record doctor url = Ok record ->
  map fst record = fieldnames /\
  (exists name, lookup (str "name") record = Some (JStr name) /\
                strip name = name) /\
  (exists flag, lookup (str "premium") record = Some (JBool flag)) /\
  (exists photo, lookup (str "photo_url") record = Some (JStr photo)).
Proof.
  intros H. unfold to_record in H. bind_inversion H. injection H as <-.
  split; [reflexivity|]. split; [|split].
  - eexists. split; [reflexivity|].
    match goal with
    | Hn : _build_name doctor = Ok _ |- _ => exact (build_name_stripped _ Hn)
    end.
  - eexists. reflexivity.
  - eexists. reflexivity.
Qed.

Lemma to_record_normalized doctor url record :
  to_record doctor url = Ok record -> is_normalized_record (JObj record).
Proof.
  intros H. exists record. split; [reflexivity|].
  unfold to_record in H. bind_inversion H. now injection H as <-.
Qed.

Lemma comprehension_ok {X Y} (f : X -> result Y) xs ys :
  comprehension f xs = Ok ys -> Forall2 (fun x y => f x = Ok y) xs ys.
Proof.
  revert ys. induction xs as [|x xs IH]; intros ys H; cbn in H.
  - injection H as <-. constructor.
  - destruct (f x) as [y|] eqn:Hx; [|discriminate]. cbn [rbind] in H.
    destruct (comprehension f xs) as [ys'|]; [|discriminate].
    injection H as <-. constructor; [exact Hx|now apply IH].
Qed.

Lemma mapped_records_normalized doctors url records :
  comprehension (fun doc => to_record doc url) doctors = Ok records ->
  Forall is_normalized_record (map JObj records).
Proof.
  intros H. apply comprehension_ok in H.
  induction H as [|doctor record doctors records Hr _ IH]; [constructor|].
  cbn [map]. constructor; [|exact IH].
  now apply to_record_normalized with (doctor := doctor) (url := url).
Qed.

Lemma forallb_first_false {A} (p : A -> bool) l :
  forallb p l = false ->
  exists good bad rest,
    l = good ++ bad :: rest /\ forallb p good = true /\ p bad = false.
Proof.
  induction l as [|x l IH]; [discriminate|]. cbn [forallb].
  destruct (p x) eqn:Hx.
  - cbn [andb]. intros H. destruct (IH H) as (good & bad & rest & -> & Hg & Hb).
    exists (x :: good), bad, rest. cbn [forallb]. now rewrite Hx.
  - intros _. now exists [], x, l.
Qed.

(** X21.  The records the comprehension over [to_record] builds, one
    per entry, are rows whose keys the CSV writer accepts.  When the
    stream takes their text, the CSV branch of [write_output] writes the
    table and returns, and read back the text is the header followed by
    one row per record.  It raises on them only when the stream does not
    take the text of a row, and what it raises then is UnicodeEncodeError,
    never the ValueError of the writer. *)
Theorem mapped_records_fit_csv (w : world) (doctors : list json)
  (url : pystr) (records : list pydict) (output_format : pystr)
  (destination : option pystr) :
  comprehension (fun doc => to_record doc url) doctors = Ok records ->
  output_format <> str "json" ->
  let stream := given destination in
  let rows := map JObj records in
  List.length records = List.length doctors /\
  (forallb (row_taken stream) rows = true ->
   run w (write_output rows output_format destination)
   = (csv_events destination (csv_table rows), Ok tt) /\
   CsvReader.rows
     (written stream (csv_events destination (csv_table rows)))
   = fieldnames :: map (fun record => record_cells (JObj record)) records) /\
  (forall e,
      snd (run w (write_output rows output_format destination)) = Err e ->
      forallb (row_taken stream) rows = false /\
      exists message, e = UnicodeEncodeError message).
Proof.
  intros Hrecords Hformat stream rows.
  assert (Hrows : Forall is_normalized_record rows)
    by now apply mapped_records_normalized with (doctors := doctors) (url := url).
  split; [|split].
  - clear Hrows. subst rows stream. apply comprehension_ok in Hrecords.
    induction Hrecords; cbn; congruence.
  - intros Htaken. split.
    + now apply run_write_output_csv.
    + unfold stream. rewrite written_csv_events, rows_of_csv_table.
      unfold csv_table, rows. now rewrite map_map.
  - intros e He. destruct (forallb (row_taken stream) rows) eqn:Htaken.
    + rewrite (@run_write_output_csv _ w rows output_format destination
                 Hformat Hrows Htaken) in He.
      discriminate.
    + split; [reflexivity|].
      destruct (forallb_first_false _ _ Htaken)
        as (good & bad & rest & Hsplit & Hgood & Hbad).
      rewrite Hsplit in Hrows, He.
      apply Forall_app in Hrows as [Hg Hrest].
      inversion Hrest as [|? ? Hb _]; subst.
      destruct (@run_write_output_refused _ w good bad rest output_format
                  destination Hformat Hg Hb Hgood Hbad) as [message Hrun].
      rewrite Hrun in He. injection He as <-. now exists message.
Qed.

Lemma strip_by_snoc p a c :
  p c = true -> strip_by p (strip_by p a ++ [c]) = strip_by p a.
Proof.
  intros Hc.
  assert (Hhead : clean_head p (strip_by p a))
    by apply rstrip_by_clean_head, lstrip_by_clean.
  assert (Hend : rstrip_by p (strip_by p a) = strip_by p a)
    by apply rstrip_by_idem.
  destruct (strip_by p a) as [|d s] eqn:E.
  - unfold strip_by. cbn. now rewrite Hc.
  - unfold strip_by at 1.
    rewrite lstrip_by_fixed by exact Hhead.
    unfold rstrip_by in *. rewrite rev_app_distr. cbn [rev app lstrip_by].
    rewrite Hc. exact Hend.
Qed.

Lemma strip_by_cons p a c :
  p c = true -> strip_by p (c :: strip_by p a) = strip_by p a.
Proof.
  intros Hc. unfold strip_by at 1. cbn [lstrip_by]. rewrite Hc.
  apply strip_by_idem.
Qed.

Lemma strip_falsy v : falsy v -> strip (text_or_empty v) = [].
Proof.
  intros Hv. destruct v as [| | | |[|c s]| |]; try reflexivity.
  discriminate.
Qed.

Lemma falsy_optional_text v : falsy v -> optional_text v = true.
Proof. unfold falsy, optional_text. now intros ->. Qed.

Lemma text_optional_text s : optional_text (JStr s) = true.
Proof. unfold optional_text. apply orb_true_r. Qed.

(** X22.  When only one of the two names is present, [_build_name]
    returns that name trimmed: the separating space leaves no trace. *)
Theorem build_name_one_part (doctor : json) (text : pystr) :
  is_dict doctor = true ->
  (field doctor (str "Name") = JStr text ->
   falsy (field doctor (str "LastName")) ->
   _build_name doctor = Ok (strip text)) /\
  (falsy (field doctor (str "Name")) ->
   field doctor (str "LastName") = JStr text ->
   _build_name doctor = Ok (strip text)).
Proof.
  intros Hdict. split.
  - intros Hname Hlast.
    rewrite (build_name_shaped _ Hdict);
      [|rewrite Hname; apply text_optional_text
       |now apply falsy_optional_text].
    unfold full_name. rewrite Hname, (strip_falsy Hlast). cbn [text_or_empty].
    f_equal. rewrite app_nil_r. now apply strip_by_snoc.
  - intros Hname Hlast.
    rewrite (build_name_shaped _ Hdict);
      [|now apply falsy_optional_text
       |rewrite Hlast; apply text_optional_text].
    unfold full_name. rewrite Hlast, (strip_falsy Hname). cbn [text_or_empty].
    f_equal. now apply strip_by_cons.
Qed.

End MapperAnyEntry.

Section MapperAnyExamples.
#[local] Existing Instance paged_runtime.
Import Url MedicosDocScraper.

Lemma to_record_fields_witness :
  let record :=
    normalized_record full_doctor (str "https://example.com/img/x.jpg") in
  to_record full_doctor sample_url = Ok record /\
  map fst record = fieldnames /\
  (exists name, lookup (str "name") record = Some (JStr name) /\
                strip name = name) /\
  (exists flag, lookup (str "premium") record = Some (JBool flag)) /\
  (exists photo, lookup (str "photo_url") record = Some (JStr photo)).
Proof.
  split; [reflexivity|].
  apply (@to_record_fields paged_runtime full_doctor sample_url).
  reflexivity.
Defined.

Lemma mapped_records_fit_csv_witness :
  let records :=
    [ normalized_record full_doctor (str "https://example.com/img/x.jpg");
      normalized_record (JObj []) (str "https://example.com/") ] in
  comprehension (fun doc => to_record doc sample_url) [full_doctor; JObj []]
  = Ok records /\
  forallb (row_taken None) (map JObj records) = true /\
  List.length records = 2%nat /\
  run sample_world (write_output (map JObj records) (str "csv") None)
  = (csv_events None (csv_table (map JObj records)), Ok tt) /\
  CsvReader.rows
    (written (given None)
             (csv_events None (csv_table (map JObj records))))
  = fieldnames :: map (fun record => record_cells (JObj record)) records.
Proof.
  intros records. split; [reflexivity|]. split; [reflexivity|].
  destruct (@mapped_records_fit_csv paged_runtime sample_world
              [full_doctor; JObj []] sample_url records (str "csv") None)
    as (Hlength & Htaken & _).
  - reflexivity.
  - discriminate.
  - split; [exact Hlength|]. now apply Htaken.
Defined.

Lemma build_name_one_part_witness :
  _build_name first_name_only = Ok (str "Ana").
Proof.
  destruct (@build_name_one_part first_name_only (str " Ana ")
              eq_refl) as [Hfirst _].
  exact (Hfirst eq_refl eq_refl).
Defined.

End MapperAnyExamples.

(** ** The writer on a row it does not accept *)

Section WriterFailure.
Context {R : Runtime}.
Variable w : world.

Lemma run_writerow_unexpected dest row :
  has_unexpected_field row = true ->
  run w (Csv.writerow dest fieldnames (JObj row))
  = ([], Err (ValueError (str "dict contains fields not in fieldnames: "))).
Proof.
  intros H. unfold Csv.writerow, Csv.row_cells, Csv._dict_to_list.
  unfold has_unexpected_field in H. now rewrite H.
Qed.

Lemma run_writerows_stops dest good row rest :
  Forall is_normalized_record good ->
  forallb (row_taken dest) good = true ->
  has_unexpected_field row = true ->
  run w (Csv.writerows dest fieldnames (good ++ JObj row :: rest))
  = (map (fun cells => EvWrite dest (Csv.format_row cells))
         (map record_cells good),
     Err (ValueError (str "dict contains fields not in fieldnames: "))).
Proof.
  intros Hgood Htaken Hrow. unfold Csv.writerows.
  rewrite (run_for_each_stops w _
             (fun record => [EvWrite dest
                               (Csv.format_row (record_cells record))])
             good (JObj row) rest (t := []) (e := ValueError
                (str "dict contains fields not in fieldnames: "))).
  - now rewrite app_nil_r, row_events_flat.
  - intros record Hin. rewrite Forall_forall in Hgood.
    rewrite forallb_forall in Htaken.
    apply run_writerow; auto.
  - now apply run_writerow_unexpected.
Qed.

(** X23.  A row with a key that is not a field name makes the CSV
    branch raise ValueError when it reaches the row, the rows before it
    being rows whose text the stream takes: the header and those rows have
    been written by then, and the destination, when it is a file, has been
    opened and is not closed. *)
Theorem write_output_unexpected_field (good : list json) (row : pydict)
  (rest : list json) (output_format : pystr) (destination : option pystr) :
  output_format <> str "json" ->
  Forall is_normalized_record good ->
  forallb (row_taken (given destination)) good = true ->
  has_unexpected_field row = true ->
  let trace := unfinished_csv_events destination (csv_table good) in
  (exists message,
      run w (write_output (good ++ JObj row :: rest) output_format destination)
      = (trace, Err (ValueError message))) /\
  (forall path, ~ In (EvClose path) trace).
Proof.
  intros Hformat Hgood Htaken Hrow trace. split.
  - eexists. unfold write_output. rewrite (str_eqb_neq Hformat).
    unfold trace, unfinished_csv_events, csv_table.
    destruct (given destination) as [path|].
    + rewrite run_bind. cbn [run then_run].
      rewrite run_bind, run_writeheader. cbn [then_run].
      rewrite run_bind, (@run_writerows_stops _ _ _ rest Hgood Htaken Hrow).
      cbn [then_run app map]. reflexivity.
    + rewrite run_bind, run_writeheader. cbn [then_run].
      rewrite (@run_writerows_stops _ _ _ rest Hgood Htaken Hrow).
      reflexivity.
  - intros path. unfold trace, unfinished_csv_events.
    destruct (given destination) as [p|].
    + intros [H|H]; [discriminate|].
      apply in_map_iff in H as (cells & H & _). discriminate.
    + intros H. apply in_map_iff in H as (cells & H & _). discriminate.
Qed.

End WriterFailure.

Section WriterFailureExamples.
#[local] Existing Instance paged_runtime.

Lemma write_output_unexpected_field_witness :
  let good := [JObj (normalized_record (JObj []) (str "https://example.com/"))] in
  let trace := unfinished_csv_events (Some (str "out.csv")) (csv_table good) in
  (exists message,
      run sample_world
          (write_output (good ++ JObj stray_record :: good) (str "csv")
                        (Some (str "out.csv")))
      = (trace, Err (ValueError message))) /\
  (forall path, ~ In (EvClose path) trace).
Proof.
  apply (@write_output_unexpected_field paged_runtime sample_world
           [JObj (normalized_record (JObj []) (str "https://example.com/"))]
           stray_record).
  - discriminate.
  - repeat constructor. eexists; split; reflexivity.
  - reflexivity.
  - reflexivity.
Defined.

End WriterFailureExamples.

(** ** The entry points *)

Section Collect.
Variable w : world.

Lemma run_collect (g : generator) :
  run w (collect g) = (without_yields (fst (run w g)), py_list w g).
Proof.
  unfold py_list.
  induction g as [a|e|ev k IH|rq k IH]; cbn [collect run].
  - reflexivity.
  - reflexivity.
  - destruct ev as [rq|v|path|dest txt|path];
      try (cbn [run]; rewrite IH; destruct (run w k) as [t [a|e]];
           reflexivity).
    rewrite run_bind, IH. destruct (run w k) as [t [a|e]]; cbn.
    + now rewrite app_nil_r.
    + reflexivity.
  - destruct (w rq) as [response|e]; [|reflexivity].
    rewrite IH. destruct (run w (k response)) as [t [a|e]]; reflexivity.
Qed.

End Collect.

Lemma local_trace t :
  Forall local_event t -> requests t = [] /\ yields t = [] .
Proof.
  induction 1 as [|ev t Hev Ht [IHr IHy]]; [now split|].
  destruct ev; try contradiction; cbn; now split.
Qed.

Lemma requests_map_get rqs : requests (map EvGet rqs) = rqs.
Proof.
  induction rqs as [|rq rqs IH]; [reflexivity|].
  cbn [map]. now rewrite requests_get, IH.
Qed.

Lemma written_map_get dest rqs : written dest (map EvGet rqs) = [].
Proof. induction rqs as [|rq rqs IH]; [reflexivity|exact IH]. Qed.

Lemma events_of_did t : events_of (map Did t) = t.
Proof.
  induction t as [|ev t IH]; [reflexivity|].
  cbn [map]. unfold events_of in *. cbn [flat_map app]. now rewrite IH.
Qed.

Lemma events_of_app s s' : events_of (s ++ s') = events_of s ++ events_of s'.
Proof. apply flat_map_app. Qed.

Section EntryPointProperties.
Context {R : Runtime}.
Import Url MedicosDocScraper.
Variable w : world.

(** What [list] leaves of the run of the pager: its requests. *)
Lemma pager_trace_requests url max_pages t :
  Forall (pager_event url max_pages) t ->
  without_yields t = map EvGet (requests t).
Proof.
  induction 1 as [|ev t Hev Ht IH]; [reflexivity|].
  unfold without_yields, requests in *.
  destruct ev; try contradiction; cbn [filter flat_map map app];
    now rewrite IH.
Qed.

Lemma run_collect_fetch_doctors url max_pages :
  run w (collect (fetch_doctors url max_pages))
  = (map EvGet (requests (fst (run w (fetch_doctors url max_pages)))),
     py_list w (fetch_doctors url max_pages)).
Proof.
  rewrite run_collect. f_equal.
  apply pager_trace_requests with (url := url) (max_pages := max_pages).
  apply obeys_run, obeys_fetch_doctors.
Qed.

Lemma obeys_write dest txt : obeys local_event (write dest txt).
Proof. unfold write. destruct (encode _ txt); cbn; auto. Qed.

Lemma obeys_filter_by_specialty doctors specialty :
  obeys local_event (filter_by_specialty doctors specialty).
Proof.
  unfold filter_by_specialty.
  apply obeys_bind; [apply obeys_lift|]. intros target.
  apply obeys_bind; [apply obeys_write|]. intros _. apply obeys_lift.
Qed.

Lemma obeys_writerow dest names row :
  obeys local_event (Csv.writerow dest names row).
Proof.
  unfold Csv.writerow. apply obeys_bind; [apply obeys_lift|].
  intros cells. apply obeys_write.
Qed.

Lemma obeys_write_output records output_format destination :
  obeys local_event (write_output records output_format destination).
Proof.
  unfold write_output.
  destruct (str_eqb output_format (str "json")).
  - destruct (given destination) as [path|]; [|apply obeys_write].
    cbn. split; [exact I|].
    destruct (encode utf_8 _); cbn; auto.
  - destruct (given destination) as [path|].
    + apply obeys_bind; [cbn; auto|]. intros _.
      apply obeys_bind; [apply obeys_writerow|]. intros _.
      apply obeys_bind; [|intros _; cbn; auto].
      apply obeys_for_each. intros row _. apply obeys_writerow.
    + apply obeys_bind; [apply obeys_writerow|]. intros _.
      apply obeys_for_each. intros row _. apply obeys_writerow.
Qed.

(** The part of [main] after the fetch. *)
Lemma obeys_main_rest args doctors :
  obeys local_event
    (filtered <- filter_by_specialty doctors (arg_specialty args) ;;
     records <- lift (comprehension (fun doc => to_record doc (arg_url args))
                                    filtered) ;;
     write_output (map JObj records) (arg_output_format args)
                  (arg_output_path args))%prog.
Proof.
  apply obeys_bind; [apply obeys_filter_by_specialty|]. intros filtered.
  apply obeys_bind; [apply obeys_lift|]. intros records.
  apply obeys_write_output.
Qed.

(** X24.  [main] does all its fetching before anything else: its
    trace is the requests of the one run of [fetch_doctors] followed by
    local events only, and when the fetch raises, that error ends [main]
    with nothing printed or written. *)
Theorem main_fetches_first (args : Namespace) :
  let fetched :=
    fst (run w (fetch_doctors (arg_url args) (arg_max_pages args))) in
  (forall e,
      py_list w (fetch_doctors (arg_url args) (arg_max_pages args)) = Err e ->
      run w (main args) = (map EvGet (requests fetched), Err e)) /\
  exists local,
    fst (run w (main args)) = map EvGet (requests fetched) ++ local /\
    Forall local_event local.
Proof.
  intros fetched. unfold main. rewrite run_bind, run_collect_fetch_doctors.
  fold fetched. split.
  - intros e ->. reflexivity.
  - destruct (py_list w _) as [doctors|e]; cbn [then_run].
    + pose proof (@obeys_run _ _ w _ (obeys_main_rest args doctors)) as Hlocal.
      destruct (run w (bind (filter_by_specialty _ _) _)) as [t r].
      exists t. cbn [fst] in *. now split.
    + exists []. split; [now rewrite app_nil_r|constructor].
Qed.

Lemma then_run_ok {A B} (first : list event * result A)
  (k : A -> list event * result B) t b :
  then_run first k = (t, Ok b) ->
  exists t1 a t2, first = (t1, Ok a) /\ k a = (t2, Ok b) /\ t = t1 ++ t2.
Proof.
  destruct first as [t1 [a|e]]; cbn; [|discriminate].
  destruct (k a) as [t2 r] eqn:Hk. intros H. injection H as <- ->.
  now exists t1, a, t2.
Qed.

(** X25.  The standard output of a run of [main] that returns starts
    with the diagnostic line Total doctors: n, n being the number of
    entries fetched; a JSON or CSV output that goes to standard output
    follows it on the same stream. *)
Theorem main_prints_total_first (args : Namespace) (trace : list event) :
  run w (main args) = (trace, Ok tt) ->
  exists doctors output,
    py_list w (fetch_doctors (arg_url args) (arg_max_pages args)) = Ok doctors /\
    written None trace = total_text doctors ++ output.
Proof.
  unfold main. rewrite run_bind, run_collect_fetch_doctors. intros H.
  apply then_run_ok in H as (t1 & doctors & t2 & H1 & H2 & ->).
  injection H1 as <- Hlist.
  rewrite run_bind in H2.
  apply then_run_ok in H2 as (t3 & filtered & t4 & H3 & _ & ->).
  rewrite run_filter_by_specialty in H3. injection H3 as <- _.
  exists doctors, (written None t4). split; [exact Hlist|].
  rewrite !written_app, written_map_get. cbn [app].
  unfold total_line, total_text, written. cbn [flat_map].
  now rewrite app_nil_r, <- !app_assoc.
Qed.

End EntryPointProperties.

(** ** Items of a dict *)

Lemma setitem_keys {V} (k : pystr) (v : V) d s :
  In s (map fst (setitem k v d)) <-> In s (map fst d) \/ s = k.
Proof.
  induction d as [|[k' v'] d IH]; cbn [setitem map fst In].
  - intuition.
  - destruct (str_eqb k k') eqn:E; cbn [map fst In].
    + apply str_eqb_eq in E. subst k'. intuition.
    + rewrite IH. intuition.
Qed.

Lemma setitem_nodup {V} (k : pystr) (v : V) d :
  NoDup (map fst d) -> NoDup (map fst (setitem k v d)).
Proof.
  induction d as [|[k' v'] d IH]; cbn [setitem map fst]; intros H.
  - repeat constructor. intros [].
  - inversion H as [|? ? Hnot Hd]; subst.
    destruct (str_eqb k k') eqn:E; cbn [map fst].
    + now constructor.
    + constructor; [|now apply IH].
      rewrite setitem_keys. intros [Hin| ->]; [contradiction|].
      now rewrite str_eqb_refl in E.
Qed.

Lemma setitem_Forall {V} (P : pystr * V -> Prop) k v d :
  P (k, v) -> Forall P d -> Forall P (setitem k v d).
Proof.
  intros Hkv. induction 1 as [|[k' v'] d Hx Hd IH]; cbn [setitem].
  - now repeat constructor.
  - destruct (str_eqb k k') eqn:E.
    + apply str_eqb_eq in E. subst k'. now constructor.
    + now constructor.
Qed.

Section BatchProperties.
Context {R : Runtime}.
Import Url MedicosDocScraper.
Variable w : world.
Variable fs : FileSystem.

Lemma obeys_specialties_loop url doctors output_path slug output_format
  specialties records_by_specialty :
  obeys local_event
    (specialties_loop fs url doctors output_path slug output_format
                      specialties records_by_specialty).
Proof.
  revert records_by_specialty.
  induction specialties as [|specialty rest IH]; intros acc;
    cbn [specialties_loop]; [exact I|].
  apply obeys_bind; [apply obeys_filter_by_specialty|]. intros filtered.
  apply obeys_bind; [apply obeys_lift|]. intros records.
  apply obeys_bind; [apply obeys_lift|]. intros destination.
  apply obeys_bind; [apply obeys_write_output|]. intros _. apply IH.
Qed.

Lemma perform_collect_fetch_doctors url max_pages :
  perform w (collect (fetch_doctors url max_pages))
  = (map Did (map EvGet
                  (requests (fst (run w (fetch_doctors url max_pages))))),
     py_list w (fetch_doctors url max_pages)).
Proof. unfold perform. now rewrite run_collect_fetch_doctors. Qed.

(** The steps after the fetch. *)
Lemma perform_local {A} (p : prog A) :
  obeys local_event p ->
  exists t, fst (perform w p) = map Did t /\ Forall local_event t.
Proof.
  intros H. pose proof (@obeys_run _ _ w _ H) as Hlocal.
  unfold perform. destruct (run w p) as [t r]. now exists t.
Qed.

(** X26.  [run_specialties] fetches once: whatever the number of
    specialties, the requests of a batch are those of one run of
    [fetch_doctors]; and when the fetch raises, the batch ends with that
    error before a directory is made or a line written. *)
Theorem run_specialties_fetches_once (url : pystr)
  (specialties : list pystr) (output_dir : option pystr)
  (output_format : pystr) (max_pages : option Z) :
  let fetched := fst (run w (fetch_doctors url max_pages)) in
  requests (events_of (fst (run_specialties w fs url specialties output_dir
                                            output_format max_pages)))
  = requests fetched /\
  (forall e,
      py_list w (fetch_doctors url max_pages) = Err e ->
      run_specialties w fs url specialties output_dir output_format max_pages
      = (map Did (map EvGet (requests fetched)), Err e)).
Proof.
  intros fetched. unfold run_specialties.
  rewrite perform_collect_fetch_doctors. fold fetched.
  split.
  - destruct (py_list w _) as [doctors|e]; cbn [and_then].
    + match goal with
      | |- context [perform w ?p] =>
          destruct (@perform_local _ p) as (t & Ht & Hlocal)
      end.
      { apply obeys_bind; [apply obeys_lift|]. intros slug.
        apply obeys_specialties_loop. }
      destruct (given output_dir) as [dir|].
      * destruct (mkdir fs dir) as [e|]; cbn [and_then fst].
        -- rewrite events_of_app, events_of_did. cbn.
           now rewrite app_nil_r, requests_map_get.
        -- destruct (perform w _) as [t' r']. cbn [fst] in *. subst t'.
           change ([Mkdir dir] ++ map Did t) with (Mkdir dir :: map Did t).
           rewrite events_of_app, events_of_did.
           change (events_of (Mkdir dir :: map Did t))
             with (events_of (map Did t)).
           rewrite events_of_did, requests_app, requests_map_get.
           destruct (local_trace Hlocal) as [-> _]. apply app_nil_r.
      * cbn [and_then].
        destruct (perform w _) as [t' r']. cbn [fst app] in *. subst t'.
        rewrite events_of_app, !events_of_did, requests_app, requests_map_get.
        destruct (local_trace Hlocal) as [-> _]. apply app_nil_r.
    + cbn [fst]. now rewrite events_of_did, requests_map_get.
  - intros e ->. reflexivity.
Qed.

(** X27.  With an output directory, the directory is made after the
    fetch and before anything is printed or written; when making it fails,
    the batch ends with that error and no specialty has been processed. *)
Theorem run_specialties_makes_directory_first (url : pystr)
  (specialties : list pystr) (output_dir : option pystr)
  (output_format : pystr) (max_pages : option Z)
  (doctors : list json) (dir : pystr) :
  py_list w (fetch_doctors url max_pages) = Ok doctors ->
  given output_dir = Some dir ->
  let gets :=
    map Did (map EvGet (requests (fst (run w (fetch_doctors url max_pages))))) in
  (exists later,
      fst (run_specialties w fs url specialties output_dir output_format
                           max_pages)
      = gets ++ Mkdir dir :: map Did later /\
      Forall local_event later) /\
  (forall e,
      mkdir fs dir = Some e ->
      run_specialties w fs url specialties output_dir output_format max_pages
      = (gets ++ [Mkdir dir], Err e)).
Proof.
  intros Hlist Hdir gets. unfold run_specialties.
  rewrite perform_collect_fetch_doctors, Hlist, Hdir. fold gets.
  cbn [and_then]. split.
  - destruct (mkdir fs dir) as [e|]; cbn [and_then fst].
    + exists []. now split.
    + match goal with
      | |- context [perform w ?p] =>
          destruct (@perform_local _ p) as (t & Ht & Hlocal)
      end.
      { apply obeys_bind; [apply obeys_lift|]. intros slug.
        apply obeys_specialties_loop. }
      destruct (perform w _) as [t' r']. cbn [fst] in *. subst t'.
      exists t. now split.
  - intros e ->. reflexivity.
Qed.

Lemma and_then_ok {A B} (first : list action * result A)
  (k : A -> list action * result B) t b :
  and_then first k = (t, Ok b) ->
  exists t1 a t2, first = (t1, Ok a) /\ k a = (t2, Ok b) /\ t = t1 ++ t2.
Proof.
  destruct first as [t1 [a|e]]; cbn; [|discriminate].
  destruct (k a) as [t2 r] eqn:Hk. intros H. injection H as <- ->.
  now exists t1, a, t2.
Qed.

Lemma specialties_loop_result url doctors output_path slug output_format
  specialties records_by_specialty t result :
  run w (specialties_loop fs url doctors output_path slug output_format
                          specialties records_by_specialty)
  = (t, Ok result) ->
  (NoDup (map fst records_by_specialty) -> NoDup (map fst result)) /\
  (forall s, In s (map fst result) <->
             In s (map fst records_by_specialty) \/ In s specialties) /\
  (Forall (records_for w url doctors) records_by_specialty ->
   Forall (records_for w url doctors) result).
Proof.
  revert records_by_specialty t.
  induction specialties as [|specialty rest IH]; intros acc t H;
    cbn [specialties_loop] in H.
  - cbn in H. injection H as <- <-. repeat split; try tauto.
    intros [Hs|[]]. exact Hs.
  - rewrite run_bind in H.
    apply then_run_ok in H as (t1 & filtered & t2 & Hfilter & H & ->).
    rewrite run_bind, run_lift in H.
    apply then_run_ok in H as (t3 & records & t4 & Hrecords & H & ->).
    injection Hrecords as <- Hrecords.
    rewrite run_bind, run_lift in H.
    apply then_run_ok in H as (t5 & destination & t6 & _ & H & ->).
    rewrite run_bind in H.
    apply then_run_ok in H as (t7 & [] & t8 & _ & H & ->).
    destruct (IH _ _ H) as (Hnodup & Hkeys & Hvalues).
    split; [|split].
    + intros Hacc. apply Hnodup. now apply setitem_nodup.
    + intros s. rewrite Hkeys, setitem_keys. cbn [In]. intuition.
    + intros Hacc. apply Hvalues. apply setitem_Forall; [|exact Hacc].
      exists filtered. cbn [fst snd]. rewrite Hfilter. now split.
Qed.

(** X28.  When [run_specialties] returns, the mapping it returns has
    one item per distinct specialty asked for, and the item of a specialty
    holds the records [to_record] builds from the entries
    [filter_by_specialty] returns for it. *)
Theorem run_specialties_result (url : pystr) (specialties : list pystr)
  (output_dir : option pystr) (output_format : pystr)
  (max_pages : option Z) (steps : list action)
  (result : list (pystr * list pydict)) :
  run_specialties w fs url specialties output_dir output_format max_pages
  = (steps, Ok result) ->
  exists doctors,
    py_list w (fetch_doctors url max_pages) = Ok doctors /\
    NoDup (map fst result) /\
    (forall s, In s (map fst result) <-> In s specialties) /\
    Forall (records_for w url doctors) result.
Proof.
  unfold run_specialties. rewrite perform_collect_fetch_doctors. intros H.
  apply and_then_ok in H as (t1 & doctors & t2 & Hfetch & H & _).
  injection Hfetch as _ Hlist. exists doctors. split; [exact Hlist|].
  apply and_then_ok in H as (t3 & [] & t4 & _ & H & _).
  unfold perform in H.
  destruct (run w _) as [t r] eqn:Hrun. injection H as _ ->.
  rewrite run_bind, run_lift in Hrun.
  apply then_run_ok in Hrun as (t5 & slug & t6 & _ & Hloop & _).
  destruct (specialties_loop_result _ _ _ _ _ _ _ Hloop)
    as (Hnodup & Hkeys & Hvalues).
  split; [apply Hnodup; constructor|]. split.
  - intros s. rewrite Hkeys. cbn [map In]. tauto.
  - apply Hvalues. constructor.
Qed.

End BatchProperties.

Section EntryPointExamples.
#[local] Existing Instance paged_runtime.
Import Url MedicosDocScraper.

Lemma main_fetches_first_witness :
  run sample_world (main unserved_args)
  = ([EvGet (initial_request unserved_url)],
     Err (LibraryError (str "ConnectionError"))).
Proof.
  destruct (@main_fetches_first paged_runtime sample_world unserved_args)
    as [Hfail _].
  apply (Hfail (LibraryError (str "ConnectionError"))). reflexivity.
Defined.

Lemma main_prints_total_first_witness :
  exists doctors output,
    py_list sample_world (fetch_doctors sample_url (Some 2%Z)) = Ok doctors /\
    written None (fst (run sample_world (main sample_args)))
    = total_text doctors ++ output.
Proof.
  apply (@main_prints_total_first paged_runtime sample_world sample_args).
  reflexivity.
Defined.

(** The run of the example: the three entries are counted on standard
    output, and the table follows on the same stream. *)
Example main_output :
  written None (fst (run sample_world (main sample_args)))
  = str "Total doctors: 3" ++ [10%N]
    ++ Csv.format_row fieldnames
    ++ Csv.format_row
         (map str [ EmptyString; "Ana"; "Gynecologist"; EmptyString;
                    EmptyString; EmptyString; EmptyString; EmptyString;
                    EmptyString; "False"; EmptyString; EmptyString;
                    "https://example.com/" ]%string).
Proof. reflexivity. Qed.

Lemma run_specialties_fetches_once_witness :
  requests (events_of (fst (run_specialties sample_world sample_fs sample_url
                              sample_specialties (Some (str "out"))
                              (str "csv") (Some 2%Z))))
  = [ initial_request sample_url;
      page_request sample_parsed (JStr (str "B1")) (str "en/dir") 2 ].
Proof.
  destruct (@run_specialties_fetches_once paged_runtime sample_world sample_fs
              sample_url sample_specialties (Some (str "out")) (str "csv")
              (Some 2%Z)) as [Hrequests _].
  rewrite Hrequests. reflexivity.
Defined.

Lemma run_specialties_result_witness :
  let outcome :=
    run_specialties sample_world sample_fs sample_url sample_specialties
                    None (str "json") (Some 2%Z) in
  let result :=
    [ (str "gynecologist",
       [normalized_record (sample_doctor "Ana" "Gynecologist")
                          (str "https://example.com/")]);
      (str "cardio",
       [normalized_record (sample_doctor "Luis" "Cardiologist")
                          (str "https://example.com/")]) ] in
  snd outcome = Ok result /\
  exists doctors,
    py_list sample_world (fetch_doctors sample_url (Some 2%Z)) = Ok doctors /\
    NoDup (map fst result) /\
    (forall s, In s (map fst result) <-> In s sample_specialties) /\
    Forall (records_for sample_world sample_url doctors) result.
Proof.
  split; [reflexivity|].
  apply (@run_specialties_result paged_runtime sample_world sample_fs
           sample_url sample_specialties None (str "json") (Some 2%Z)
           (fst (run_specialties sample_world sample_fs sample_url
                                 sample_specialties None (str "json")
                                 (Some 2%Z)))).
  reflexivity.
Defined.

Lemma run_specialties_makes_directory_first_witness :
  run_specialties sample_world readonly_fs sample_url sample_specialties
                  (Some (str "out")) (str "csv") (Some 2%Z)
  = ([ Did (EvGet (initial_request sample_url));
       Did (EvGet (page_request sample_parsed (JStr (str "B1"))
                                (str "en/dir") 2));
       Mkdir (str "out") ],
     Err (LibraryError (str "PermissionError"))).
Proof.
  destruct (@run_specialties_makes_directory_first paged_runtime sample_world
              readonly_fs sample_url sample_specialties (Some (str "out"))
              (str "csv") (Some 2%Z)
              (first_page_doctors ++ second_page_doctors) (str "out")
              eq_refl eq_refl) as [_ Hfail].
  apply (Hfail (LibraryError (str "PermissionError"))). reflexivity.
Defined.

End EntryPointExamples.

(** ** Validation of the configured directories *)

Lemma validate_loop_valid entry rest :
  valid_directory_entry entry = true ->
  validate_loop (entry :: rest) = validate_loop rest.
Proof.
  destruct entry as [| | | | | |d]; try discriminate.
  cbn [valid_directory_entry validate_loop contains getitem rbind].
  destruct (lookup (str "url") d); [|discriminate].
  destruct (lookup (str "specialties") d) as [[| | | | |items|]|];
    try discriminate.
  reflexivity.
Qed.

Lemma validate_loop_invalid entry rest :
  valid_directory_entry entry = false ->
  validate_loop (entry :: rest) <> Ok tt.
Proof.
  destruct entry as [| |n|f|s|items|d];
    cbn [valid_directory_entry validate_loop contains getitem rbind];
    try discriminate.
  - intros _. destruct (str_in (str "url") s); cbn [negb]; [|discriminate].
    destruct (str_in (str "specialties") s); cbn [negb rbind]; discriminate.
  - intros _.
    destruct (existsb _ items); cbn [negb]; [|discriminate].
    destruct (existsb _ items); cbn [negb rbind]; discriminate.
  - destruct (lookup (str "url") d); cbn [negb]; [|discriminate].
    destruct (lookup (str "specialties") d) as [[| | | | |items|]|];
      cbn [negb rbind is_list]; discriminate.
Qed.

(** X29.  [_validate_directories] accepts a list of entries exactly
    when every entry is a mapping with a url key and a specialties key
    bound to a list; the value under url is not looked at. *)
Theorem validate_directories_accepts (entries : list json) :
  _validate_directories (JList entries) = Ok tt <->
  forallb valid_directory_entry entries = true.
Proof.
  unfold _validate_directories. cbn [iterate rbind].
  induction entries as [|entry entries IH]; [now split|].
  cbn [forallb]. rewrite andb_true_iff.
  destruct (valid_directory_entry entry) eqn:E.
  - rewrite (@validate_loop_valid _ entries E). rewrite IH. tauto.
  - split; [|intros [H _]; discriminate].
    intros H. now apply validate_loop_invalid in H.
Qed.

(** X30.  The first mapping that is not a valid entry decides the
    complaint: a ValueError about the url when that key is absent, about
    the specialties list otherwise. *)
Theorem validate_directories_first_complaint (good : list json)
  (d : pydict) (rest : list json) :
  forallb valid_directory_entry good = true ->
  valid_directory_entry (JObj d) = false ->
  _validate_directories (JList (good ++ JObj d :: rest))
  = Err (ValueError (entry_complaint d)).
Proof.
  intros Hgood Hbad. unfold _validate_directories. cbn [iterate rbind].
  induction good as [|entry good IH]; cbn [app].
  - unfold entry_complaint.
    cbn [valid_directory_entry validate_loop contains getitem rbind] in *.
    destruct (lookup (str "url") d); cbn [negb]; [|reflexivity].
    destruct (lookup (str "specialties") d) as [[| | | | |items|]|];
      cbn [negb rbind is_list]; try reflexivity.
    discriminate.
  - cbn [forallb] in Hgood. apply andb_true_iff in Hgood as [He Hgood].
    rewrite (@validate_loop_valid _ _ He). now apply IH.
Qed.

Lemma validate_directories_accepts_witness :
  _validate_directories (JList [good_entry; good_entry]) = Ok tt /\
  _validate_directories (JList [good_entry; JObj bad_entry]) <> Ok tt.
Proof.
  split.
  - now apply validate_directories_accepts.
  - intros H. apply validate_directories_accepts in H. discriminate.
Defined.

Lemma validate_directories_first_complaint_witness :
  _validate_directories (JList ([good_entry] ++ JObj bad_entry :: [JNull]))
  = Err (ValueError
           (str "Each directory entry must include a 'specialties' list.")).
Proof.
  apply (@validate_directories_first_complaint [good_entry] bad_entry [JNull]);
    reflexivity.
Defined.
